(** * Mini-Compiler: lexer, parser, three-address code, pseudo-assembly and
      the output simulation of [21201181.py], embedded in Rocq.

    Conventions of the embedding.

    - A Python [str] is a Rocq [string]; the character [ascii] number [n]
      stands for the Unicode code point [n], so the source texts covered are
      those whose code points are below 256.  The character classes below
      follow CPython's tables on that range.
    - A Python [int] is a [Z] (arbitrary precision).  CPython's configurable
      limit on the number of digits of an int/str conversion and its recursion
      limit are resource limits of the interpreter and are not modelled.
    - A Python [float] is a binary64 value, written as a [spec_float] and
      computed with the operations of [SpecFloat] at precision 53.
    - Exceptions are values of [exn]; a function that can raise returns a
      [result]. *)

From Stdlib Require Import Bool Arith ZArith Lia List.
From Stdlib Require Import Ascii String.
From Stdlib Require Import DecimalString DecimalNat DecimalZ DecimalFacts.
From Stdlib Require Import Floats.SpecFloat.
Import ListNotations.

Local Open Scope string_scope.
Local Open Scope list_scope.
Local Open Scope nat_scope.

(** String concatenation, written apart from the list append. *)
Infix "+++" := String.append (at level 60, right associativity).

(* ================================================================== *)
(** * Python string primitives *)
(* ================================================================== *)

Module PyStr.

Definition code (c : ascii) : nat := nat_of_ascii c.

Definition between (lo hi : nat) (c : ascii) : bool :=
  (lo <=? code c) && (code c <=? hi).

(** [[0-9]] *)
Definition is_ascii_digit (c : ascii) : bool := between 48 57 c.

(** [[A-Za-z_]] *)
Definition is_ident_start (c : ascii) : bool :=
  between 65 90 c || between 97 122 c || (code c =? 95).

(** [str.isdigit] on one character: the ASCII digits and the superscript
    digits U+00B2, U+00B3, U+00B9. *)
Definition is_unicode_digit (c : ascii) : bool :=
  is_ascii_digit c || (code c =? 178) || (code c =? 179) || (code c =? 185).

(** [\w] of a [str] pattern: alphanumeric characters and the underscore.
    Below 256 the non-ASCII alphanumerics are U+00AA, U+00B5, U+00BA, the
    letters U+00C0..U+00FF except the two operators U+00D7 and U+00F7, the
    superscript digits and the fractions U+00BC..U+00BE. *)
Definition is_word (c : ascii) : bool :=
  is_ident_start c || is_unicode_digit c
  || (code c =? 170) || (code c =? 181) || (code c =? 186)
  || between 188 190 c
  || between 192 214 c || between 216 246 c || between 248 255 c.

(** [str.isspace] on one character, which is what [str.split()] splits on. *)
Definition is_space (c : ascii) : bool :=
  between 9 13 c || between 28 32 c || (code c =? 133) || (code c =? 160).

Fixpoint forallb_str (p : ascii -> bool) (s : string) : bool :=
  match s with
  | EmptyString => true
  | String c s' => p c && forallb_str p s'
  end.

Definition nonempty (s : string) : bool :=
  match s with EmptyString => false | String _ _ => true end.

(** [s.isdigit()] *)
Definition isdigit (s : string) : bool :=
  nonempty s && forallb_str is_unicode_digit s.

(** [sub in s] for strings *)
Fixpoint contains (sub s : string) : bool :=
  match s with
  | EmptyString => prefix sub EmptyString
  | String _ s' => prefix sub s || contains sub s'
  end.

(** [x in xs] for a list or tuple of strings *)
Definition mem (x : string) (xs : list string) : bool :=
  existsb (String.eqb x) xs.

Definition flush (cur : string) : list string :=
  match cur with EmptyString => [] | _ => [cur] end.

Fixpoint split_go (cur s : string) : list string :=
  match s with
  | EmptyString => flush cur
  | String c s' =>
      if is_space c then flush cur ++ split_go EmptyString s'
      else split_go (cur +++ String c EmptyString) s'
  end.

(** [s.split()]: the maximal runs of non-whitespace characters. *)
Definition split (s : string) : list string := split_go EmptyString s.

Fixpoint split_sep_go (sep : string) (skip : nat) (cur s : string)
  : list string :=
  match s with
  | EmptyString => [cur]
  | String c s' =>
      match skip with
      | S k => split_sep_go sep k cur s'
      | O =>
          if prefix sep s
          then cur :: split_sep_go sep (String.length sep - 1) EmptyString s'
          else split_sep_go sep O (cur +++ String c EmptyString) s'
      end
  end.

(** [s.split(sep)] for a non-empty separator: cut at every occurrence of
    [sep], scanning from the left. *)
Definition split_sep (sep s : string) : list string :=
  split_sep_go sep O EmptyString s.

(** [sep.join(xs)] *)
Fixpoint join (sep : string) (xs : list string) : string :=
  match xs with
  | [] => EmptyString
  | [x] => x
  | x :: rest => x +++ sep +++ join sep rest
  end.

(** [str(n)] for a non-negative counter *)
Definition str_nat (n : nat) : string :=
  NilZero.string_of_uint (Nat.to_uint n).

(** [str(z)] *)
Definition str (z : Z) : string :=
  NilZero.string_of_int (Z.to_int z).

Definition digit_val (c : ascii) : Z := Z.of_nat (code c - 48).

Fixpoint int_go (acc : Z) (s : string) : Z :=
  match s with
  | EmptyString => acc
  | String c s' => int_go (10 * acc + digit_val c)%Z s'
  end.

(** [int(s)] for a string on which [isdigit] holds: the decimal value when
    every character is an ASCII digit, ValueError ([None]) on a superscript
    digit. *)
Definition int (s : string) : option Z :=
  if nonempty s && forallb_str is_ascii_digit s
  then Some (int_go 0 s) else None.

End PyStr.

(* ================================================================== *)
(** * Lexical analyzer *)
(* ================================================================== *)

(** The longest prefix of [s] whose characters satisfy [p], and the rest. *)
Fixpoint span (p : ascii -> bool) (s : string) : string * string :=
  match s with
  | EmptyString => (EmptyString, EmptyString)
  | String c s' =>
      if p c then let (w, r) := span p s' in (String c w, r)
      else (EmptyString, s)
  end.

Definition two_char_ops : list string := ["=="; "<="; ">="; "!="].

Definition one_char_ops : list string :=
  ["+"; "-"; "*"; "/"; "%"; "("; ")"; "{"; "}"; ";"; "="; "<"; ">"].

(** One match of the pattern
    [[A-Za-z_]\w*|[0-9]+|==|<=|>=|!=|[+\-*/%(){};=<>]] at the head of [s],
    with the rest of the text: the alternatives are tried in order and each
    is greedy. *)
Definition match_token (s : string) : option (string * string) :=
  match s with
  | EmptyString => None
  | String c r =>
      let one :=
        if PyStr.mem (String c EmptyString) one_char_ops
        then Some (String c EmptyString, r) else None in
      if PyStr.is_ident_start c then
        let (w, r') := span PyStr.is_word r in Some (String c w, r')
      else if PyStr.is_ascii_digit c then
        let (w, r') := span PyStr.is_ascii_digit r in Some (String c w, r')
      else
        match r with
        | String d r' =>
            if PyStr.mem (String c (String d EmptyString)) two_char_ops
            then Some (String c (String d EmptyString), r')
            else one
        | EmptyString => one
        end
  end.

(** [re.findall]: scan from the left; a position where the pattern does not
    match is skipped.  Every match takes at least one character, so a fuel
    equal to the length of the text is never used up. *)
Fixpoint findall (fuel : nat) (s : string) : list string :=
  match fuel with
  | O => []
  | S fuel' =>
      match s with
      | EmptyString => []
      | String _ s' =>
          match match_token s with
          | Some (tok, rest) => tok :: findall fuel' rest
          | None => findall fuel' s'
          end
      end
  end.

Definition tokenize (code : string) : list string :=
  findall (String.length code) code.

(* ================================================================== *)
(** * Exceptions and results *)
(* ================================================================== *)

(** The exception classes the program can raise, with their messages.  The
    messages of the exceptions raised inside [eval] are shortened: the
    simulation catches these exceptions and drops them. *)
Inductive exn : Type :=
| SyntaxError (msg : string)
| AttributeError (msg : string)
| ValueError (msg : string)
| IndexError (msg : string)
| NameError (msg : string)
| TypeError (msg : string)
| ZeroDivisionError (msg : string)
| OverflowError (msg : string).

(** The outcome of a call: a returned value or a raised exception.  The
    two other outcomes are limits of the model, not outcomes of the program:
    [OutOfFuel] is a bound on the recursion of the parser that was reached
    ([parse_total] shows that [parse] never yields it), and [Unmodelled]
    marks a call of Python's [eval] on a text outside the fragment whose
    semantics is written below. *)
Inductive result (A : Type) : Type :=
| OK (a : A)
| Raise (e : exn)
| OutOfFuel
| Unmodelled.

Arguments OK {A} a.
Arguments Raise {A} e.
Arguments OutOfFuel {A}.
Arguments Unmodelled {A}.

Definition is_syntax_error {A} (r : result A) : bool :=
  match r with Raise (SyntaxError _) => true | _ => false end.

(* ================================================================== *)
(** * Abstract syntax *)
(* ================================================================== *)

(** Expression tuples [("num", n)], [("var", name)] and
    [("binop", op, left, right)]. *)
Inductive node : Type :=
| Num (n : Z)
| Var (name : string)
| BinOp (op : string) (left right : node).

(** Statement tuples [("assign", name, expr)] and [("print", expr)]. *)
Inductive stmt : Type :=
| Assign (name : string) (e : node)
| Print (e : node).

(* ================================================================== *)
(** * Parser *)
(* ================================================================== *)

(** The fields of a [Parser] object. *)
Record Parser : Type := mkParser { tokens : list string; pos : nat }.

(** A method of [Parser]: it reads and advances the object's cursor and
    returns or raises. *)
Definition parser (A : Type) : Type := Parser -> result (A * Parser).

Definition ret {A} (a : A) : parser A := fun p => OK (a, p).

Definition raise {A} (e : exn) : parser A := fun _ => Raise e.

Definition bind {A B} (m : parser A) (k : A -> parser B) : parser B :=
  fun p =>
    match m p with
    | OK (a, p') => k a p'
    | Raise e => Raise e
    | OutOfFuel => OutOfFuel
    | Unmodelled => Unmodelled
    end.

Notation "x <- m ;; k" := (bind m (fun x => k))
  (at level 61, m at next level, right associativity).
Notation "m ;;; k" := (bind m (fun _ => k))
  (at level 61, right associativity).

(** Truth value of what [peek] returns: [None] and the empty string are
    false. *)
Definition truthy (t : option string) : bool :=
  match t with
  | Some s => PyStr.nonempty s
  | None => false
  end.

(** [self.tokens[self.pos] if self.pos < len(self.tokens) else None] *)
Definition peek_at (p : Parser) : option string :=
  nth_error (tokens p) (pos p).

Definition peek : parser (option string) := fun p => OK (peek_at p, p).

Definition advance : parser unit :=
  fun p => OK (tt, mkParser (tokens p) (pos p + 1)).

Definition eat (value : option string) : parser string :=
  tok <- peek ;;
  if negb (truthy tok) then raise (SyntaxError "Unexpected end of input")
  else
    let t := match tok with Some t => t | None => EmptyString end in
    match value with
    | Some v =>
        if PyStr.nonempty v && negb (String.eqb t v)
        then raise (SyntaxError
                      ("Expected '" +++ v +++ "', got '" +++ t +++ "'"))
        else advance ;;; ret t
    | None => advance ;;; ret t
    end.

(** [re.match(r"[A-Za-z_]\w*", tok)] succeeds when a prefix of [tok]
    matches, that is when [tok] starts with a letter or an underscore. *)
Definition matches_ident (tok : string) : bool :=
  match tok with
  | EmptyString => false
  | String c _ => PyStr.is_ident_start c
  end.

(** [factor], with the method [expr] it calls for a parenthesised
    expression as a parameter.  [peek] returns [None] at the end of the
    tokens, and [None.isdigit()] raises AttributeError. *)
Definition factor (expr : parser node) : parser node :=
  tok <- peek ;;
  match tok with
  | None =>
      raise (AttributeError "'NoneType' object has no attribute 'isdigit'")
  | Some t =>
      if PyStr.isdigit t then
        eat None ;;;
        match PyStr.int t with
        | Some n => ret (Num n)
        | None =>
            raise (ValueError
                     ("invalid literal for int() with base 10: '" +++ t
                      +++ "'"))
        end
      else if matches_ident t then
        eat None ;;; ret (Var t)
      else if String.eqb t "(" then
        eat (Some "(") ;;;
        n <- expr ;;
        eat (Some ")") ;;;
        ret n
      else raise (SyntaxError ("Unexpected factor: " +++ t))
  end.

(** The loop [while self.peek() in ops: op = self.eat();
    right = operand(); node = ("binop", op, node, right)] shared by [expr]
    and [term]. *)
Fixpoint binop_loop (ops : list string) (operand : parser node)
    (fuel : nat) (lhs : node) : parser node :=
  match fuel with
  | O => fun _ => OutOfFuel
  | S fuel' =>
      tok <- peek ;;
      match tok with
      | Some t =>
          if PyStr.mem t ops then
            op <- eat None ;;
            rhs <- operand ;;
            binop_loop ops operand fuel' (BinOp op lhs rhs)
          else ret lhs
      | None => ret lhs
      end
  end.

Definition term (expr : parser node) (fuel : nat) : parser node :=
  n <- factor expr ;;
  binop_loop ["*"; "/"] (factor expr) fuel n.

Definition expr_body (expr : parser node) (fuel : nat) : parser node :=
  n <- term expr fuel ;;
  binop_loop ["+"; "-"] (term expr fuel) fuel n.

(** [expr]: the recursion through [term], [factor] and a parenthesis is
    bounded by [fuel]. *)
Fixpoint expr (fuel : nat) : parser node :=
  match fuel with
  | O => fun _ => OutOfFuel
  | S fuel' => expr_body (expr fuel') fuel
  end.

(** [str(x)] as an f-string prints what [peek] returned. *)
Definition format_tok (t : option string) : string :=
  match t with Some s => s | None => "None" end.

Definition statement (fuel : nat) : parser stmt :=
  tok <- peek ;;
  if match tok with Some t => String.eqb t "let" | None => false end then
    eat (Some "let") ;;;
    name <- eat None ;;
    eat (Some "=") ;;;
    e <- expr fuel ;;
    eat (Some ";") ;;;
    ret (Assign name e)
  else if match tok with Some t => String.eqb t "print" | None => false end
  then
    eat (Some "print") ;;;
    eat (Some "(") ;;;
    e <- expr fuel ;;
    eat (Some ")") ;;;
    eat (Some ";") ;;;
    ret (Print e)
  else raise (SyntaxError ("Unexpected token: " +++ format_tok tok)).

(** The loop of [parse]: [while self.peek(): ast.append(self.statement())]. *)
Fixpoint parse_loop (fuel : nat) (ast : list stmt) : parser (list stmt) :=
  match fuel with
  | O => fun _ => OutOfFuel
  | S fuel' =>
      tok <- peek ;;
      if truthy tok then
        s <- statement fuel ;;
        parse_loop fuel' (ast ++ [s])
      else ret ast
  end.

(** [Parser(tokens).parse()] *)
Definition parse (toks : list string) : result (list stmt) :=
  match parse_loop (S (List.length toks)) [] (mkParser toks 0) with
  | OK (ast, _) => OK ast
  | Raise e => Raise e
  | OutOfFuel => OutOfFuel
  | Unmodelled => Unmodelled
  end.

(* ================================================================== *)
(** * Symbol table *)
(* ================================================================== *)

(** A Python [dict] with string keys, as the list of its items in insertion
    order: assigning to a key that is present replaces its value in place,
    assigning to a new key appends it. *)
Section Dict.
Context {V : Type}.

Fixpoint dict_get (d : list (string * V)) (k : string) : option V :=
  match d with
  | [] => None
  | (k', v) :: d' => if String.eqb k k' then Some v else dict_get d' k
  end.

Fixpoint dict_set (d : list (string * V)) (k : string) (v : V)
  : list (string * V) :=
  match d with
  | [] => [(k, v)]
  | (k', v') :: d' =>
      if String.eqb k k' then (k', v) :: d'
      else (k', v') :: dict_set d' k v
  end.
End Dict.

Fixpoint build_symbol_table_from (table : list (string * node))
    (ast : list stmt) : list (string * node) :=
  match ast with
  | [] => table
  | Assign name e :: rest =>
      build_symbol_table_from (dict_set table name e) rest
  | Print _ :: rest => build_symbol_table_from table rest
  end.

Definition build_symbol_table (ast : list stmt) : list (string * node) :=
  build_symbol_table_from [] ast.

(* ================================================================== *)
(** * Three address code *)
(* ================================================================== *)

(** [new_temp] increments the module-level [temp_count] and returns the
    name made of the new value; the counter is passed in and out. *)
Definition new_temp (temp_count : nat) : string * nat :=
  let temp_count' := temp_count + 1 in
  ("t" +++ PyStr.str_nat temp_count', temp_count').

(** [generate_TAC_expr(expr, code)] returns the operand text of [expr];
    the list [code] it appends to and the counter are passed in and out. *)
Fixpoint generate_TAC_expr (e : node) (code : list string)
    (temp_count : nat) : string * list string * nat :=
  match e with
  | Num n => (PyStr.str n, code, temp_count)
  | Var name => (name, code, temp_count)
  | BinOp op l r =>
      let '(lhs, code1, tc1) := generate_TAC_expr l code temp_count in
      let '(rhs, code2, tc2) := generate_TAC_expr r code1 tc1 in
      let (t, tc3) := new_temp tc2 in
      (t, code2 ++ [t +++ " = " +++ lhs +++ " " +++ op +++ " " +++ rhs],
       tc3)
  end.

Fixpoint generate_TAC_from (code : list string) (ast : list stmt)
    (temp_count : nat) : list string * nat :=
  match ast with
  | [] => (code, temp_count)
  | Assign name e :: rest =>
      let '(val, code1, tc1) := generate_TAC_expr e code temp_count in
      generate_TAC_from (code1 ++ [name +++ " = " +++ val]) rest tc1
  | Print e :: rest =>
      let '(val, code1, tc1) := generate_TAC_expr e code temp_count in
      generate_TAC_from (code1 ++ ["PRINT " +++ val]) rest tc1
  end.

(** [generate_TAC(ast)] called when the module-level counter holds
    [temp_count]: the code and the value the counter is left with. *)
Definition generate_TAC (ast : list stmt) (temp_count : nat)
  : list string * nat :=
  generate_TAC_from [] ast temp_count.

(** Two calls of [generate_TAC] on the same AST, one after the other in a
    process whose counter starts at [temp_count]: nothing resets the
    counter in between. *)
Definition generate_TAC_twice (ast : list stmt) (temp_count : nat)
  : list string * list string :=
  let (first, tc1) := generate_TAC ast temp_count in
  let (second, _) := generate_TAC ast tc1 in
  (first, second).

(* ================================================================== *)
(** * Assembly code *)
(* ================================================================== *)

(** The body of the loop of [generate_ASM] for one line: the instructions
    it appends.  [parts[1]] raises IndexError on a line with one token. *)
Definition asm_of_line (line : string) : result (list string) :=
  let parts := PyStr.split line in
  if PyStr.mem "=" parts && negb (PyStr.mem "PRINT" parts) then
    let lhs := nth 0 parts EmptyString in
    let rhs := PyStr.join " " (skipn 2 parts) in
    OK ["LOAD " +++ rhs; "STORE " +++ lhs]
  else if PyStr.mem "PRINT" parts then
    match nth_error parts 1 with
    | Some operand => OK ["LOAD " +++ operand; "OUT"]
    | None => Raise (IndexError "list index out of range")
    end
  else OK [].

Fixpoint generate_ASM_from (asm : list string) (tac : list string)
  : result (list string) :=
  match tac with
  | [] => OK asm
  | line :: rest =>
      match asm_of_line line with
      | OK instrs => generate_ASM_from (asm ++ instrs) rest
      | Raise e => Raise e
      | OutOfFuel => OutOfFuel
      | Unmodelled => Unmodelled
      end
  end.

Definition generate_ASM (tac : list string) : result (list string) :=
  generate_ASM_from [] tac.

(* ================================================================== *)
(** * Python values and the fragment of [eval] the simulation uses *)
(* ================================================================== *)

(** The objects [eval] can return on the modelled fragment: an [int], a
    [float], or an object of the [builtins] module (a function or a class),
    named by the identifier it is bound to. *)
Inductive pyval : Type :=
| VInt (z : Z)
| VFloat (f : spec_float)
| VBuiltin (name : string).

Definition is_int (v : pyval) : bool :=
  match v with VInt _ => true | _ => false end.

Module PyEval.

(** Reserved words: a text that uses one as an operand is not an
    arithmetic expression over names. *)
Definition keywords : list string :=
  ["False"; "None"; "True"; "and"; "as"; "assert"; "async"; "await";
   "break"; "class"; "continue"; "def"; "del"; "elif"; "else"; "except";
   "finally"; "for"; "from"; "global"; "if"; "import"; "in"; "is";
   "lambda"; "nonlocal"; "not"; "or"; "pass"; "raise"; "return"; "try";
   "while"; "with"; "yield"].

(** Names bound in [builtins] in every CPython 3 that runs the program:
    functions, classes and the two singletons, none of which supports
    [+ - * /]. *)
Definition builtin_names : list string :=
  ["abs"; "all"; "any"; "ascii"; "bin"; "bool"; "bytearray"; "bytes";
   "callable"; "chr"; "classmethod"; "compile"; "complex"; "delattr";
   "dict"; "dir"; "divmod"; "enumerate"; "eval"; "exec"; "filter"; "float";
   "format"; "frozenset"; "getattr"; "globals"; "hasattr"; "hash"; "hex";
   "id"; "input"; "int"; "isinstance"; "issubclass"; "iter"; "len"; "list";
   "locals"; "map"; "max"; "memoryview"; "min"; "next"; "object"; "oct";
   "open"; "ord"; "pow"; "print"; "property"; "range"; "repr"; "reversed";
   "round"; "set"; "setattr"; "slice"; "sorted"; "staticmethod"; "str";
   "sum"; "super"; "tuple"; "type"; "vars"; "zip";
   "Ellipsis"; "NotImplemented";
   "ArithmeticError"; "AssertionError"; "AttributeError"; "BaseException";
   "BlockingIOError"; "BrokenPipeError"; "BufferError"; "BytesWarning";
   "ChildProcessError"; "ConnectionAbortedError"; "ConnectionError";
   "ConnectionRefusedError"; "ConnectionResetError"; "DeprecationWarning";
   "EOFError"; "EnvironmentError"; "Exception"; "FileExistsError";
   "FileNotFoundError"; "FloatingPointError"; "FutureWarning";
   "GeneratorExit"; "IOError"; "ImportError"; "ImportWarning";
   "IndentationError"; "IndexError"; "InterruptedError";
   "IsADirectoryError"; "KeyError"; "KeyboardInterrupt"; "LookupError";
   "MemoryError"; "ModuleNotFoundError"; "NameError"; "NotADirectoryError";
   "NotImplementedError"; "OSError"; "OverflowError";
   "PendingDeprecationWarning"; "PermissionError"; "ProcessLookupError";
   "RecursionError"; "ReferenceError"; "ResourceWarning"; "RuntimeError";
   "RuntimeWarning"; "StopAsyncIteration"; "StopIteration"; "SyntaxError";
   "SyntaxWarning"; "SystemError"; "SystemExit"; "TabError"; "TimeoutError";
   "TypeError"; "UnboundLocalError"; "UnicodeDecodeError";
   "UnicodeEncodeError"; "UnicodeError"; "UnicodeTranslateError";
   "UnicodeWarning"; "UserWarning"; "ValueError"; "Warning";
   "ZeroDivisionError"].

(** Names whose presence in [builtins] depends on the version, the platform
    or the [site] module. *)
Definition varying_names : list string :=
  ["aiter"; "anext"; "breakpoint"; "copyright"; "credits"; "exit"; "help";
   "license"; "quit"; "BaseExceptionGroup"; "EncodingWarning";
   "ExceptionGroup"; "PythonFinalizationError"; "WindowsError";
   "_IncompleteInputError"].

Definition is_ascii_word (c : ascii) : bool :=
  PyStr.is_ident_start c || PyStr.is_ascii_digit c.

(** An identifier written in ASCII. *)
Definition ascii_ident (s : string) : bool :=
  match s with
  | EmptyString => false
  | String c s' => PyStr.is_ident_start c && PyStr.forallb_str is_ascii_word s'
  end.

(** A text made of ASCII digits. *)
Definition is_digits (s : string) : bool :=
  PyStr.nonempty s && PyStr.forallb_str PyStr.is_ascii_digit s.

Definition is_zero_char (c : ascii) : bool := PyStr.code c =? 48.

(** A text of digits as a decimal literal: a leading zero is accepted only
    when every digit is a zero. *)
Definition eval_literal (s : string) : result pyval :=
  if negb (prefix "0" s) || PyStr.forallb_str is_zero_char s
  then OK (VInt (PyStr.int_go 0 s))
  else Raise (SyntaxError
                "leading zeros in decimal integer literals are not permitted").

(** A name the lookup of which is decided by the memory alone: an ASCII
    identifier that is not reserved, not bound in [builtins] and not of the
    double-underscore kind. *)
Definition plain_name (s : string) : bool :=
  ascii_ident s && negb (PyStr.mem s keywords) && negb (prefix "__" s)
  && negb (PyStr.mem s builtin_names) && negb (PyStr.mem s varying_names).

(** Evaluation of a name with [memory] as the local namespace and an empty
    global namespace, into which [eval] inserts [__builtins__]: the memory is
    searched first, then the builtins. *)
Definition eval_name (memory : list (string * pyval)) (name : string)
  : result pyval :=
  if negb (ascii_ident name) || PyStr.mem name keywords || prefix "__" name
  then Unmodelled
  else
    match dict_get memory name with
    | Some v => OK v
    | None =>
        if PyStr.mem name builtin_names then OK (VBuiltin name)
        else if PyStr.mem name varying_names then Unmodelled
        else Raise (NameError ("name '" +++ name +++ "' is not defined"))
    end.

Definition eval_operand (memory : list (string * pyval)) (tok : string)
  : result pyval :=
  if is_digits tok then eval_literal tok else eval_name memory tok.

Definition prec : Z := 53.
Definition emax : Z := 1024.

(** An [int] as a quotient operand: sign and magnitude with exponent 0. *)
Definition sf_of_Z (z : Z) : spec_float :=
  match z with
  | Z0 => S754_zero false
  | Zpos p => S754_finite false p 0
  | Zneg p => S754_finite true p 0
  end.

Definition finite_or_overflow (msg : string) (f : spec_float)
  : result spec_float :=
  match f with
  | S754_infinity _ => Raise (OverflowError msg)
  | _ => OK f
  end.

(** Conversion of an [int] operand of a mixed operation: the nearest
    [float], OverflowError beyond the range. *)
Definition float_of_int (z : Z) : result spec_float :=
  finite_or_overflow "int too large to convert to float"
    (binary_normalize prec emax z 0 false).

(** [a / b] on two [int]s: always a [float], the correctly rounded
    quotient. *)
Definition int_true_div (a b : Z) : result pyval :=
  if (b =? 0)%Z then Raise (ZeroDivisionError "division by zero")
  else
    match finite_or_overflow "integer division result too large for a float"
            (SFdiv prec emax (sf_of_Z a) (sf_of_Z b)) with
    | OK f => OK (VFloat f)
    | Raise e => Raise e
    | OutOfFuel => OutOfFuel
    | Unmodelled => Unmodelled
    end.

Definition is_zero (f : spec_float) : bool :=
  match f with S754_zero _ => true | _ => false end.

Definition float_arith (op : string) (x y : spec_float) : result pyval :=
  if String.eqb op "+" then OK (VFloat (SFadd prec emax x y))
  else if String.eqb op "-" then OK (VFloat (SFsub prec emax x y))
  else if String.eqb op "*" then OK (VFloat (SFmul prec emax x y))
  else if String.eqb op "/" then
    if is_zero y then Raise (ZeroDivisionError "float division by zero")
    else OK (VFloat (SFdiv prec emax x y))
  else Unmodelled.

Definition int_arith (op : string) (x y : Z) : result pyval :=
  if String.eqb op "+" then OK (VInt (x + y))
  else if String.eqb op "-" then OK (VInt (x - y))
  else if String.eqb op "*" then OK (VInt (x * y))
  else if String.eqb op "/" then int_true_div x y
  else Unmodelled.

Definition binary_ops : list string := ["+"; "-"; "*"; "/"].

(** [x op y] on two objects. *)
Definition arith (op : string) (x y : pyval) : result pyval :=
  if negb (PyStr.mem op binary_ops) then Unmodelled
  else
    match x, y with
    | VInt a, VInt b => int_arith op a b
    | VInt a, VFloat g =>
        match float_of_int a with
        | OK f => float_arith op f g
        | Raise e => Raise e
        | OutOfFuel => OutOfFuel
        | Unmodelled => Unmodelled
        end
    | VFloat f, VInt b =>
        match float_of_int b with
        | OK g => float_arith op f g
        | Raise e => Raise e
        | OutOfFuel => OutOfFuel
        | Unmodelled => Unmodelled
        end
    | VFloat f, VFloat g => float_arith op f g
    | _, _ =>
        Raise (TypeError ("unsupported operand type(s) for " +++ op))
    end.

(** [eval(expr, {}, memory)] on the texts the TAC generator writes: one
    operand, or two operands around one of [+ - * /] with single spaces; an
    operand is a text of digits or an ASCII identifier.  Any other text is
    [Unmodelled], as is a text with a reserved word, since such a text is not
    compiled as an operation on two names.  A SyntaxError is raised when the
    text is compiled, before any name is looked up; the operands are then
    evaluated from left to right. *)
Definition eval (expr : string) (memory : list (string * pyval))
  : result pyval :=
  match PyStr.split_sep " " expr with
  | [a] => eval_operand memory a
  | [a; op; b] =>
      if negb (PyStr.mem op binary_ops) then Unmodelled
      else
        match eval_operand memory a, eval_operand memory b with
        | Unmodelled, _ | _, Unmodelled => Unmodelled
        | OutOfFuel, _ | _, OutOfFuel => OutOfFuel
        | Raise (SyntaxError m), _ => Raise (SyntaxError m)
        | _, Raise (SyntaxError m) => Raise (SyntaxError m)
        | Raise e, _ => Raise e
        | _, Raise e => Raise e
        | OK x, OK y => arith op x y
        end
  | _ => Unmodelled
  end.

End PyEval.

(* ================================================================== *)
(** * Output simulation *)
(* ================================================================== *)

(** The state of the final loop of [main]: the dictionary [memory] and the
    values passed to [print], in order. *)
Definition machine : Type := (list (string * pyval) * list pyval)%type.

(** [memory.get(var, 0)] *)
Definition memory_get (memory : list (string * pyval)) (var : string)
  : pyval :=
  match dict_get memory var with
  | Some v => v
  | None => VInt 0
  end.

(** One iteration of the loop [for stmt in tac].  The tests are substring
    tests on the line; the unpacking of [stmt.split(" = ")] raises
    ValueError unless there are exactly two pieces; any exception raised by
    [eval] is caught and zero is stored. *)
Definition exec_line (line : string) (st : machine) : result machine :=
  let (memory, printed) := st in
  if PyStr.contains "=" line && negb (PyStr.contains "PRINT" line) then
    match PyStr.split_sep " = " line with
    | [var; expr] =>
        match PyEval.eval expr memory with
        | OK v => OK (dict_set memory var v, printed)
        | Raise _ => OK (dict_set memory var (VInt 0), printed)
        | OutOfFuel => OutOfFuel
        | Unmodelled => Unmodelled
        end
    | [_] =>
        Raise (ValueError "not enough values to unpack (expected 2, got 1)")
    | _ => Raise (ValueError "too many values to unpack (expected 2)")
    end
  else if PyStr.contains "PRINT" line then
    match nth_error (PyStr.split line) 1 with
    | Some var => OK (memory, printed ++ [memory_get memory var])
    | None => Raise (IndexError "list index out of range")
    end
  else OK st.

Fixpoint run_from (st : machine) (tac : list string) : result machine :=
  match tac with
  | [] => OK st
  | line :: rest =>
      match exec_line line st with
      | OK st' => run_from st' rest
      | Raise e => Raise e
      | OutOfFuel => OutOfFuel
      | Unmodelled => Unmodelled
      end
  end.

(** The loop under [=== OUTPUT ===], from the empty memory. *)
Definition run (tac : list string) : result machine := run_from ([], []) tac.

(* ================================================================== *)
(** * The pipeline of [main] *)
(* ================================================================== *)

(** What [main] computes from the text of the source file, stage by stage;
    reading the file and printing the stages are left out. *)
Record Compiled : Type := mkCompiled {
  c_tokens : list string;
  c_ast : list stmt;
  c_table : list (string * node);
  c_tac : list string;
  c_asm : list string;
  c_memory : list (string * pyval);
  c_printed : list pyval
}.

Definition lift {A B} (r : result A) (k : A -> result B) : result B :=
  match r with
  | OK a => k a
  | Raise e => Raise e
  | OutOfFuel => OutOfFuel
  | Unmodelled => Unmodelled
  end.

(** [main] in a process whose [temp_count] holds [temp_count] when it is
    called. *)
Definition main_from (temp_count : nat) (code : string) : result Compiled :=
  let toks := tokenize code in
  lift (parse toks) (fun ast =>
  let table := build_symbol_table ast in
  let tac := fst (generate_TAC ast temp_count) in
  lift (generate_ASM tac) (fun asm =>
  lift (run tac) (fun st =>
  OK (mkCompiled toks ast table tac asm (fst st) (snd st))))).

(** [main] as the script runs it: once, in a fresh process, where
    [temp_count = 0]. *)
Definition main (code : string) : result Compiled := main_from 0 code.

(* ================================================================== *)
(** * Properties of programs used in the statements *)
(* ================================================================== *)

(** The number of binary operations of an expression, a statement, a
    program: the number of temporaries its lowering takes. *)
Fixpoint count_binops (e : node) : nat :=
  match e with
  | Num _ | Var _ => 0
  | BinOp _ l r => count_binops l + count_binops r + 1
  end.

Definition stmt_expr (s : stmt) : node :=
  match s with Assign _ e => e | Print e => e end.

Fixpoint count_binops_ast (ast : list stmt) : nat :=
  match ast with
  | [] => 0
  | s :: rest => count_binops (stmt_expr s) + count_binops_ast rest
  end.

(** What [factor], [term] and [expr] guarantee of an expression they
    return: a literal is not negative, a variable starts as an identifier
    does, an operator is one of the four. *)
Fixpoint parsed_node (e : node) : Prop :=
  match e with
  | Num n => (0 <= n)%Z
  | Var x => matches_ident x = true
  | BinOp op l r =>
      PyStr.mem op PyEval.binary_ops = true /\ parsed_node l /\ parsed_node r
  end.

Definition parsed_stmt (s : stmt) : Prop := parsed_node (stmt_expr s).

(** An expression over [+ - *], non-negative literals and plain names. *)
Fixpoint plain_node (e : node) : bool :=
  match e with
  | Num n => (0 <=? n)%Z
  | Var x => PyEval.plain_name x
  | BinOp op l r =>
      PyStr.mem op ["+"; "-"; "*"] && plain_node l && plain_node r
  end.

Definition plain_stmt (s : stmt) : bool :=
  match s with
  | Assign name e => PyEval.plain_name name && plain_node e
  | Print e => plain_node e
  end.

(** A program without [/] in which every identifier is a plain name. *)
Definition plain_program (ast : list stmt) : bool := forallb plain_stmt ast.

(** A non-empty text without whitespace: one piece for [split]. *)
Definition is_token (s : string) : bool :=
  PyStr.nonempty s && PyStr.forallb_str (fun c => negb (PyStr.is_space c)) s.

Definition all_int (vs : list pyval) : bool := forallb is_int vs.

Definition memory_all_int (memory : list (string * pyval)) : bool :=
  forallb (fun kv => is_int (snd kv)) memory.

(** Two dictionaries with the same items, in any order. *)
Definition same_dict {V} (d1 d2 : list (string * V)) : Prop :=
  forall k, dict_get d1 k = dict_get d2 k.

(** The [float] 2.5, that is 5 * 2^50 * 2^-51. *)
Definition float_2_5 : spec_float := S754_finite false 5629499534213120 (-51).


(** The three forms of the lines [generate_TAC] writes, for a property [Pt]
    of the assigned names, [Po] of the operand texts and [Pop] of the
    operators; the destination of a computation is a temporary. *)
Section Shapes.
Variables Pt Po Pop : string -> Prop.

Inductive tac_shape : string -> Prop :=
| shape_assign name val :
    Pt name -> Po val -> tac_shape (name +++ " = " +++ val)
| shape_compute n lhs op rhs :
    Po lhs -> Pop op -> Po rhs ->
    tac_shape (("t" +++ PyStr.str_nat n) +++ " = " +++ lhs +++ " " +++ op
               +++ " " +++ rhs)
| shape_print val :
    Po val -> tac_shape ("PRINT " +++ val).

Fixpoint node_sat (e : node) : Prop :=
  match e with
  | Num n => Po (PyStr.str n)
  | Var x => Po x
  | BinOp op l r => Pop op /\ node_sat l /\ node_sat r
  end.

Definition stmt_sat (s : stmt) : Prop :=
  match s with
  | Assign name e => Pt name /\ node_sat e
  | Print e => node_sat e
  end.
End Shapes.

(** A text whose first character is not whitespace. *)
Definition head_nonspace (s : string) : Prop :=
  match s with
  | EmptyString => False
  | String c _ => PyStr.is_space c = false
  end.

(** An operand text of a plain program: digits or a plain name. *)
Definition plain_operand (s : string) : Prop :=
  PyEval.is_digits s = true \/ PyEval.plain_name s = true.

(** A non-empty text of ASCII letters, digits and underscores. *)
Definition word_text (s : string) : bool :=
  PyStr.nonempty s && PyStr.forallb_str PyEval.is_ascii_word s.

Definition plain_target (s : string) : Prop := PyEval.plain_name s = true.

Definition plain_op (op : string) : Prop :=
  PyStr.mem op ["+"; "-"; "*"] = true.

(** What the simulation keeps true on a plain program: every value in the
    memory and every printed value is an [int]. *)
Definition ints_only (st : machine) : Prop :=
  memory_all_int (fst st) = true /\ all_int (snd st) = true.

(** A text without the space character. *)
Definition no_space (s : string) : bool :=
  PyStr.forallb_str (fun c => negb (Ascii.eqb c " ")) s.

(** An outcome of [eval] that makes the simulation store an [int]: an
    [int] was computed, or an exception was raised. *)
Definition int_or_raise (r : result pyval) : Prop :=
  (exists z, r = OK (VInt z)) \/ (exists e, r = Raise e).

(** The number of tokens the cursor has not passed. *)
Definition remaining (p : Parser) : nat := List.length (tokens p) - pos p.

(** An outcome of the program: a value or an exception. *)
Definition settled {A} (r : result A) : Prop :=
  match r with
  | OK _ | Raise _ => True
  | OutOfFuel | Unmodelled => False
  end.

(** A method that moves the cursor forward whenever it returns. *)
Definition consumes {A} (m : parser A) : Prop :=
  forall p a p', m p = OK (a, p') ->
                 tokens p' = tokens p /\ remaining p' < remaining p.

(* ================================================================== *)
(** * Reference notions for the further properties *)
(* ================================================================== *)

(** A character at which no alternative of the token pattern matches and
    which does not take part in a longer match: not a letter, digit or
    underscore of ASCII, and not one of the operator characters. *)
Definition unrecognized (c : ascii) : bool :=
  negb (PyStr.is_ident_start c) && negb (PyStr.is_ascii_digit c)
  && negb (PyStr.mem (String c EmptyString) one_char_ops).

(** The four kinds of text the token pattern can match. *)
Definition is_identifier (t : string) : bool :=
  match t with
  | EmptyString => false
  | String c w => PyStr.is_ident_start c && PyStr.forallb_str PyStr.is_word w
  end.

Definition token_class (t : string) : bool :=
  is_identifier t || PyEval.is_digits t
  || PyStr.mem t two_char_ops || PyStr.mem t one_char_ops.

(** The expression of the last [let] of [name] in the program. *)
Fixpoint last_assign (ast : list stmt) (name : string) : option node :=
  match ast with
  | [] => None
  | s :: rest =>
      match last_assign rest name with
      | Some e => Some e
      | None =>
          match s with
          | Assign n e => if String.eqb name n then Some e else None
          | Print _ => None
          end
      end
  end.

(** The names a program assigns, in the order of the statements. *)
Fixpoint assigned_names (ast : list stmt) : list string :=
  match ast with
  | [] => []
  | Assign n _ :: rest => n :: assigned_names rest
  | Print _ :: rest => assigned_names rest
  end.

(** The lines [generate_TAC_expr] appends for an expression and the operand
    text it returns, when the counter holds [tc]. *)
Definition expr_lines (e : node) (tc : nat) : list string :=
  snd (fst (generate_TAC_expr e [] tc)).

Definition expr_operand (e : node) (tc : nat) : string :=
  fst (fst (generate_TAC_expr e [] tc)).

(** The parser after [self.pos += 1]. *)
Definition next (p : Parser) : Parser := mkParser (tokens p) (pos p + 1).

(** What the parser guarantees of a tree when every token of the input
    has the property [Q]: names and variables are tokens of the input. *)
Fixpoint node_from (Q : string -> Prop) (e : node) : Prop :=
  match e with
  | Num n => (0 <= n)%Z
  | Var x => Q x /\ matches_ident x = true
  | BinOp op l r =>
      PyStr.mem op PyEval.binary_ops = true /\ node_from Q l /\ node_from Q r
  end.

Definition stmt_from (Q : string -> Prop) (s : stmt) : Prop :=
  match s with
  | Assign name e => Q name /\ node_from Q e
  | Print e => node_from Q e
  end.

(** The two kinds of exception [parse] raises on the tokens of a text. *)
Definition parser_error (e : exn) : Prop :=
  (exists msg, e = SyntaxError msg) \/
  e = AttributeError "'NoneType' object has no attribute 'isdigit'".

Definition token_text (s : string) : Prop := is_token s = true.

Definition binary_op (op : string) : Prop :=
  PyStr.mem op PyEval.binary_ops = true.

(* ================================================================== *)
(** * Direct evaluation of a program *)
(* ================================================================== *)

(** The name of the temporary number [n]. *)
Definition temp (n : nat) : string := "t" +++ PyStr.str_nat n.

(** A text of the form of a temporary: [t] followed by digits. *)
Definition is_temp_name (s : string) : bool :=
  match s with
  | String c d => Ascii.eqb c "t" && PyEval.is_digits d
  | EmptyString => false
  end.

(** A variable name that [eval] looks up in the memory alone, that no
    temporary can be confused with and that does not make a line look like
    a print line. *)
Definition user_name (s : string) : bool :=
  PyEval.plain_name s && negb (is_temp_name s)
  && negb (PyStr.contains "PRINT" s).

Fixpoint simple_node (e : node) : bool :=
  match e with
  | Num n => (0 <=? n)%Z
  | Var x => user_name x
  | BinOp op l r =>
      PyStr.mem op ["+"; "-"; "*"] && simple_node l && simple_node r
  end.

Definition simple_stmt (s : stmt) : bool :=
  match s with
  | Assign name e => user_name name && simple_node e
  | Print e => simple_node e
  end.

(** A program over [+ - *] whose identifiers are user names. *)
Definition simple_program (ast : list stmt) : bool := forallb simple_stmt ast.

Definition apply_op (op : string) (a b : Z) : Z :=
  if String.eqb op "+" then a + b
  else if String.eqb op "-" then a - b
  else a * b.

(** The value of an expression as an operand, on the values [env] of the
    variables: a variable without a value has none, and an operation one of
    whose operands has none is zero, as the line written for it stores zero
    when [eval] raises. *)
Fixpoint operand_value (env : list (string * Z)) (e : node) : option Z :=
  match e with
  | Num n => Some n
  | Var x => dict_get env x
  | BinOp op l r =>
      Some (match operand_value env l, operand_value env r with
            | Some a, Some b => apply_op op a b
            | _, _ => 0%Z
            end)
  end.

(** What [let x = e] stores: the value of [e], zero if it has none. *)
Definition stored_value (env : list (string * Z)) (e : node) : Z :=
  match operand_value env e with Some v => v | None => 0%Z end.

(** What [print(e)] prints: the operand of a print line is looked up as a
    name, so a literal prints zero. *)
Definition printed_value (env : list (string * Z)) (e : node) : Z :=
  match e with
  | Num _ => 0%Z
  | _ => stored_value env e
  end.

(** The program run on the syntax tree, statement by statement. *)
Fixpoint direct_run (env : list (string * Z)) (out : list Z)
    (ast : list stmt) : list (string * Z) * list Z :=
  match ast with
  | [] => (env, out)
  | Assign x e :: rest =>
      direct_run (dict_set env x (stored_value env e)) out rest
  | Print e :: rest =>
      direct_run env (out ++ [printed_value env e]) rest
  end.

(** The memory of the simulation holds the values of [env] under the user
    names, and nothing under a text of digits. *)
Definition represents (env : list (string * Z))
    (memory : list (string * pyval)) : Prop :=
  (forall x, user_name x = true ->
             dict_get memory x = option_map VInt (dict_get env x)) /\
  (forall k, PyEval.is_digits k = true -> dict_get memory k = None).

(** Two memories that differ at most under the temporaries numbered from
    [lo + 1] to [hi]. *)
Definition same_outside (lo hi : nat)
    (m1 m2 : list (string * pyval)) : Prop :=
  forall k, (forall i, lo < i <= hi -> k <> temp i) ->
            dict_get m2 k = dict_get m1 k.

(** An outcome of the evaluation of an operand that agrees with its
    value: the [int], or an exception where there is no value. *)
Definition agrees (r : result pyval) (v : option Z) : Prop :=
  match v with
  | Some z => r = OK (VInt z)
  | None => exists err, r = Raise err
  end.

(** Where the value of an expression stands once its lines have run: the
    operand of an operation is its temporary, which holds the value. *)
Definition operand_holds (env : list (string * Z))
    (memory : list (string * pyval)) (e : node) (tc : nat) : Prop :=
  match e with
  | Num _ | Var _ => True
  | BinOp _ _ _ =>
      dict_get memory (expr_operand e tc) = Some (VInt (stored_value env e))
  end.

Definition value_or_zero (v : option Z) : Z :=
  match v with Some z => z | None => 0%Z end.

(* ================================================================== *)
(** * What a method of the parser reads *)
(* ================================================================== *)

(** The parser [q] moved forward by [d] tokens. *)
Definition move (q : Parser) (d : nat) : Parser :=
  mkParser (tokens q) (pos q + d).

(** Two parsers that see the same [n] next tokens (or the same end of
    the tokens within them). *)
Definition same_window (n : nat) (p q : Parser) : Prop :=
  forall i, i < n ->
    nth_error (tokens q) (pos q + i) = nth_error (tokens p) (pos p + i).

(** A method [m] that, when it returns having moved the cursor by [d],
    has moved it by at least [c], has not moved it past the end, and has
    read only the [s + d] next tokens: [m'] returns the same from any
    parser that sees the same [s + d] tokens. *)
Definition reads {A} (s c : nat) (m m' : parser A) : Prop :=
  forall p a p',
    m p = OK (a, p') ->
    tokens p' = tokens p /\ pos p + c <= pos p' /\
    (pos p <= List.length (tokens p) -> pos p' <= List.length (tokens p)) /\
    (forall q, same_window (s + (pos p' - pos p)) p q ->
               m' q = OK (a, move q (pos p' - pos p))).

(* ================================================================== *)
(** * The usual writing of an expression *)
(* ================================================================== *)

(** The level of the loop that takes an operator: 0 for the loop of
    [expr], 1 for the loop of [term]. *)
Definition level (op : string) : nat :=
  if PyStr.mem op ["+"; "-"] then 0 else 1.

(** The tokens of an expression written with the parentheses it needs and
    no other: the left operand of an operator is written at the level of
    the operator, the right operand one level above, and an operation that
    stands where a higher level is asked for is put in parentheses. *)
Fixpoint write (lvl : nat) (e : node) : list string :=
  match e with
  | Num n => [PyStr.str n]
  | Var x => [x]
  | BinOp op l r =>
      let body := write (level op) l ++ [op] ++ write (S (level op)) r in
      if lvl <=? level op then body else ["("] ++ body ++ [")"]
  end.

Definition write_stmt (s : stmt) : list string :=
  match s with
  | Assign name e => ["let"; name; "="] ++ write 0 e ++ [";"]
  | Print e => ["print"; "("] ++ write 0 e ++ [")"; ";"]
  end.

Definition write_program (ast : list stmt) : list string :=
  flat_map write_stmt ast.

(** The depth of the parentheses of [write lvl e]. *)
Fixpoint depth (lvl : nat) (e : node) : nat :=
  match e with
  | Num _ | Var _ => 0
  | BinOp op l r =>
      let body := Nat.max (depth (level op) l) (depth (S (level op)) r) in
      if lvl <=? level op then body else S body
  end.

(** The number of operators of [ops] down the left operands of [e]. *)
Fixpoint spine (ops : list string) (e : node) : nat :=
  match e with
  | BinOp op l _ => if PyStr.mem op ops then S (spine ops l) else 0
  | _ => 0
  end.

(** The tokens [s] stand in [toks] from the index [n] on. *)
Definition segment (toks : list string) (n : nat) (s : list string) : Prop :=
  forall i t, nth_error s i = Some t -> nth_error toks (n + i) = Some t.

(** The token of index [n], if there is one, is none of [ops]. *)
Definition stops (ops : list string) (toks : list string) (n : nat) : Prop :=
  match nth_error toks n with
  | Some t => PyStr.mem t ops = false
  | None => True
  end.

(** A statement the parser can return: the expression is one it builds and
    the name is not the empty text. *)
Definition writable_stmt (s : stmt) : Prop :=
  match s with
  | Assign name e => PyStr.nonempty name = true /\ parsed_node e
  | Print e => parsed_node e
  end.

(** A program as the tokenizer and the parser give it: names and variables
    are identifiers of the token pattern. *)
Fixpoint source_node (e : node) : Prop :=
  match e with
  | Num n => (0 <= n)%Z
  | Var x => is_identifier x = true
  | BinOp op l r =>
      PyStr.mem op PyEval.binary_ops = true /\ source_node l /\ source_node r
  end.

Definition source_stmt (s : stmt) : Prop :=
  match s with
  | Assign name e => is_identifier name = true /\ source_node e
  | Print e => source_node e
  end.

(* ================================================================== *)
(** * The output loop, whatever [eval] does *)
(* ================================================================== *)

(** The body of the loop [for stmt in tac] with [eval] as a parameter:
    [ev expr memory] stands for what [eval(expr, {}, memory)] returns or
    raises.  With [PyEval.eval] for [ev] this is [exec_line]. *)
Definition exec_line_with
    (ev : string -> list (string * pyval) -> result pyval)
    (line : string) (st : machine) : result machine :=
  let (memory, printed) := st in
  if PyStr.contains "=" line && negb (PyStr.contains "PRINT" line) then
    match PyStr.split_sep " = " line with
    | [var; expr] =>
        match ev expr memory with
        | OK v => OK (dict_set memory var v, printed)
        | Raise _ => OK (dict_set memory var (VInt 0), printed)
        | OutOfFuel => OutOfFuel
        | Unmodelled => Unmodelled
        end
    | [_] =>
        Raise (ValueError "not enough values to unpack (expected 2, got 1)")
    | _ => Raise (ValueError "too many values to unpack (expected 2)")
    end
  else if PyStr.contains "PRINT" line then
    match nth_error (PyStr.split line) 1 with
    | Some var => OK (memory, printed ++ [memory_get memory var])
    | None => Raise (IndexError "list index out of range")
    end
  else OK st.

Fixpoint run_from_with
    (ev : string -> list (string * pyval) -> result pyval)
    (st : machine) (tac : list string) : result machine :=
  match tac with
  | [] => OK st
  | line :: rest =>
      match exec_line_with ev line st with
      | OK st' => run_from_with ev st' rest
      | Raise e => Raise e
      | OutOfFuel => OutOfFuel
      | Unmodelled => Unmodelled
      end
  end.

(* ================================================================== *)
(** * Strings, [split] and [in] *)
(* ================================================================== *)

Lemma append_assoc (a b c : string) : (a +++ b) +++ c = a +++ b +++ c.
Proof. induction a as [|x a IH]; simpl; [reflexivity | now rewrite IH]. Qed.

Lemma append_empty_r (a : string) : a +++ EmptyString = a.
Proof. induction a as [|x a IH]; simpl; [reflexivity | now rewrite IH]. Qed.

Lemma mem_In (x : string) (xs : list string) :
  PyStr.mem x xs = true <-> In x xs.
Proof.
  unfold PyStr.mem. rewrite existsb_exists. split.
  - intros [y [Hy Heq]]. apply String.eqb_eq in Heq. now subst.
  - intros H. exists x. split; [assumption | apply String.eqb_refl].
Qed.

Lemma mem_app (x : string) (xs ys : list string) :
  PyStr.mem x (xs ++ ys) = PyStr.mem x xs || PyStr.mem x ys.
Proof. unfold PyStr.mem. apply existsb_app. Qed.

Lemma nonempty_append_l (a b : string) :
  PyStr.nonempty a = true -> PyStr.nonempty (a +++ b) = true.
Proof. destruct a; simpl; congruence. Qed.

Lemma flush_nonempty (cur : string) :
  PyStr.nonempty cur = true -> PyStr.flush cur = [cur].
Proof. destruct cur; simpl; [discriminate | reflexivity]. Qed.

(** A pending piece is never lost. *)
Lemma split_go_pending (s cur : string) :
  PyStr.nonempty cur = true ->
  exists w rest, PyStr.split_go cur s = w :: rest.
Proof.
  revert cur. induction s as [|c s IH]; intros cur Hcur; simpl.
  - rewrite (flush_nonempty _ Hcur). eauto.
  - destruct (PyStr.is_space c).
    + rewrite (flush_nonempty _ Hcur). simpl. eauto.
    + apply IH. now apply nonempty_append_l.
Qed.

Lemma split_head_nonspace (s : string) :
  head_nonspace s -> exists w rest, PyStr.split s = w :: rest.
Proof.
  destruct s as [|c s]; simpl; [tauto|]. intros Hc.
  unfold PyStr.split. simpl. rewrite Hc. now apply split_go_pending.
Qed.

(** A run of non-whitespace characters is added to the pending piece. *)
Lemma split_go_token (w cur rest : string) :
  PyStr.forallb_str (fun c => negb (PyStr.is_space c)) w = true ->
  PyStr.split_go cur (w +++ rest) = PyStr.split_go (cur +++ w) rest.
Proof.
  revert cur. induction w as [|c w IH]; intros cur Hw; simpl.
  - now rewrite append_empty_r.
  - simpl in Hw. apply andb_prop in Hw as [Hc Hw].
    apply negb_true_iff in Hc. rewrite Hc, (IH _ Hw).
    now rewrite append_assoc.
Qed.

(** The [=] that the generator writes between two spaces is a piece of
    the line, whatever stands around it. *)
Lemma split_go_eq_sign (a cur b : string) :
  PyStr.mem "=" (PyStr.split_go cur (a +++ " = " +++ b)) = true.
Proof.
  revert cur. induction a as [|c a IH]; intros cur.
  - simpl. rewrite mem_app. simpl. apply orb_true_r.
  - simpl. destruct (PyStr.is_space c).
    + rewrite mem_app, IH. apply orb_true_r.
    + apply IH.
Qed.

Lemma two_members (x y : string) (l : list string) :
  x <> y -> In x l -> In y l -> exists a b rest, l = a :: b :: rest.
Proof.
  intros Hne Hx Hy. destruct l as [|a [|b rest]].
  - destruct Hx.
  - simpl in Hx, Hy. intuition congruence.
  - eauto.
Qed.

(* ================================================================== *)
(** * Every generated line yields two instructions *)
(* ================================================================== *)

(** A line with [ = ] in it: Load and Store, or Load and Out when [PRINT]
    is one of its pieces. *)
Lemma asm_of_line_assignment (a b : string) :
  exists x y, asm_of_line (a +++ " = " +++ b) = OK [x; y].
Proof.
  unfold asm_of_line, PyStr.split.
  pose proof (split_go_eq_sign a EmptyString b) as Heq.
  set (parts := PyStr.split_go EmptyString (a +++ " = " +++ b)) in *.
  rewrite Heq. simpl.
  destruct (PyStr.mem "PRINT" parts) eqn:Hp; simpl.
  - apply mem_In in Heq. apply mem_In in Hp.
    destruct (two_members "=" "PRINT" parts) as [u [v [rest Hparts]]];
      [discriminate | assumption | assumption |].
    rewrite Hparts. simpl. eauto.
  - eauto.
Qed.

Lemma split_print_line (val : string) :
  PyStr.split ("PRINT " +++ val) = "PRINT" :: PyStr.split val.
Proof. reflexivity. Qed.

Lemma asm_of_line_print (val : string) :
  head_nonspace val ->
  exists x y, asm_of_line ("PRINT " +++ val) = OK [x; y].
Proof.
  intros Hval. unfold asm_of_line. rewrite split_print_line.
  destruct (split_head_nonspace val Hval) as [w [rest Hw]]. rewrite Hw.
  assert (Hp : PyStr.mem "PRINT" ("PRINT" :: w :: rest) = true)
    by reflexivity.
  rewrite Hp. rewrite andb_false_r. simpl. eauto.
Qed.

Lemma asm_of_line_shape (line : string) :
  tac_shape (fun _ => True) head_nonspace (fun _ => True) line ->
  exists x y, asm_of_line line = OK [x; y].
Proof.
  intros [name val _ _ | n lhs op rhs _ _ _ | val Hval].
  - apply asm_of_line_assignment.
  - apply asm_of_line_assignment.
  - now apply asm_of_line_print.
Qed.

Lemma generate_ASM_from_length (tac asm : list string) :
  Forall (tac_shape (fun _ => True) head_nonspace (fun _ => True)) tac ->
  exists asm', generate_ASM_from asm tac = OK asm' /\
               List.length asm' = List.length asm + 2 * List.length tac.
Proof.
  revert asm. induction tac as [|line tac IH]; intros asm Hall; simpl.
  - exists asm. split; [reflexivity | lia].
  - inversion Hall as [|l t Hline Htac]; subst.
    destruct (asm_of_line_shape line Hline) as [x [y Hxy]]. rewrite Hxy.
    destruct (IH (asm ++ [x; y]) Htac) as [asm' [Hrun Hlen]].
    exists asm'. split; [assumption|].
    rewrite Hlen, length_app. simpl. lia.
Qed.

(* ================================================================== *)
(** * The lines and the counter of the TAC generator *)
(* ================================================================== *)

Section GeneratedShapes.
Variables Pt Po Pop : string -> Prop.
Hypothesis temp_operand : forall n, Po ("t" +++ PyStr.str_nat n).

Lemma generate_TAC_expr_shape (e : node) :
  forall code tc,
    node_sat Po Pop e -> Forall (tac_shape Pt Po Pop) code ->
    Po (fst (fst (generate_TAC_expr e code tc))) /\
    Forall (tac_shape Pt Po Pop) (snd (fst (generate_TAC_expr e code tc))).
Proof.
  induction e as [n | x | op l IHl r IHr]; intros code tc He Hcode; simpl.
  - now split.
  - now split.
  - destruct He as [Hop [Hl Hr]].
    specialize (IHl code tc Hl Hcode).
    destruct (generate_TAC_expr l code tc) as [[lhs code1] tc1].
    simpl in IHl. destruct IHl as [Hlhs Hcode1].
    specialize (IHr code1 tc1 Hr Hcode1).
    destruct (generate_TAC_expr r code1 tc1) as [[rhs code2] tc2].
    simpl in IHr. destruct IHr as [Hrhs Hcode2]. simpl. split.
    + apply (temp_operand (tc2 + 1)).
    + apply Forall_app. split; [assumption|].
      constructor; [|constructor].
      apply (shape_compute Pt Po Pop (tc2 + 1)); assumption.
Qed.

Lemma generate_TAC_from_shape (ast : list stmt) :
  forall code tc,
    Forall (stmt_sat Pt Po Pop) ast -> Forall (tac_shape Pt Po Pop) code ->
    Forall (tac_shape Pt Po Pop) (fst (generate_TAC_from code ast tc)).
Proof.
  induction ast as [|s ast IH]; intros code tc Hast Hcode; simpl.
  - assumption.
  - inversion Hast as [|s' ast' Hs Hrest]; subst.
    destruct s as [name e | e]; simpl in Hs.
    + destruct Hs as [Hname He].
      pose proof (generate_TAC_expr_shape e code tc He Hcode) as H.
      destruct (generate_TAC_expr e code tc) as [[val code1] tc1].
      simpl in H. destruct H as [Hval Hcode1].
      apply IH; [assumption|].
      apply Forall_app. split; [assumption|].
      constructor; [|constructor]. now constructor.
    + pose proof (generate_TAC_expr_shape e code tc Hs Hcode) as H.
      destruct (generate_TAC_expr e code tc) as [[val code1] tc1].
      simpl in H. destruct H as [Hval Hcode1].
      apply IH; [assumption|].
      apply Forall_app. split; [assumption|].
      constructor; [|constructor]. now constructor.
Qed.

Lemma generate_TAC_shape (ast : list stmt) (tc : nat) :
  Forall (stmt_sat Pt Po Pop) ast ->
  Forall (tac_shape Pt Po Pop) (fst (generate_TAC ast tc)).
Proof.
  intros Hast. apply generate_TAC_from_shape; [assumption | constructor].
Qed.
End GeneratedShapes.

(** The generator advances the counter by one for each binary operation. *)
Lemma generate_TAC_expr_counter (e : node) :
  forall code tc,
    snd (generate_TAC_expr e code tc) = tc + count_binops e.
Proof.
  induction e as [n | x | op l IHl r IHr]; intros code tc; simpl;
    try (now rewrite Nat.add_0_r).
  specialize (IHl code tc).
  destruct (generate_TAC_expr l code tc) as [[lhs code1] tc1].
  specialize (IHr code1 tc1).
  destruct (generate_TAC_expr r code1 tc1) as [[rhs code2] tc2].
  simpl in *. lia.
Qed.

Lemma generate_TAC_from_counter (ast : list stmt) :
  forall code tc,
    snd (generate_TAC_from code ast tc) = tc + count_binops_ast ast.
Proof.
  induction ast as [|s ast IH]; intros code tc; simpl.
  - now rewrite Nat.add_0_r.
  - destruct s as [name e | e]; simpl;
      pose proof (generate_TAC_expr_counter e code tc) as H;
      destruct (generate_TAC_expr e code tc) as [[val code1] tc1];
      simpl in H; rewrite IH; lia.
Qed.

(* ================================================================== *)
(** * What the parser guarantees of the tree it returns *)
(* ================================================================== *)

Lemma bind_OK {A B} (m : parser A) (k : A -> parser B) p r :
  bind m k p = OK r ->
  exists a p1, m p = OK (a, p1) /\ k a p1 = OK r.
Proof.
  unfold bind. destruct (m p) as [[a p1] | e | |]; try discriminate.
  intros H. eauto.
Qed.

Ltac bind_inv H :=
  let a := fresh "a" in
  let p1 := fresh "p" in
  let H1 := fresh "Hm" in
  apply bind_OK in H; destruct H as [a [p1 [H1 H]]].

Lemma peek_OK p t p' : peek p = OK (t, p') -> t = peek_at p /\ p' = p.
Proof. unfold peek. intros H. inversion H. now split. Qed.

(** [eat] returns the token under the cursor, which is not empty, and
    moves the cursor by one. *)
Lemma eat_OK value p t p' :
  eat value p = OK (t, p') ->
  peek_at p = Some t /\ PyStr.nonempty t = true /\
  p' = mkParser (tokens p) (pos p + 1) /\
  (forall v, value = Some v -> PyStr.nonempty v = true -> t = v).
Proof.
  unfold eat. intros H. bind_inv H.
  apply peek_OK in Hm as [-> ->].
  destruct (peek_at p) as [tok|] eqn:Hpeek; simpl in H;
    [|discriminate].
  destruct (PyStr.nonempty tok) eqn:Hne; simpl in H; [|discriminate].
  destruct value as [v|].
  - destruct (PyStr.nonempty v && negb (String.eqb tok v)) eqn:Hv;
      [discriminate|].
    unfold bind, advance, ret in H. inversion H; subst.
    repeat split; try reflexivity; try assumption.
    intros v' Hv' Hnv. inversion Hv'; subst.
    rewrite Hnv in Hv. simpl in Hv. apply negb_false_iff in Hv.
    now apply String.eqb_eq in Hv.
  - unfold bind, advance, ret in H. inversion H; subst.
    repeat split; try reflexivity; try assumption.
    intros v Hv. discriminate.
Qed.

Lemma digit_val_nonneg (c : ascii) : (0 <= PyStr.digit_val c)%Z.
Proof. unfold PyStr.digit_val. lia. Qed.

Lemma int_go_nonneg (s : string) :
  forall acc, (0 <= acc)%Z -> (0 <= PyStr.int_go acc s)%Z.
Proof.
  induction s as [|c s IH]; intros acc Hacc; cbn [PyStr.int_go];
    [assumption|].
  apply IH. pose proof (digit_val_nonneg c). lia.
Qed.

Section ParserInvariant.
Variable ex : parser node.
Hypothesis ex_parsed :
  forall p e p', ex p = OK (e, p') -> parsed_node e.

Lemma factor_parsed p e p' :
  factor ex p = OK (e, p') -> parsed_node e.
Proof.
  unfold factor. intros H. bind_inv H.
  apply peek_OK in Hm as [-> ->].
  destruct (peek_at p) as [t|]; [|discriminate].
  destruct (PyStr.isdigit t).
  - bind_inv H. unfold PyStr.int in H.
    destruct (PyStr.nonempty t && PyStr.forallb_str PyStr.is_ascii_digit t);
      [|discriminate].
    inversion H; subst. simpl. now apply int_go_nonneg.
  - destruct (matches_ident t) eqn:Hid.
    + bind_inv H. inversion H; subst. exact Hid.
    + destruct (String.eqb t "("); [|discriminate].
      bind_inv H. bind_inv H. bind_inv H. inversion H; subst.
      eapply ex_parsed; eassumption.
Qed.

Lemma binop_loop_parsed ops (operand : parser node) :
  (forall op, PyStr.mem op ops = true ->
              PyStr.mem op PyEval.binary_ops = true) ->
  (forall p e p', operand p = OK (e, p') -> parsed_node e) ->
  forall fuel lhs p e p',
    parsed_node lhs ->
    binop_loop ops operand fuel lhs p = OK (e, p') -> parsed_node e.
Proof.
  intros Hops Hoperand. induction fuel as [|fuel IH];
    intros lhs p e p' Hlhs H; simpl in H; [discriminate|].
  bind_inv H. apply peek_OK in Hm as [-> ->].
  destruct (peek_at p) as [t|] eqn:Hpeek.
  - destruct (PyStr.mem t ops) eqn:Hmem.
    + bind_inv H. bind_inv H.
      apply eat_OK in Hm as [Hop _]. rewrite Hpeek in Hop.
      inversion Hop; subst.
      eapply IH; [|eassumption]. simpl. repeat split.
      * now apply Hops.
      * assumption.
      * eapply Hoperand; eassumption.
    + inversion H; subst. assumption.
  - inversion H; subst. assumption.
Qed.

Lemma term_parsed fuel p e p' :
  term ex fuel p = OK (e, p') -> parsed_node e.
Proof.
  unfold term. intros H. bind_inv H.
  eapply (binop_loop_parsed ["*"; "/"]); [| |  |eassumption].
  - intros op Hop. apply mem_In in Hop. apply mem_In.
    simpl in *. intuition.
  - apply factor_parsed.
  - eapply factor_parsed; eassumption.
Qed.

Lemma expr_body_parsed fuel p e p' :
  expr_body ex fuel p = OK (e, p') -> parsed_node e.
Proof.
  unfold expr_body. intros H. bind_inv H.
  eapply (binop_loop_parsed ["+"; "-"]); [| |  |eassumption].
  - intros op Hop. apply mem_In in Hop. apply mem_In.
    simpl in *. intuition.
  - apply term_parsed.
  - eapply term_parsed; eassumption.
Qed.
End ParserInvariant.

Lemma expr_parsed (fuel : nat) :
  forall p e p', expr fuel p = OK (e, p') -> parsed_node e.
Proof.
  induction fuel as [|fuel IH]; intros p e p' H; simpl in H;
    [discriminate|].
  eapply expr_body_parsed; eassumption.
Qed.

Lemma statement_parsed fuel p s p' :
  statement fuel p = OK (s, p') -> parsed_stmt s.
Proof.
  unfold statement. intros H. bind_inv H.
  apply peek_OK in Hm as [-> ->].
  destruct (match peek_at p with
            | Some t => String.eqb t "let" | None => false end).
  - do 5 bind_inv H. inversion H; subst.
    eapply expr_parsed; eassumption.
  - destruct (match peek_at p with
              | Some t => String.eqb t "print" | None => false end);
      [|discriminate].
    do 5 bind_inv H. inversion H; subst.
    eapply expr_parsed; eassumption.
Qed.

Lemma parse_loop_parsed (fuel : nat) :
  forall ast p ast' p',
    Forall parsed_stmt ast ->
    parse_loop fuel ast p = OK (ast', p') -> Forall parsed_stmt ast'.
Proof.
  induction fuel as [|fuel IH]; intros ast p ast' p' Hast H; simpl in H;
    [discriminate|].
  bind_inv H. apply peek_OK in Hm as [-> ->].
  destruct (truthy (peek_at p)).
  - bind_inv H. eapply IH; [|eassumption].
    apply Forall_app. split; [assumption|].
    constructor; [|constructor]. eapply statement_parsed; eassumption.
  - inversion H; subst. assumption.
Qed.

Lemma parse_parsed (toks : list string) (ast : list stmt) :
  parse toks = OK ast -> Forall parsed_stmt ast.
Proof.
  unfold parse. intros H.
  destruct (parse_loop (S (List.length toks)) [] (mkParser toks 0))
    as [[ast' p'] | e | |] eqn:Hloop; try discriminate.
  inversion H; subst.
  eapply parse_loop_parsed; [|eassumption]. constructor.
Qed.

(* ================================================================== *)
(** * Operand texts of a parsed program *)
(* ================================================================== *)

Lemma ident_start_not_space (c : ascii) :
  PyStr.is_ident_start c = true -> PyStr.is_space c = false.
Proof.
  destruct c as [[] [] [] [] [] [] [] []]; vm_compute; congruence.
Qed.

Lemma matches_ident_head_nonspace (x : string) :
  matches_ident x = true -> head_nonspace x.
Proof.
  destruct x as [|c x]; simpl; [discriminate|].
  apply ident_start_not_space.
Qed.

Lemma string_of_uint_head_nonspace (d : Decimal.uint) :
  head_nonspace (NilZero.string_of_uint d).
Proof. destruct d; reflexivity. Qed.

Lemma str_head_nonspace (n : Z) : head_nonspace (PyStr.str n).
Proof.
  unfold PyStr.str, NilZero.string_of_int.
  destruct (Z.to_int n) as [d | d];
    [apply string_of_uint_head_nonspace | reflexivity].
Qed.

Lemma head_nonspace_append (a b : string) :
  head_nonspace a -> head_nonspace (a +++ b).
Proof. destruct a; simpl; tauto. Qed.

Lemma parsed_node_sat (e : node) :
  parsed_node e -> node_sat head_nonspace (fun _ => True) e.
Proof.
  induction e as [n | x | op l IHl r IHr]; simpl.
  - intros _. apply str_head_nonspace.
  - apply matches_ident_head_nonspace.
  - intros [_ [Hl Hr]]. auto.
Qed.

Lemma parsed_stmt_sat (s : stmt) :
  parsed_stmt s ->
  stmt_sat (fun _ => True) head_nonspace (fun _ => True) s.
Proof.
  destruct s as [name e | e]; unfold parsed_stmt; simpl; intros H.
  - split; [exact I | now apply parsed_node_sat].
  - now apply parsed_node_sat.
Qed.

(** The lines written for a parsed program have one of the three forms,
    and their operand texts do not start with whitespace. *)
Lemma parsed_TAC_shape (toks : list string) (ast : list stmt) (tc : nat) :
  parse toks = OK ast ->
  Forall (tac_shape (fun _ => True) head_nonspace (fun _ => True))
    (fst (generate_TAC ast tc)).
Proof.
  intros Hparse. apply generate_TAC_shape.
  - intros n. reflexivity.
  - apply parse_parsed in Hparse.
    eapply Forall_impl; [|exact Hparse]. apply parsed_stmt_sat.
Qed.

(** The pieces of a line with [ = ] in it: those before the sign, the
    sign, and the pieces of what follows. *)
Lemma split_go_around_eq_sign (a cur b : string) :
  exists before,
    PyStr.split_go cur (a +++ " = " +++ b) =
    before ++ "=" :: PyStr.split b.
Proof.
  revert cur. induction a as [|c a IH]; intros cur.
  - exists (PyStr.flush cur). reflexivity.
  - simpl. destruct (PyStr.is_space c).
    + destruct (IH EmptyString) as [before Hb]. simpl in Hb.
      exists (PyStr.flush cur ++ before). rewrite Hb.
      now rewrite <- app_assoc.
    + apply IH.
Qed.

Lemma shape_two_pieces (line : string) :
  tac_shape (fun _ => True) head_nonspace (fun _ => True) line ->
  exists a b rest, PyStr.split line = a :: b :: rest.
Proof.
  assert (Heq : forall x y, head_nonspace y ->
            exists a b rest, PyStr.split (x +++ " = " +++ y) = a :: b :: rest).
  { intros x y Hy. unfold PyStr.split at 1.
    destruct (split_go_around_eq_sign x EmptyString y) as [before Hb].
    rewrite Hb. destruct (split_head_nonspace y Hy) as [w [rest Hw]].
    rewrite Hw. destruct before as [|u [|v before]]; simpl; eauto. }
  intros [name val _ Hval | n lhs op rhs Hl _ _ | val Hval].
  - now apply Heq.
  - apply Heq. now apply head_nonspace_append.
  - rewrite split_print_line.
    destruct (split_head_nonspace val Hval) as [w [rest Hw]].
    rewrite Hw. eauto.
Qed.

(** For every program the parser accepts, [generate_ASM] returns, and
    returns two instructions for each line of the TAC. *)
Theorem generate_ASM_doubles (toks : list string) (ast : list stmt)
    (tc : nat) :
  parse toks = OK ast ->
  exists asm,
    generate_ASM (fst (generate_TAC ast tc)) = OK asm /\
    List.length asm = 2 * List.length (fst (generate_TAC ast tc)).
Proof.
  intros Hparse. unfold generate_ASM.
  destruct (generate_ASM_from_length (fst (generate_TAC ast tc)) []
              (parsed_TAC_shape toks ast tc Hparse)) as [asm [Hrun Hlen]].
  exists asm. split; [assumption | exact Hlen].
Qed.

(* ================================================================== *)
(** * Print lines in the output simulation *)
(* ================================================================== *)

Lemma split_token (w : string) :
  is_token w = true -> PyStr.split w = [w].
Proof.
  unfold is_token. intros H. apply andb_prop in H as [Hne Hw].
  unfold PyStr.split.
  rewrite <- (append_empty_r w) at 1.
  rewrite (split_go_token w EmptyString EmptyString Hw). simpl.
  now apply flush_nonempty.
Qed.

Lemma exec_print_line memory printed operand :
  is_token operand = true ->
  exec_line ("PRINT " +++ operand) (memory, printed) =
  OK (memory, printed ++ [memory_get memory operand]).
Proof.
  intros Htok. unfold exec_line.
  assert (Hp : PyStr.contains "PRINT" ("PRINT " +++ operand) = true)
    by reflexivity.
  rewrite Hp, andb_false_r, split_print_line, (split_token _ Htok).
  reflexivity.
Qed.

(* ================================================================== *)
(** * Names of temporaries *)
(* ================================================================== *)

Lemma to_uint_nonnil (n : nat) : Nat.to_uint n <> Decimal.Nil.
Proof.
  intros H. pose proof (DecimalNat.Unsigned.of_to n) as Hn.
  rewrite H in Hn. simpl in Hn. subst n. discriminate H.
Qed.

Lemma str_nat_inj (n m : nat) : PyStr.str_nat n = PyStr.str_nat m -> n = m.
Proof.
  unfold PyStr.str_nat. intros H.
  apply (f_equal NilZero.uint_of_string) in H.
  rewrite !NilZero.usu in H by apply to_uint_nonnil.
  inversion H as [H']. now apply DecimalNat.Unsigned.to_uint_inj.
Qed.

Lemma string_of_uint_digits (d : Decimal.uint) :
  PyStr.forallb_str PyStr.is_ascii_digit (NilEmpty.string_of_uint d) = true.
Proof. induction d; simpl; try reflexivity; assumption. Qed.

Lemma NilZero_string_of_uint_digits (d : Decimal.uint) :
  PyEval.is_digits (NilZero.string_of_uint d) = true.
Proof.
  unfold PyEval.is_digits.
  destruct d; try reflexivity; simpl; apply string_of_uint_digits.
Qed.

Lemma str_nat_digits (n : nat) : PyEval.is_digits (PyStr.str_nat n) = true.
Proof. apply NilZero_string_of_uint_digits. Qed.

(** Where two texts of digits are each followed by a space, the digits
    are the same. *)
Lemma digits_before_space (d1 : string) :
  forall d2 r1 r2,
    PyStr.forallb_str PyStr.is_ascii_digit d1 = true ->
    PyStr.forallb_str PyStr.is_ascii_digit d2 = true ->
    d1 +++ String " " r1 = d2 +++ String " " r2 -> d1 = d2.
Proof.
  induction d1 as [|c d1 IH]; intros [|c2 d2] r1 r2 H1 H2 Heq;
    simpl in *.
  - reflexivity.
  - inversion Heq; subst. discriminate H2.
  - inversion Heq; subst. discriminate H1.
  - inversion Heq; subst.
    apply andb_prop in H1 as [_ H1]. apply andb_prop in H2 as [_ H2].
    f_equal. eapply IH; eassumption.
Qed.

Lemma temp_line_inj (n m : nat) (r1 r2 : string) :
  ("t" +++ PyStr.str_nat n) +++ " = " +++ r1 =
  ("t" +++ PyStr.str_nat m) +++ " = " +++ r2 -> n = m.
Proof.
  simpl. intros H. inversion H as [H'].
  apply str_nat_inj.
  pose proof (str_nat_digits n) as Hn. pose proof (str_nat_digits m) as Hm.
  unfold PyEval.is_digits in Hn, Hm.
  apply andb_prop in Hn as [_ Hn]. apply andb_prop in Hm as [_ Hm].
  eapply digits_before_space; eassumption.
Qed.

(* ================================================================== *)
(** * Two runs of the generator on one counter *)
(* ================================================================== *)

Lemma generate_TAC_expr_length (e : node) :
  forall code tc,
    List.length (snd (fst (generate_TAC_expr e code tc))) =
    List.length code + count_binops e.
Proof.
  induction e as [n | x | op l IHl r IHr]; intros code tc; simpl;
    try lia.
  specialize (IHl code tc).
  destruct (generate_TAC_expr l code tc) as [[lhs code1] tc1].
  specialize (IHr code1 tc1).
  destruct (generate_TAC_expr r code1 tc1) as [[rhs code2] tc2].
  simpl in *. rewrite length_app. simpl. lia.
Qed.

(** The lines written for an expression determine the counter they were
    written from, as soon as the expression has an operation. *)
Lemma generate_TAC_expr_inj (e : node) :
  forall code1 code2 c1 c2,
    List.length code1 = List.length code2 ->
    snd (fst (generate_TAC_expr e code1 c1)) =
    snd (fst (generate_TAC_expr e code2 c2)) ->
    code1 = code2 /\ (count_binops e = 0 \/ c1 = c2).
Proof.
  induction e as [n | x | op l IHl r IHr];
    intros code1 code2 c1 c2 Hlen Heq; simpl in *; auto.
  pose proof (generate_TAC_expr_length l code1 c1) as Ll1.
  pose proof (generate_TAC_expr_length l code2 c2) as Ll2.
  pose proof (generate_TAC_expr_counter l code1 c1) as Cl1.
  pose proof (generate_TAC_expr_counter l code2 c2) as Cl2.
  specialize (IHl code1 code2 c1 c2 Hlen).
  destruct (generate_TAC_expr l code1 c1) as [[lhs1 codeA1] tA1].
  destruct (generate_TAC_expr l code2 c2) as [[lhs2 codeA2] tA2].
  simpl in *.
  pose proof (generate_TAC_expr_counter r codeA1 tA1) as Cr1.
  pose proof (generate_TAC_expr_counter r codeA2 tA2) as Cr2.
  specialize (IHr codeA1 codeA2 tA1 tA2).
  destruct (generate_TAC_expr r codeA1 tA1) as [[rhs1 codeB1] tB1].
  destruct (generate_TAC_expr r codeA2 tA2) as [[rhs2 codeB2] tB2].
  simpl in *.
  apply app_inj_tail in Heq as [HB Hline].
  apply temp_line_inj in Hline.
  destruct IHr as [HA _]; [lia | assumption |].
  destruct IHl as [Hcode _]; [assumption|].
  split; [assumption | right; lia].
Qed.

Lemma generate_TAC_from_length (ast : list stmt) :
  forall code tc,
    List.length (fst (generate_TAC_from code ast tc)) =
    List.length code + count_binops_ast ast + List.length ast.
Proof.
  induction ast as [|s ast IH]; intros code tc; simpl; [lia|].
  destruct s as [name e | e]; simpl;
    pose proof (generate_TAC_expr_length e code tc) as H;
    destruct (generate_TAC_expr e code tc) as [[val code1] tc1];
    simpl in H; rewrite IH, length_app; simpl; lia.
Qed.

Lemma generate_TAC_from_inj (ast : list stmt) :
  forall code1 code2 c1 c2,
    List.length code1 = List.length code2 ->
    fst (generate_TAC_from code1 ast c1) =
    fst (generate_TAC_from code2 ast c2) ->
    code1 = code2 /\ (count_binops_ast ast = 0 \/ c1 = c2).
Proof.
  induction ast as [|s ast IH]; intros code1 code2 c1 c2 Hlen Heq;
    simpl in *; auto.
  assert (Hstep : forall (line : string -> string),
    (let '(val, code1', tc1) := generate_TAC_expr (stmt_expr s) code1 c1 in
     fst (generate_TAC_from (code1' ++ [line val]) ast tc1)) =
    (let '(val, code2', tc2) := generate_TAC_expr (stmt_expr s) code2 c2 in
     fst (generate_TAC_from (code2' ++ [line val]) ast tc2)) ->
    code1 = code2 /\
    (count_binops (stmt_expr s) + count_binops_ast ast = 0 \/ c1 = c2)).
  { intros line H.
    pose proof (generate_TAC_expr_length (stmt_expr s) code1 c1) as L1.
    pose proof (generate_TAC_expr_length (stmt_expr s) code2 c2) as L2.
    pose proof (generate_TAC_expr_counter (stmt_expr s) code1 c1) as C1.
    pose proof (generate_TAC_expr_counter (stmt_expr s) code2 c2) as C2.
    pose proof (generate_TAC_expr_inj (stmt_expr s) code1 code2 c1 c2 Hlen)
      as Hinj.
    destruct (generate_TAC_expr (stmt_expr s) code1 c1)
      as [[val1 code1'] tc1].
    destruct (generate_TAC_expr (stmt_expr s) code2 c2)
      as [[val2 code2'] tc2].
    simpl in *.
    apply IH in H; [|rewrite !length_app; simpl; lia].
    destruct H as [Happ Hrest].
    apply app_inj_tail in Happ as [Hcode' _].
    destruct (Hinj Hcode') as [Hcode He].
    split; [assumption|]. lia. }
  destruct s as [name e | e]; simpl in *.
  - apply (Hstep (fun val => name +++ " = " +++ val)).
    destruct (generate_TAC_expr e code1 c1) as [[v1 k1] t1].
    destruct (generate_TAC_expr e code2 c2) as [[v2 k2] t2].
    simpl in *. now rewrite Heq.
  - apply (Hstep (fun val => "PRINT " +++ val)).
    destruct (generate_TAC_expr e code1 c1) as [[v1 k1] t1].
    destruct (generate_TAC_expr e code2 c2) as [[v2 k2] t2].
    simpl in *. now rewrite Heq.
Qed.

(* ================================================================== *)
(** * Texts of plain programs *)
(* ================================================================== *)

Lemma ascii_word_facts (c : ascii) :
  PyEval.is_ascii_word c = true ->
  PyStr.is_space c = false /\ c <> " "%char /\ c <> "="%char.
Proof.
  destruct c as [[] [] [] [] [] [] [] []]; vm_compute;
    intros H; try discriminate H; repeat split; congruence.
Qed.

Lemma digit_is_ascii_word (c : ascii) :
  PyStr.is_ascii_digit c = true -> PyEval.is_ascii_word c = true.
Proof.
  unfold PyEval.is_ascii_word. intros ->. apply orb_true_r.
Qed.

Lemma forallb_str_impl (p q : ascii -> bool) (s : string) :
  (forall c, p c = true -> q c = true) ->
  PyStr.forallb_str p s = true -> PyStr.forallb_str q s = true.
Proof.
  intros Hpq. induction s as [|c s IH]; simpl; [reflexivity|].
  intros H. apply andb_prop in H as [Hc Hs].
  now rewrite (Hpq c Hc), (IH Hs).
Qed.

Lemma is_digits_word_text (s : string) :
  PyEval.is_digits s = true -> word_text s = true.
Proof.
  unfold PyEval.is_digits, word_text. intros H.
  apply andb_prop in H as [-> H]. simpl.
  eapply forallb_str_impl; [apply digit_is_ascii_word | assumption].
Qed.

Lemma ascii_ident_word_text (s : string) :
  PyEval.ascii_ident s = true -> word_text s = true.
Proof.
  destruct s as [|c s]; simpl; [discriminate|]. intros H.
  apply andb_prop in H as [Hc Hs]. unfold word_text. simpl.
  unfold PyEval.is_ascii_word at 1. now rewrite Hc, Hs.
Qed.

Lemma plain_name_ascii_ident (s : string) :
  PyEval.plain_name s = true -> PyEval.ascii_ident s = true.
Proof.
  unfold PyEval.plain_name. intros H.
  repeat (apply andb_prop in H as [H _]). assumption.
Qed.

Lemma plain_operand_word_text (s : string) :
  plain_operand s -> word_text s = true.
Proof.
  intros [H | H].
  - now apply is_digits_word_text.
  - now apply ascii_ident_word_text, plain_name_ascii_ident.
Qed.

Lemma word_text_is_token (s : string) :
  word_text s = true -> is_token s = true.
Proof.
  unfold word_text, is_token. intros H.
  apply andb_prop in H as [-> H]. simpl.
  eapply forallb_str_impl; [|exact H].
  intros c Hc. apply ascii_word_facts in Hc as [-> _]. reflexivity.
Qed.

Lemma word_text_head_nonspace (s : string) :
  word_text s = true -> head_nonspace s.
Proof.
  destruct s as [|c s]; unfold word_text; simpl; [discriminate|].
  intros H. apply andb_prop in H as [Hc _].
  now apply ascii_word_facts in Hc as [-> _].
Qed.

(** A temporary is a plain name: [t] followed by digits is an identifier
    and is neither reserved nor bound in [builtins]. *)
Lemma temp_plain_name (n : nat) :
  PyEval.plain_name ("t" +++ PyStr.str_nat n) = true.
Proof.
  pose proof (str_nat_digits n) as Hd.
  destruct (PyStr.str_nat n) as [|c d]; [discriminate Hd|].
  unfold PyEval.is_digits in Hd. simpl in Hd.
  apply andb_prop in Hd as [Hc Hd].
  assert (Hw : PyStr.forallb_str PyEval.is_ascii_word d = true)
    by (eapply forallb_str_impl; [apply digit_is_ascii_word | exact Hd]).
  unfold PyEval.plain_name.
  destruct c as [[] [] [] [] [] [] [] []]; try discriminate Hc;
    cbn; rewrite Hw; reflexivity.
Qed.

(* ================================================================== *)
(** * [in] and [split(sep)] on the lines of a plain program *)
(* ================================================================== *)

Lemma contains_eq_sign (a b : string) :
  PyStr.contains "=" (a +++ " = " +++ b) = true.
Proof.
  induction a as [|c a IH].
  - reflexivity.
  - simpl in *. rewrite IH. apply orb_true_r.
Qed.

Lemma word_text_no_space (s : string) :
  word_text s = true -> no_space s = true.
Proof.
  unfold word_text, no_space. intros H. apply andb_prop in H as [_ H].
  eapply forallb_str_impl; [|exact H].
  intros c Hc. apply ascii_word_facts in Hc as [_ [Hc _]].
  apply negb_true_iff. now apply Ascii.eqb_neq.
Qed.

Lemma prefix_cons (a b : ascii) (s1 s2 : string) :
  prefix (String a s1) (String b s2) = Ascii.eqb a b && prefix s1 s2.
Proof.
  cbn [prefix]. destruct (ascii_dec a b) as [-> | Hne].
  - now rewrite Ascii.eqb_refl.
  - apply Ascii.eqb_neq in Hne. now rewrite Hne.
Qed.

Lemma prefix_space_sep (sep' : string) (c : ascii) (s : string) :
  Ascii.eqb c " " = false -> prefix (String " " sep') (String c s) = false.
Proof.
  intros Hc. rewrite prefix_cons, Ascii.eqb_sym, Hc. reflexivity.
Qed.

(** Characters other than a space are added to the pending piece,
    whatever separator starts with a space. *)
Lemma split_sep_go_word (sep' w cur rest : string) :
  no_space w = true ->
  PyStr.split_sep_go (String " " sep') 0 cur (w +++ rest) =
  PyStr.split_sep_go (String " " sep') 0 (cur +++ w) rest.
Proof.
  revert cur. induction w as [|c w IH]; intros cur Hw.
  - simpl. now rewrite append_empty_r.
  - simpl in Hw. apply andb_prop in Hw as [Hc Hw].
    apply negb_true_iff in Hc.
    cbn [append PyStr.split_sep_go].
    rewrite (prefix_space_sep sep' c _ Hc), (IH _ Hw).
    now rewrite append_assoc.
Qed.

Lemma prefix_empty (s : string) : prefix EmptyString s = true.
Proof. destruct s; reflexivity. Qed.

(** Unfolds [split_sep_go] along the characters that are known and
    decides the comparisons of known characters. *)
Ltac sep_simpl :=
  repeat (cbn [PyStr.split_sep_go append String.length Nat.sub andb];
          rewrite ?prefix_cons, ?prefix_empty;
          repeat match goal with
                 | |- context [Ascii.eqb ?a ?b] =>
                     let v := eval vm_compute in (Ascii.eqb a b) in
                     match v with
                     | true => change (Ascii.eqb a b) with true
                     | false => change (Ascii.eqb a b) with false
                     end
                 end).

Lemma split_sep_go_last_word (sep' w cur : string) :
  no_space w = true ->
  PyStr.split_sep_go (String " " sep') 0 cur w = [cur +++ w].
Proof.
  intros Hw. rewrite <- (append_empty_r w) at 1.
  now rewrite split_sep_go_word.
Qed.

Lemma split_sep_space_word (w : string) :
  word_text w = true -> PyStr.split_sep " " w = [w].
Proof.
  intros Hw. unfold PyStr.split_sep.
  now rewrite split_sep_go_last_word by now apply word_text_no_space.
Qed.

Lemma split_sep_space_binary (lhs op rhs : string) :
  word_text lhs = true -> plain_op op -> word_text rhs = true ->
  PyStr.split_sep " " (lhs +++ " " +++ op +++ " " +++ rhs) = [lhs; op; rhs].
Proof.
  intros Hl Hop Hr. unfold PyStr.split_sep.
  rewrite split_sep_go_word by now apply word_text_no_space.
  apply word_text_no_space in Hr.
  apply mem_In in Hop.
  destruct Hop as [<- | [<- | [<- | []]]]; sep_simpl;
    now rewrite split_sep_go_last_word.
Qed.

(** A word does not start with the [=] of the separator. *)
Lemma prefix_sep_word (w : string) :
  word_text w = true -> prefix "= " w = false.
Proof.
  destruct w as [|c w]; unfold word_text; [discriminate|].
  cbn [PyStr.nonempty PyStr.forallb_str andb].
  intros H. apply andb_prop in H as [Hc _].
  apply ascii_word_facts in Hc as [_ [_ Hc]].
  apply not_eq_sym, Ascii.eqb_neq in Hc.
  rewrite !prefix_cons, Hc. reflexivity.
Qed.

Lemma split_sep_eq_word (name val : string) :
  word_text name = true -> word_text val = true ->
  PyStr.split_sep " = " (name +++ " = " +++ val) = [name; val].
Proof.
  intros Hn Hv. unfold PyStr.split_sep.
  rewrite split_sep_go_word by now apply word_text_no_space.
  apply word_text_no_space in Hv.
  sep_simpl. now rewrite split_sep_go_last_word.
Qed.

Lemma split_sep_eq_binary (name lhs op rhs : string) :
  word_text name = true -> word_text lhs = true -> plain_op op ->
  word_text rhs = true ->
  PyStr.split_sep " = " (name +++ " = " +++ lhs +++ " " +++ op +++ " " +++ rhs)
  = [name; lhs +++ " " +++ op +++ " " +++ rhs].
Proof.
  intros Hn Hl Hop Hr. unfold PyStr.split_sep.
  rewrite split_sep_go_word by now apply word_text_no_space.
  pose proof (prefix_sep_word rhs Hr) as Hpre.
  apply word_text_no_space in Hl, Hr.
  apply mem_In in Hop.
  destruct Hop as [<- | [<- | [<- | []]]]; sep_simpl;
    rewrite split_sep_go_word by assumption; sep_simpl;
    rewrite Hpre, split_sep_go_last_word by assumption;
    now rewrite !append_assoc.
Qed.

(* ================================================================== *)
(** * Evaluation on a memory of integers *)
(* ================================================================== *)

Lemma dict_get_all_int memory k v :
  memory_all_int memory = true -> dict_get memory k = Some v ->
  is_int v = true.
Proof.
  induction memory as [|[k' v'] memory IH]; simpl; [discriminate|].
  intros Hall Hget. apply andb_prop in Hall as [Hv Hrest].
  destruct (String.eqb k k').
  - inversion Hget; subst. assumption.
  - now apply IH.
Qed.

Lemma dict_set_all_int memory k v :
  memory_all_int memory = true -> is_int v = true ->
  memory_all_int (dict_set memory k v) = true.
Proof.
  intros Hall Hv. induction memory as [|[k' v'] memory IH]; simpl.
  - now rewrite Hv.
  - simpl in Hall. apply andb_prop in Hall as [Hv' Hrest].
    destruct (String.eqb k k'); simpl.
    + now rewrite Hv, Hrest.
    + now rewrite Hv', IH.
Qed.

Lemma memory_get_all_int memory k :
  memory_all_int memory = true -> is_int (memory_get memory k) = true.
Proof.
  intros Hall. unfold memory_get.
  destruct (dict_get memory k) as [v|] eqn:Hget; [|reflexivity].
  eapply dict_get_all_int; eassumption.
Qed.

Lemma eval_literal_int_or_raise (s : string) :
  int_or_raise (PyEval.eval_literal s).
Proof.
  unfold PyEval.eval_literal.
  destruct (negb (prefix "0" s) || PyStr.forallb_str PyEval.is_zero_char s);
    [left | right]; eauto.
Qed.

Lemma eval_name_plain memory name :
  PyEval.plain_name name = true -> memory_all_int memory = true ->
  int_or_raise (PyEval.eval_name memory name).
Proof.
  unfold PyEval.plain_name, PyEval.eval_name. intros Hp Hall.
  apply andb_prop in Hp as [Hp Hvar]. apply andb_prop in Hp as [Hp Hbi].
  apply andb_prop in Hp as [Hp Hdu]. apply andb_prop in Hp as [Hid Hkw].
  apply negb_true_iff in Hvar, Hbi, Hdu, Hkw.
  rewrite Hid, Hkw, Hdu. cbn [negb orb].
  destruct (dict_get memory name) as [v|] eqn:Hget.
  - pose proof (dict_get_all_int _ _ _ Hall Hget) as Hv.
    destruct v; try discriminate Hv. left; eauto.
  - rewrite Hbi, Hvar. right; eauto.
Qed.

Lemma eval_operand_plain memory s :
  plain_operand s -> memory_all_int memory = true ->
  int_or_raise (PyEval.eval_operand memory s).
Proof.
  intros Hs Hall. unfold PyEval.eval_operand.
  destruct (PyEval.is_digits s) eqn:Hd.
  - apply eval_literal_int_or_raise.
  - destruct Hs as [Hs | Hs]; [congruence|].
    now apply eval_name_plain.
Qed.

Lemma int_arith_plain op x y :
  plain_op op -> exists z, PyEval.int_arith op x y = OK (VInt z).
Proof.
  intros Hop. apply mem_In in Hop.
  destruct Hop as [<- | [<- | [<- | []]]]; cbn; eauto.
Qed.

Lemma plain_op_binary op :
  plain_op op -> PyStr.mem op PyEval.binary_ops = true.
Proof.
  intros Hop. apply mem_In in Hop. apply mem_In.
  simpl in *. intuition.
Qed.

Lemma eval_plain_operand memory s :
  plain_operand s -> memory_all_int memory = true ->
  int_or_raise (PyEval.eval s memory).
Proof.
  intros Hs Hall. unfold PyEval.eval.
  rewrite split_sep_space_word by now apply plain_operand_word_text.
  now apply eval_operand_plain.
Qed.

Lemma eval_plain_binary memory lhs op rhs :
  plain_operand lhs -> plain_op op -> plain_operand rhs ->
  memory_all_int memory = true ->
  int_or_raise (PyEval.eval (lhs +++ " " +++ op +++ " " +++ rhs) memory).
Proof.
  intros Hl Hop Hr Hall. unfold PyEval.eval.
  rewrite split_sep_space_binary
    by (try apply plain_operand_word_text; assumption).
  rewrite (plain_op_binary op Hop). cbn [negb].
  destruct (eval_operand_plain memory lhs Hl Hall) as [[x ->] | [e ->]];
    destruct (eval_operand_plain memory rhs Hr Hall) as [[y ->] | [e' ->]].
  - unfold PyEval.arith. rewrite (plain_op_binary op Hop). cbn [negb].
    destruct (int_arith_plain op x y Hop) as [z ->]. left; eauto.
  - right. destruct e'; eauto.
  - right. destruct e; eauto.
  - right. destruct e; destruct e'; eauto.
Qed.

(* ================================================================== *)
(** * The simulation on a plain program *)
(* ================================================================== *)

Lemma tac_shape_impl (Pt Po Pop Qt Qo Qop : string -> Prop) line :
  (forall s, Pt s -> Qt s) -> (forall s, Po s -> Qo s) ->
  (forall s, Pop s -> Qop s) ->
  tac_shape Pt Po Pop line -> tac_shape Qt Qo Qop line.
Proof.
  intros Ht Ho Hop [name val Hn Hv | n lhs op rhs Hl Hp Hr | val Hv].
  - apply shape_assign; auto.
  - apply shape_compute; auto.
  - apply shape_print; auto.
Qed.

Lemma plain_shape_two_pieces line :
  tac_shape plain_target plain_operand plain_op line ->
  exists a b rest, PyStr.split line = a :: b :: rest.
Proof.
  intros H. apply shape_two_pieces.
  eapply tac_shape_impl; [| | |exact H]; auto.
  intros s Hs. now apply word_text_head_nonspace, plain_operand_word_text.
Qed.

Lemma all_int_snoc printed v :
  all_int printed = true -> is_int v = true ->
  all_int (printed ++ [v]) = true.
Proof.
  intros Hp Hv. unfold all_int. rewrite forallb_app. simpl.
  unfold all_int in Hp. now rewrite Hp, Hv.
Qed.

(** A line [dest = rhs] either is taken for a print line, because [PRINT]
    occurs in it, or stores the value of [rhs], zero if [eval] raises. *)
Lemma exec_store_line dest rhs st :
  (exists a b rest, PyStr.split (dest +++ " = " +++ rhs) = a :: b :: rest) ->
  PyStr.split_sep " = " (dest +++ " = " +++ rhs) = [dest; rhs] ->
  int_or_raise (PyEval.eval rhs (fst st)) ->
  ints_only st ->
  exists st', exec_line (dest +++ " = " +++ rhs) st = OK st' /\ ints_only st'.
Proof.
  intros [a [b [rest Hpieces]]] Hsep Heval [Hmem Hout].
  destruct st as [memory printed]. simpl in Heval, Hmem, Hout.
  unfold exec_line. rewrite contains_eq_sign.
  destruct (PyStr.contains "PRINT" (dest +++ " = " +++ rhs)); cbn [negb andb].
  - rewrite Hpieces. cbn [nth_error]. eexists. split; [reflexivity|].
    split; [assumption|]. apply all_int_snoc; [assumption|].
    now apply memory_get_all_int.
  - rewrite Hsep.
    destruct Heval as [[z ->] | [e ->]]; eexists; (split; [reflexivity|]);
      (split; [now apply dict_set_all_int | assumption]).
Qed.

Lemma exec_plain_line line st :
  tac_shape plain_target plain_operand plain_op line -> ints_only st ->
  exists st', exec_line line st = OK st' /\ ints_only st'.
Proof.
  intros Hshape Hst. pose proof (plain_shape_two_pieces line Hshape) as H2.
  destruct Hshape as [name val Hn Hv | n lhs op rhs Hl Hop Hr | val Hv].
  - apply exec_store_line; try assumption.
    + apply split_sep_eq_word.
      * now apply ascii_ident_word_text, plain_name_ascii_ident.
      * now apply plain_operand_word_text.
    + apply eval_plain_operand; [assumption | apply Hst].
  - apply exec_store_line; try assumption.
    + apply split_sep_eq_binary; try assumption.
      * apply ascii_ident_word_text, plain_name_ascii_ident,
          temp_plain_name.
      * now apply plain_operand_word_text.
      * now apply plain_operand_word_text.
    + apply eval_plain_binary; try assumption. apply Hst.
  - destruct st as [memory printed]. destruct Hst as [Hmem Hout].
    rewrite exec_print_line
      by now apply word_text_is_token, plain_operand_word_text.
    eexists. split; [reflexivity|]. split; [assumption|].
    apply all_int_snoc; [assumption | now apply memory_get_all_int].
Qed.

Lemma run_from_plain (tac : list string) :
  forall st,
    Forall (tac_shape plain_target plain_operand plain_op) tac ->
    ints_only st ->
    exists st', run_from st tac = OK st' /\ ints_only st'.
Proof.
  induction tac as [|line tac IH]; intros st Hall Hst; simpl.
  - eauto.
  - inversion Hall as [|l t Hline Htac]; subst.
    destruct (exec_plain_line line st Hline Hst) as [st1 [Hexec Hst1]].
    rewrite Hexec. now apply IH.
Qed.

Lemma str_nonneg_digits (n : Z) :
  (0 <= n)%Z -> PyEval.is_digits (PyStr.str n) = true.
Proof.
  intros Hn. unfold PyStr.str, NilZero.string_of_int.
  destruct n as [|p|p]; try lia; simpl Z.to_int;
    apply NilZero_string_of_uint_digits.
Qed.

Lemma plain_node_sat (e : node) :
  plain_node e = true -> node_sat plain_operand plain_op e.
Proof.
  induction e as [n | x | op l IHl r IHr]; simpl; intros H.
  - left. apply str_nonneg_digits. now apply Z.leb_le.
  - now right.
  - apply andb_prop in H as [H Hr]. apply andb_prop in H as [Hop Hl].
    repeat split; auto.
Qed.

Lemma plain_program_sat (ast : list stmt) :
  plain_program ast = true ->
  Forall (stmt_sat plain_target plain_operand plain_op) ast.
Proof.
  unfold plain_program. rewrite forallb_forall. intros H.
  apply Forall_forall. intros s Hs. specialize (H s Hs).
  destruct s as [name e | e]; simpl in *.
  - apply andb_prop in H as [Hn He]. split; [exact Hn|].
    now apply plain_node_sat.
  - now apply plain_node_sat.
Qed.

Lemma plain_TAC_shape (ast : list stmt) (tc : nat) :
  plain_program ast = true ->
  Forall (tac_shape plain_target plain_operand plain_op)
    (fst (generate_TAC ast tc)).
Proof.
  intros H. apply generate_TAC_shape.
  - intros n. right. apply temp_plain_name.
  - now apply plain_program_sat.
Qed.

(* ================================================================== *)
(** * The parser always returns or raises *)
(* ================================================================== *)

Lemma eat_consumes value : consumes (eat value).
Proof.
  intros p t p' H. apply eat_OK in H as [Hpeek [_ [-> _]]].
  unfold remaining, peek_at in *. simpl. split; [reflexivity|].
  assert (pos p < List.length (tokens p))
    by (apply nth_error_Some; congruence).
  lia.
Qed.

Lemma eat_settled value p : settled (eat value p).
Proof.
  unfold eat, bind, peek. destruct (truthy (peek_at p)); simpl; [|exact I].
  destruct value as [v|]; [|exact I].
  destruct (PyStr.nonempty v && negb (String.eqb _ v)); exact I.
Qed.

Lemma bind_settled {A B} (m : parser A) (k : A -> parser B) p :
  settled (m p) ->
  (forall a p', m p = OK (a, p') -> settled (k a p')) ->
  settled (bind m k p).
Proof.
  unfold bind. intros Hm Hk.
  destruct (m p) as [[a p'] | e | |]; simpl in *; auto.
Qed.

Lemma bind_consumes_l {A B} (m : parser A) (k : A -> parser B) :
  consumes m ->
  (forall a p1 b p2, k a p1 = OK (b, p2) ->
                     tokens p2 = tokens p1 /\ remaining p2 <= remaining p1) ->
  consumes (bind m k).
Proof.
  intros Hm Hk p b p2 H. bind_inv H.
  apply Hm in Hm0 as [Ht Hr]. apply Hk in H as [Ht' Hr'].
  split; [congruence | lia].
Qed.

Section ParserProgress.
Variable ex : parser node.
Variable bound : nat.
Hypothesis ex_consumes : consumes ex.
Hypothesis ex_settled : forall p, remaining p < bound -> settled (ex p).

Lemma factor_consumes : consumes (factor ex).
Proof.
  intros p e p' H. unfold factor in H. bind_inv H.
  apply peek_OK in Hm as [-> ->].
  destruct (peek_at p) as [t|]; [|discriminate].
  destruct (PyStr.isdigit t).
  - bind_inv H. apply eat_consumes in Hm as [Ht Hr].
    destruct (PyStr.int t); [|discriminate]. inversion H; subst. auto.
  - destruct (matches_ident t).
    + bind_inv H. apply eat_consumes in Hm as [Ht Hr].
      inversion H; subst. auto.
    + destruct (String.eqb t "("); [|discriminate].
      bind_inv H. bind_inv H. bind_inv H. inversion H; subst.
      apply eat_consumes in Hm as [Ht1 Hr1].
      apply ex_consumes in Hm0 as [Ht2 Hr2].
      apply eat_consumes in Hm1 as [Ht3 Hr3].
      split; [congruence | lia].
Qed.

Lemma factor_settled p :
  remaining p < S bound -> settled (factor ex p).
Proof.
  intros Hrem. unfold factor.
  apply bind_settled; [exact I|]. intros tok p0 Hpeek.
  apply peek_OK in Hpeek as [-> ->].
  destruct (peek_at p) as [t|]; [|exact I].
  destruct (PyStr.isdigit t).
  - apply bind_settled; [apply eat_settled|]. intros ? p1 _.
    destruct (PyStr.int t); exact I.
  - destruct (matches_ident t).
    + apply bind_settled; [apply eat_settled|]. intros; exact I.
    + destruct (String.eqb t "("); [|exact I].
      apply bind_settled; [apply eat_settled|]. intros ? p1 Heat.
      apply eat_consumes in Heat as [_ Hr1].
      apply bind_settled; [apply ex_settled; lia|]. intros n p2 _.
      apply bind_settled; [apply eat_settled|]. intros; exact I.
Qed.

(** The loop of [expr] and [term] around an operand that moves the
    cursor: it does not move the cursor back, and a fuel above the
    number of remaining tokens is enough. *)
Lemma binop_loop_keeps ops (operand : parser node) :
  consumes operand ->
  forall fuel lhs p e p',
    binop_loop ops operand fuel lhs p = OK (e, p') ->
    tokens p' = tokens p /\ remaining p' <= remaining p.
Proof.
  intros Hop. induction fuel as [|fuel IH]; intros lhs p e p' H;
    simpl in H; [discriminate|].
  bind_inv H. apply peek_OK in Hm as [-> ->].
  destruct (peek_at p) as [t|].
  - destruct (PyStr.mem t ops).
    + bind_inv H. bind_inv H.
      apply eat_consumes in Hm as [Ht1 Hr1].
      apply Hop in Hm0 as [Ht2 Hr2].
      apply IH in H as [Ht3 Hr3]. split; [congruence | lia].
    + inversion H; subst. auto.
  - inversion H; subst. auto.
Qed.

Lemma binop_loop_settled ops (operand : parser node) (limit : nat) :
  consumes operand ->
  (forall p, remaining p < limit -> settled (operand p)) ->
  forall fuel lhs p,
    remaining p < fuel -> remaining p <= limit ->
    settled (binop_loop ops operand fuel lhs p).
Proof.
  intros Hop Hset. induction fuel as [|fuel IH]; intros lhs p Hfuel Hlim;
    [lia|]. simpl.
  apply bind_settled; [exact I|]. intros tok p0 Hpeek.
  apply peek_OK in Hpeek as [-> ->].
  destruct (peek_at p) as [t|]; [|exact I].
  destruct (PyStr.mem t ops); [|exact I].
  apply bind_settled; [apply eat_settled|]. intros op p1 Heat.
  apply eat_consumes in Heat as [_ Hr1].
  apply bind_settled; [apply Hset; lia|]. intros rhs p2 Hrhs.
  apply Hop in Hrhs as [_ Hr2]. apply IH; lia.
Qed.

Lemma term_consumes fuel : consumes (term ex fuel).
Proof.
  unfold term. apply bind_consumes_l; [apply factor_consumes|].
  intros n p1 e p2 H.
  eapply binop_loop_keeps; [apply factor_consumes | exact H].
Qed.

Lemma term_settled fuel p :
  remaining p < S bound -> remaining p < fuel ->
  settled (term ex fuel p).
Proof.
  intros Hb Hf. unfold term.
  apply bind_settled; [now apply factor_settled|]. intros n p1 Hn.
  apply factor_consumes in Hn as [_ Hr].
  apply (binop_loop_settled _ _ (S bound));
    [apply factor_consumes | apply factor_settled | lia | lia].
Qed.

Lemma expr_body_consumes fuel : consumes (expr_body ex fuel).
Proof.
  unfold expr_body. apply bind_consumes_l; [apply term_consumes|].
  intros n p1 e p2 H.
  eapply binop_loop_keeps; [apply term_consumes | exact H].
Qed.

Lemma expr_body_settled fuel p :
  remaining p < S bound -> remaining p < fuel ->
  settled (expr_body ex fuel p).
Proof.
  intros Hb Hf. unfold expr_body.
  apply bind_settled; [now apply term_settled|]. intros n p1 Hn.
  apply term_consumes in Hn as [_ Hr].
  apply (binop_loop_settled _ _ (Nat.min (S bound) fuel));
    [apply term_consumes | | lia | lia].
  intros q Hq. apply term_settled; lia.
Qed.
End ParserProgress.

Lemma expr_progress (fuel : nat) :
  consumes (expr fuel) /\
  (forall p, remaining p < fuel -> settled (expr fuel p)).
Proof.
  induction fuel as [|fuel [IHc IHs]].
  - split; [intros p a p' H; discriminate H | intros p Hp; lia].
  - split.
    + apply expr_body_consumes. exact IHc.
    + intros p Hp. simpl.
      apply (expr_body_settled (expr fuel) fuel IHc IHs); lia.
Qed.

Lemma statement_consumes fuel : consumes (statement fuel).
Proof.
  intros p s p' H. unfold statement in H. bind_inv H.
  apply peek_OK in Hm as [-> ->].
  destruct (match peek_at p with
            | Some t => String.eqb t "let" | None => false end).
  - do 5 bind_inv H. inversion H; subst.
    apply eat_consumes in Hm as [? ?], Hm0 as [? ?], Hm1 as [? ?],
      Hm3 as [? ?].
    apply (proj1 (expr_progress fuel)) in Hm2 as [? ?].
    split; [congruence | lia].
  - destruct (match peek_at p with
              | Some t => String.eqb t "print" | None => false end);
      [|discriminate].
    do 5 bind_inv H. inversion H; subst.
    apply eat_consumes in Hm as [? ?], Hm0 as [? ?], Hm2 as [? ?],
      Hm3 as [? ?].
    apply (proj1 (expr_progress fuel)) in Hm1 as [? ?].
    split; [congruence | lia].
Qed.

Lemma statement_settled fuel p :
  remaining p < fuel -> settled (statement fuel p).
Proof.
  intros Hp. unfold statement.
  apply bind_settled; [exact I|]. intros tok p0 Hpeek.
  apply peek_OK in Hpeek as [-> ->].
  destruct (match peek_at p with
            | Some t => String.eqb t "let" | None => false end).
  - apply bind_settled; [apply eat_settled|]. intros ? p1 H1.
    apply eat_consumes in H1 as [_ H1].
    apply bind_settled; [apply eat_settled|]. intros name p2 H2.
    apply eat_consumes in H2 as [_ H2].
    apply bind_settled; [apply eat_settled|]. intros ? p3 H3.
    apply eat_consumes in H3 as [_ H3].
    apply bind_settled; [apply (proj2 (expr_progress fuel)); lia|].
    intros e p4 _.
    apply bind_settled; [apply eat_settled|]. intros; exact I.
  - destruct (match peek_at p with
              | Some t => String.eqb t "print" | None => false end);
      [|exact I].
    apply bind_settled; [apply eat_settled|]. intros ? p1 H1.
    apply eat_consumes in H1 as [_ H1].
    apply bind_settled; [apply eat_settled|]. intros ? p2 H2.
    apply eat_consumes in H2 as [_ H2].
    apply bind_settled; [apply (proj2 (expr_progress fuel)); lia|].
    intros e p3 _.
    apply bind_settled; [apply eat_settled|]. intros ? p4 _.
    apply bind_settled; [apply eat_settled|]. intros; exact I.
Qed.

Lemma parse_loop_settled (fuel : nat) :
  forall ast p, remaining p < fuel -> settled (parse_loop fuel ast p).
Proof.
  induction fuel as [|fuel IH]; intros ast p Hp; [lia|]. simpl.
  apply bind_settled; [exact I|]. intros tok p0 Hpeek.
  apply peek_OK in Hpeek as [-> ->].
  destruct (truthy (peek_at p)); [|exact I].
  apply bind_settled; [now apply statement_settled|]. intros s p1 Hs.
  apply statement_consumes in Hs as [_ Hr]. apply IH. lia.
Qed.

(** [parse] returns a tree or raises, on every list of tokens: the bound
    on the recursion of the model is never reached. *)
Theorem parse_total (toks : list string) : settled (parse toks).
Proof.
  unfold parse.
  assert (Hr : remaining (mkParser toks 0) < S (List.length toks))
    by (unfold remaining; simpl; lia).
  pose proof (parse_loop_settled _ [] _ Hr) as H.
  destruct (parse_loop (S (List.length toks)) [] (mkParser toks 0))
    as [[ast p] | e | |]; exact H.
Qed.

(* ================================================================== *)
(** * The fuel of the lexer *)
(* ================================================================== *)

Lemma span_length (p : ascii -> bool) (s : string) :
  String.length (snd (span p s)) <= String.length s.
Proof.
  induction s as [|c s IH]; simpl; [lia|].
  destruct (p c); [|simpl; lia].
  destruct (span p s) as [w r]. simpl in *. lia.
Qed.

Lemma match_token_shorter (s tok rest : string) :
  match_token s = Some (tok, rest) -> String.length rest < String.length s.
Proof.
  destruct s as [|c r]; [discriminate|]. unfold match_token. cbv zeta.
  set (one := if PyStr.mem (String c EmptyString) one_char_ops
              then Some (String c EmptyString, r) else None).
  assert (Hone : one = Some (tok, rest) ->
                 String.length rest < String.length (String c r)).
  { unfold one.
    destruct (PyStr.mem (String c EmptyString) one_char_ops);
      [|discriminate]. intros E. inversion E; subst. simpl. lia. }
  destruct (PyStr.is_ident_start c).
  - pose proof (span_length PyStr.is_word r) as H.
    destruct (span PyStr.is_word r) as [w r']. intros E.
    inversion E; subst. simpl in *. lia.
  - destruct (PyStr.is_ascii_digit c).
    + pose proof (span_length PyStr.is_ascii_digit r) as H.
      destruct (span PyStr.is_ascii_digit r) as [w r']. intros E.
      inversion E; subst. simpl in *. lia.
    + clearbody one. destruct r as [|d r']; [exact Hone|].
      destruct (PyStr.mem (String c (String d EmptyString)) two_char_ops);
        [|exact Hone].
      intros E. inversion E; subst. simpl. lia.
Qed.

(** Any fuel that is at least the length of the text gives the same
    tokens: the fuel [tokenize] passes is enough. *)
Lemma findall_fuel (f1 : nat) :
  forall f2 s,
    String.length s <= f1 -> String.length s <= f2 ->
    findall f1 s = findall f2 s.
Proof.
  induction f1 as [|f1 IH]; intros f2 s H1 H2.
  - destruct s; [|simpl in H1; lia]. destruct f2; reflexivity.
  - destruct f2 as [|f2].
    + destruct s; [reflexivity | simpl in H2; lia].
    + destruct s as [|c s]; [reflexivity|].
      cbn [findall]. simpl in H1, H2.
      destruct (match_token (String c s)) as [[tok rest]|] eqn:Hm.
      * apply match_token_shorter in Hm. simpl in Hm.
        f_equal. apply IH; lia.
      * apply IH; lia.
Qed.

(* ================================================================== *)
(** * The statements about the program *)
(* ================================================================== *)

(** C1. At the end of the tokens [factor] calls [isdigit] on [None]: the
    tokens of [let x =] make [parse] raise AttributeError, which is not a
    SyntaxError, although [eat] reports the end of the input as one. *)
Theorem C1_factor_end_of_input_attribute_error :
  tokenize "let x =" = ["let"; "x"; "="] /\
  parse ["let"; "x"; "="] =
    Raise (AttributeError "'NoneType' object has no attribute 'isdigit'") /\
  is_syntax_error (parse (tokenize "let x =")) = false /\
  parse (tokenize "print(x)") = Raise (SyntaxError "Unexpected end of input").
Proof. repeat split; vm_compute; reflexivity. Qed.

(** C2, as the claim states it, fails: two calls of [generate_TAC] on one
    AST in a process whose counter starts at 0 write [t1] and then [t2]. *)
Lemma C2_second_run_differs :
  ~ (forall ast,
       fst (generate_TAC_twice ast 0) = snd (generate_TAC_twice ast 0)).
Proof.
  intros H.
  specialize (H [Assign "x" (BinOp "+" (Num 2) (Num 3))]).
  vm_compute in H. discriminate H.
Qed.

(** C2, amended. A call of [generate_TAC] leaves the counter advanced by
    the number of binary operations of the AST, so the second of two calls
    in one process writes what a call from that advanced counter writes;
    the two sequences are the same exactly when the AST has no binary
    operation. *)
Theorem C2_second_run_continues_numbering (ast : list stmt) (tc : nat) :
  snd (generate_TAC ast tc) = tc + count_binops_ast ast /\
  generate_TAC_twice ast tc =
    (fst (generate_TAC ast tc),
     fst (generate_TAC ast (tc + count_binops_ast ast))) /\
  (fst (generate_TAC_twice ast tc) = snd (generate_TAC_twice ast tc) <->
   count_binops_ast ast = 0).
Proof.
  assert (Hc : snd (generate_TAC ast tc) = tc + count_binops_ast ast)
    by apply generate_TAC_from_counter.
  assert (Htwice : generate_TAC_twice ast tc =
            (fst (generate_TAC ast tc),
             fst (generate_TAC ast (tc + count_binops_ast ast)))).
  { unfold generate_TAC_twice.
    destruct (generate_TAC ast tc) as [first tc1] eqn:H1. simpl in Hc.
    subst tc1.
    now destruct (generate_TAC ast (tc + count_binops_ast ast)). }
  repeat split; try assumption.
  - rewrite Htwice. simpl. intros Heq.
    apply generate_TAC_from_inj in Heq as [_ [H0 | H0]];
      [assumption | lia | reflexivity].
  - rewrite Htwice. simpl. intros ->. now rewrite Nat.add_0_r.
Qed.

(** C3, as the claim states it, fails: [/] is the true division of Python,
    and [let x = 5 / 2; print(x);] stores and prints the float 2.5. *)
Lemma C3_division_stores_a_float :
  exists c,
    main "let x = 5 / 2; print(x);" = OK c /\
    c_memory c = [("t1", VFloat float_2_5); ("x", VFloat float_2_5)] /\
    c_printed c = [VFloat float_2_5] /\
    memory_all_int (c_memory c) = false /\
    all_int (c_printed c) = false.
Proof. eexists. repeat split; vm_compute; reflexivity. Qed.

(** C3, amended. For every source text that parses into a program without
    [/] whose identifiers are plain names, [main] returns, every value of
    the final memory is an [int] and every printed value is an [int]. *)
Theorem C3_plain_programs_compute_integers (code : string)
    (ast : list stmt) :
  parse (tokenize code) = OK ast ->
  plain_program ast = true ->
  exists c,
    main code = OK c /\ c_ast c = ast /\
    memory_all_int (c_memory c) = true /\ all_int (c_printed c) = true.
Proof.
  intros Hparse Hplain. unfold main, main_from. rewrite Hparse.
  cbn [lift].
  destruct (generate_ASM_doubles _ _ 0 Hparse) as [asm [Hasm _]].
  rewrite Hasm. cbn [lift]. unfold run.
  destruct (run_from_plain (fst (generate_TAC ast 0)) ([], [])
              (plain_TAC_shape ast 0 Hplain))
    as [[memory printed] [Hrun [Hmem Hout]]]; [now split|].
  rewrite Hrun. cbn [lift]. eexists. repeat split; assumption.
Qed.

Lemma C3_plain_programs_compute_integers_witness :
  parse (tokenize "let x = 2 + 3; print(x);") =
    OK [Assign "x" (BinOp "+" (Num 2) (Num 3)); Print (Var "x")] /\
  plain_program [Assign "x" (BinOp "+" (Num 2) (Num 3)); Print (Var "x")]
    = true /\
  exists c,
    main "let x = 2 + 3; print(x);" = OK c /\
    c_ast c = [Assign "x" (BinOp "+" (Num 2) (Num 3)); Print (Var "x")] /\
    memory_all_int (c_memory c) = true /\ all_int (c_printed c) = true.
Proof.
  split; [vm_compute; reflexivity|].
  split; [vm_compute; reflexivity|].
  apply (C3_plain_programs_compute_integers "let x = 2 + 3; print(x);");
    vm_compute; reflexivity.
Defined.

(** C4. [statement] takes whatever token follows [let] as the name: the
    tokens of [let 5 = 1;] and of [let ; = 1;] are parsed into an Assign
    node named [5] and one named [;], and no SyntaxError is raised. *)
Theorem C4_let_accepts_any_token_as_name :
  parse (tokenize "let 5 = 1;") = OK [Assign "5" (Num 1)] /\
  parse (tokenize "let ; = 1;") = OK [Assign ";" (Num 1)].
Proof. split; vm_compute; reflexivity. Qed.

(** C5. A name that was never assigned but is bound in [builtins] is found
    by [eval]: [let y = abs;] stores the builtin function and not zero,
    while [let y = x + 1;] stores zero. *)
Theorem C5_builtin_name_is_found :
  (exists c,
     main "let y = abs;" = OK c /\ c_tac c = ["y = abs"] /\
     c_memory c = [("y", VBuiltin "abs")] /\
     memory_get (c_memory c) "y" <> VInt 0) /\
  (exists c,
     main "let y = x + 1;" = OK c /\ c_tac c = ["t1 = x + 1"; "y = t1"] /\
     memory_get (c_memory c) "y" = VInt 0).
Proof.
  split; eexists; repeat split; try (vm_compute; reflexivity).
  vm_compute. discriminate.
Qed.

(** C7. The line of an assignment to a variable named [PRINT] is taken for
    a print line: [let PRINT = 5;] gives the TAC [PRINT = 5] and the
    instructions [LOAD =] and [OUT], not a Load of 5 and a Store to
    [PRINT]. *)
Theorem C7_assignment_to_PRINT_is_not_stored :
  exists c,
    main "let PRINT = 5;" = OK c /\
    c_ast c = [Assign "PRINT" (Num 5)] /\
    c_tac c = ["PRINT = 5"] /\
    c_asm c = ["LOAD ="; "OUT"] /\
    c_asm c <> ["LOAD 5"; "STORE PRINT"].
Proof.
  eexists. repeat split; try (vm_compute; reflexivity).
  vm_compute. discriminate.
Qed.

(** C8, as the claim states it, fails: the final memory of
    [let x = 2 + 3; print(x);] also holds the temporary [t1], so it is not
    the dictionary with the one item [x: 5]. *)
Lemma C8_memory_also_holds_the_temporary :
  exists c,
    main "let x = 2 + 3; print(x);" = OK c /\
    c_printed c = [VInt 5] /\
    dict_get (c_memory c) "t1" = Some (VInt 5) /\
    ~ same_dict (c_memory c) [("x", VInt 5)].
Proof.
  eexists. repeat split; try (vm_compute; reflexivity).
  intros H. specialize (H "t1"). vm_compute in H. discriminate H.
Qed.

(** C8, amended. [let x = 2 + 3; print(x);] prints 5 and ends with the
    memory [t1: 5, x: 5]. *)
Theorem C8_example_run :
  exists c,
    main "let x = 2 + 3; print(x);" = OK c /\
    c_tac c = ["t1 = 2 + 3"; "x = t1"; "PRINT x"] /\
    c_printed c = [VInt 5] /\
    c_memory c = [("t1", VInt 5); ("x", VInt 5)].
Proof. eexists. repeat split; vm_compute; reflexivity. Qed.

(** C9. [let x = 1 + 2 * 3;] is parsed into one Assign of [x] whose
    expression has [+] at the root and the product as its right child.
    The same holds for each of [+ -] against each of [* /], on either side:
    the operand between the two operators goes to [*] or [/]. *)
Theorem C9_precedence_example :
  parse (tokenize "let x = 1 + 2 * 3;") =
    OK [Assign "x" (BinOp "+" (Num 1) (BinOp "*" (Num 2) (Num 3)))] /\
  (forall add mul,
     In add ["+"; "-"] -> In mul ["*"; "/"] ->
     parse ["let"; "x"; "="; "1"; add; "2"; mul; "3"; ";"] =
       OK [Assign "x" (BinOp add (Num 1) (BinOp mul (Num 2) (Num 3)))] /\
     parse ["let"; "x"; "="; "1"; mul; "2"; add; "3"; ";"] =
       OK [Assign "x" (BinOp add (BinOp mul (Num 1) (Num 2)) (Num 3))]).
Proof.
  split; [vm_compute; reflexivity|].
  intros add mul [<- | [<- | []]] [<- | [<- | []]];
    split; vm_compute; reflexivity.
Qed.

Lemma C9_precedence_example_witness :
  In "-" ["+"; "-"] /\ In "/" ["*"; "/"] /\
  parse ["let"; "x"; "="; "1"; "-"; "2"; "/"; "3"; ";"] =
    OK [Assign "x" (BinOp "-" (Num 1) (BinOp "/" (Num 2) (Num 3)))].
Proof.
  split; [right; left; reflexivity|].
  split; [right; left; reflexivity|].
  refine (proj1 (proj2 C9_precedence_example "-" "/" _ _));
    right; left; reflexivity.
Defined.



(* ================================================================== *)
(** * Further properties: the symbol table *)
(* ================================================================== *)

Lemma dict_get_set {V} (d : list (string * V)) (k k' : string) (v : V) :
  dict_get (dict_set d k v) k' =
  if String.eqb k' k then Some v else dict_get d k'.
Proof.
  induction d as [|[k0 v0] d IH]; simpl.
  - reflexivity.
  - destruct (String.eqb k k0) eqn:Hk; simpl.
    + apply String.eqb_eq in Hk. subst k0.
      destruct (String.eqb k' k); reflexivity.
    + rewrite IH. destruct (String.eqb k' k0) eqn:Hk0; [|reflexivity].
      apply String.eqb_eq in Hk0. subst k0.
      destruct (String.eqb k' k) eqn:Hk'; [|reflexivity].
      apply String.eqb_eq in Hk'. subst k'.
      rewrite String.eqb_refl in Hk. discriminate Hk.
Qed.

Lemma dict_set_keys {V} (d : list (string * V)) (k : string) (v : V) :
  map fst (dict_set d k v) =
  if PyStr.mem k (map fst d) then map fst d else map fst d ++ [k].
Proof.
  induction d as [|[k0 v0] d IH]; simpl; [reflexivity|].
  destruct (String.eqb k k0); simpl; [reflexivity|].
  rewrite IH. fold (PyStr.mem k (map fst d)).
  now destruct (PyStr.mem k (map fst d)).
Qed.

Lemma build_symbol_table_from_get (ast : list stmt) :
  forall table name,
    dict_get (build_symbol_table_from table ast) name =
    match last_assign ast name with
    | Some e => Some e
    | None => dict_get table name
    end.
Proof.
  induction ast as [|s ast IH]; intros table name; simpl; [reflexivity|].
  destruct s as [n e | e]; rewrite IH;
    destruct (last_assign ast name); try reflexivity.
  rewrite dict_get_set. now destruct (String.eqb name n).
Qed.

(** X1. The symbol table maps a name to the expression of the last [let]
    of that name, and has no entry for a name that no [let] assigns;
    [print] statements leave it alone. *)
Theorem build_symbol_table_last_write (ast : list stmt) (name : string) :
  dict_get (build_symbol_table ast) name = last_assign ast name.
Proof.
  unfold build_symbol_table. rewrite build_symbol_table_from_get.
  now destruct (last_assign ast name).
Qed.

Lemma build_symbol_table_from_keys (ast : list stmt) :
  forall table,
    NoDup (map fst table) ->
    NoDup (map fst (build_symbol_table_from table ast)) /\
    (forall k, In k (map fst (build_symbol_table_from table ast)) <->
               In k (map fst table) \/ In k (assigned_names ast)).
Proof.
  induction ast as [|s ast IH]; intros table Hnd; simpl.
  - split; [assumption | intros k; tauto].
  - destruct s as [n e | e]; [|simpl; now apply IH].
    assert (Hnd' : NoDup (map fst (dict_set table n e))).
    { rewrite dict_set_keys.
      destruct (PyStr.mem n (map fst table)) eqn:Hm; [assumption|].
      apply NoDup_app; [assumption | repeat constructor; intros [] |].
      intros x Hx [<- | []].
      apply mem_In in Hx. congruence. }
    destruct (IH _ Hnd') as [H1 H2]. split; [assumption|].
    intros k. rewrite H2, dict_set_keys. simpl.
    destruct (PyStr.mem n (map fst table)) eqn:Hm.
    + apply mem_In in Hm. split; [tauto|].
      intros [H | [<- | H]]; auto.
    + rewrite in_app_iff. simpl. tauto.
Qed.

(** X2. The keys of the symbol table are the assigned names, each once. *)
Theorem build_symbol_table_keys (ast : list stmt) :
  NoDup (map fst (build_symbol_table ast)) /\
  (forall k, In k (map fst (build_symbol_table ast)) <->
             exists e, In (Assign k e) ast).
Proof.
  unfold build_symbol_table.
  destruct (build_symbol_table_from_keys ast [] (NoDup_nil _)) as [H1 H2].
  split; [assumption|]. intros k. rewrite H2. simpl.
  clear H1 H2. induction ast as [|s ast IH]; simpl.
  - split; [intros [[] | []] | intros [e []]].
  - destruct s as [n e | e]; simpl.
    + split.
      * intros [[] | [<- | H]]; [eauto|].
        destruct (proj1 IH (or_intror H)) as [e' He']. eauto.
      * intros [e' [He' | He']].
        -- inversion He'; subst. auto.
        -- right. right.
           destruct (proj2 IH (ex_intro _ e' He')) as [[] | H]. exact H.
    + split.
      * intros H. destruct (proj1 IH H) as [e' He']. eauto.
      * intros [e' [He' | He']]; [discriminate He'|].
        apply IH. eauto.
Qed.

(* ================================================================== *)
(** * Further properties: the TAC generator *)
(* ================================================================== *)

(** The generator only appends: the lines already in [code] stay, and what
    is appended and returned does not depend on them. *)
Lemma generate_TAC_expr_appends (e : node) :
  forall code tc,
    generate_TAC_expr e code tc =
    (expr_operand e tc, code ++ expr_lines e tc, tc + count_binops e).
Proof.
  unfold expr_operand, expr_lines.
  induction e as [n | x | op l IHl r IHr]; intros code tc; simpl.
  - now rewrite List.app_nil_r, Nat.add_0_r.
  - now rewrite List.app_nil_r, Nat.add_0_r.
  - rewrite (IHl code tc), (IHl [] tc). simpl.
    rewrite (IHr (code ++ snd (fst (generate_TAC_expr l [] tc)))),
      (IHr (snd (fst (generate_TAC_expr l [] tc)))).
    simpl. rewrite <- !List.app_assoc.
    replace (tc + count_binops l + count_binops r + 1)
      with (tc + (count_binops l + count_binops r + 1)) by lia.
    reflexivity.
Qed.

Lemma generate_TAC_from_appends (ast : list stmt) :
  forall code tc,
    generate_TAC_from code ast tc =
    (code ++ fst (generate_TAC ast tc), tc + count_binops_ast ast).
Proof.
  unfold generate_TAC.
  induction ast as [|s ast IH]; intros code tc.
  - simpl. now rewrite List.app_nil_r, Nat.add_0_r.
  - assert (Hstep : forall line : string -> string,
      (let '(val, code1, tc1) := generate_TAC_expr (stmt_expr s) code tc in
       generate_TAC_from (code1 ++ [line val]) ast tc1) =
      (code ++
       fst (let '(val, code1, tc1) := generate_TAC_expr (stmt_expr s) [] tc in
            generate_TAC_from (code1 ++ [line val]) ast tc1),
       tc + (count_binops (stmt_expr s) + count_binops_ast ast))).
    { intros line.
      rewrite (generate_TAC_expr_appends (stmt_expr s) code tc),
        (generate_TAC_expr_appends (stmt_expr s) [] tc).
      set (L := expr_lines (stmt_expr s) tc).
      set (v := line (expr_operand (stmt_expr s) tc)).
      rewrite (IH ((code ++ L) ++ [v])), (IH (([] ++ L) ++ [v])).
      simpl. rewrite <- !List.app_assoc, Nat.add_assoc. reflexivity. }
    destruct s as [name e | e]; simpl in *.
    + apply (Hstep (fun val => name +++ " = " +++ val)).
    + apply (Hstep (fun val => "PRINT " +++ val)).
Qed.

(** X3. The TAC of two programs one after the other is the TAC of the
    first followed by the TAC of the second, generated from the counter the
    first leaves. *)
Theorem generate_TAC_app (ast1 ast2 : list stmt) (tc : nat) :
  generate_TAC (ast1 ++ ast2) tc =
  (fst (generate_TAC ast1 tc) ++
   fst (generate_TAC ast2 (snd (generate_TAC ast1 tc))),
   snd (generate_TAC ast2 (snd (generate_TAC ast1 tc)))).
Proof.
  assert (Hgen : forall code,
    generate_TAC_from code (ast1 ++ ast2) tc =
    generate_TAC_from (fst (generate_TAC_from code ast1 tc)) ast2
      (snd (generate_TAC_from code ast1 tc))).
  { revert tc. induction ast1 as [|s ast1 IH]; intros tc code;
      [reflexivity|].
    destruct s as [name e | e]; simpl;
      destruct (generate_TAC_expr e code tc) as [[val code1] tc1];
      apply IH. }
  unfold generate_TAC. rewrite Hgen.
  rewrite (generate_TAC_from_appends ast2 (fst _)). simpl.
  f_equal. now rewrite (generate_TAC_from_appends ast2 []).
Qed.

(** X4. The TAC has one line for each binary operation of the program and
    one more for each statement. *)
Theorem generate_TAC_size (ast : list stmt) (tc : nat) :
  List.length (fst (generate_TAC ast tc)) =
  count_binops_ast ast + List.length ast.
Proof.
  unfold generate_TAC. rewrite generate_TAC_from_length. simpl. lia.
Qed.

(* ================================================================== *)
(** * Further properties: the lexer *)
(* ================================================================== *)

Lemma two_char_ops_second (c d : ascii) :
  PyStr.mem (String c (String d EmptyString)) two_char_ops = true ->
  d = "="%char.
Proof.
  intros H. apply mem_In in H. simpl in H.
  destruct H as [H | [H | [H | [H | []]]]]; now inversion H.
Qed.

Lemma unrecognized_not_eq_sign (c : ascii) :
  unrecognized c = true -> c <> "="%char.
Proof. intros H ->. discriminate H. Qed.

Lemma match_token_unrecognized (c : ascii) (r : string) :
  unrecognized c = true ->
  match r with
  | EmptyString => True
  | String d _ => unrecognized d = true
  end ->
  match_token (String c r) = None.
Proof.
  unfold unrecognized. intros Hc Hr.
  apply andb_prop in Hc as [Hc Hop]. apply andb_prop in Hc as [Hid Hdg].
  apply negb_true_iff in Hid, Hdg, Hop.
  unfold match_token. rewrite Hid, Hdg, Hop.
  destruct r as [|d r']; [reflexivity|].
  destruct (PyStr.mem (String c (String d EmptyString)) two_char_ops)
    eqn:H2; [|reflexivity].
  apply two_char_ops_second in H2. subst d. discriminate Hr.
Qed.

(** X5. A text in which no character is an ASCII letter, digit or
    underscore or one of the operator characters gives no token: what
    matches nothing is dropped, and the empty text gives the empty list. *)
Theorem tokenize_drops_unrecognized (code : string) :
  PyStr.forallb_str unrecognized code = true -> tokenize code = [].
Proof.
  unfold tokenize. generalize (String.length code) as fuel.
  induction code as [|c r IH]; intros fuel H; destruct fuel as [|fuel];
    try reflexivity.
  simpl in H. apply andb_prop in H as [Hc Hr].
  cbn [findall]. rewrite match_token_unrecognized.
  - now apply IH.
  - assumption.
  - destruct r as [|d r']; [exact I|]. simpl in Hr.
    now apply andb_prop in Hr as [Hd _].
Qed.

Lemma tokenize_drops_unrecognized_witness :
  PyStr.forallb_str unrecognized " @ # $ ! ~ " = true /\
  tokenize " @ # $ ! ~ " = [].
Proof.
  split; [reflexivity|].
  apply (tokenize_drops_unrecognized " @ # $ ! ~ "). reflexivity.
Defined.

Lemma span_forallb (p : ascii -> bool) (s : string) :
  PyStr.forallb_str p (fst (span p s)) = true.
Proof.
  induction s as [|c s IH]; simpl; [reflexivity|].
  destruct (p c) eqn:Hc; [|reflexivity].
  destruct (span p s) as [w r]. simpl in *. now rewrite Hc, IH.
Qed.

Lemma match_token_class (s tok rest : string) :
  match_token s = Some (tok, rest) -> token_class tok = true.
Proof.
  destruct s as [|c r]; [discriminate|]. unfold match_token. cbv zeta.
  unfold token_class.
  destruct (PyStr.is_ident_start c) eqn:Hid.
  - pose proof (span_forallb PyStr.is_word r) as Hw.
    destruct (span PyStr.is_word r) as [w r']. intros E.
    inversion E; subst. cbn [fst] in Hw.
    assert (H : is_identifier (String c w) = true)
      by (cbn [is_identifier]; now rewrite Hid, Hw).
    rewrite H. reflexivity.
  - destruct (PyStr.is_ascii_digit c) eqn:Hdg.
    + pose proof (span_forallb PyStr.is_ascii_digit r) as Hw.
      destruct (span PyStr.is_ascii_digit r) as [w r']. intros E.
      inversion E; subst. cbn [fst] in Hw.
      assert (H : PyEval.is_digits (String c w) = true)
        by (unfold PyEval.is_digits;
            cbn [PyStr.nonempty PyStr.forallb_str]; now rewrite Hdg, Hw).
      rewrite H, orb_true_r. reflexivity.
    + assert (Hone :
        (if PyStr.mem (String c EmptyString) one_char_ops
         then Some (String c EmptyString, r) else None) = Some (tok, rest) ->
        is_identifier tok || PyEval.is_digits tok
        || PyStr.mem tok two_char_ops || PyStr.mem tok one_char_ops = true).
      { destruct (PyStr.mem (String c EmptyString) one_char_ops) eqn:H1;
          [|discriminate]. intros E. inversion E; subst.
        rewrite H1. apply orb_true_r. }
      destruct r as [|d r']; [exact Hone|].
      destruct (PyStr.mem (String c (String d EmptyString)) two_char_ops)
        eqn:H2; [|exact Hone].
      intros E. inversion E; subst. rewrite H2.
      rewrite orb_true_r. reflexivity.
Qed.

Lemma findall_classes (fuel : nat) :
  forall s, Forall (fun t => token_class t = true) (findall fuel s).
Proof.
  induction fuel as [|fuel IH]; intros s; simpl; [constructor|].
  destruct s as [|c r]; [constructor|].
  destruct (match_token (String c r)) as [[tok rest]|] eqn:Hm.
  - constructor; [eapply match_token_class; eassumption | apply IH].
  - apply IH.
Qed.

Lemma word_not_space (c : ascii) :
  PyStr.is_word c = true -> PyStr.is_space c = false.
Proof.
  destruct c as [[] [] [] [] [] [] [] []]; vm_compute; congruence.
Qed.

Lemma token_class_is_token (t : string) :
  token_class t = true -> is_token t = true.
Proof.
  unfold token_class. intros H.
  apply orb_prop in H as [H | H]; [apply orb_prop in H as [H | H];
    [apply orb_prop in H as [H | H]|]|].
  - destruct t as [|c w]; [discriminate|]. simpl in H.
    apply andb_prop in H as [Hc Hw]. unfold is_token. simpl.
    rewrite (ident_start_not_space c Hc). simpl.
    eapply forallb_str_impl; [|exact Hw].
    intros x Hx. now rewrite (word_not_space x Hx).
  - now apply word_text_is_token, is_digits_word_text.
  - apply mem_In in H. simpl in H.
    destruct H as [<- | [<- | [<- | [<- | []]]]]; reflexivity.
  - apply mem_In in H. simpl in H.
    repeat (destruct H as [<- | H]; [reflexivity|]). destruct H.
Qed.

(** X6. Every token is an identifier, a run of ASCII digits or one of the
    operators of the pattern; so no token is empty and no token contains
    whitespace. *)
Theorem tokenize_token_classes (code : string) :
  Forall (fun t => token_class t = true /\ PyStr.nonempty t = true /\
                   PyStr.split t = [t])
    (tokenize code).
Proof.
  eapply Forall_impl; [|apply findall_classes].
  intros t Ht. pose proof (token_class_is_token t Ht) as Htok.
  repeat split; [assumption | | now apply split_token].
  unfold is_token in Htok. now apply andb_prop in Htok as [-> _].
Qed.

Lemma space_facts (c : ascii) :
  PyStr.is_space c = true ->
  PyStr.is_word c = false /\ PyStr.is_ident_start c = false /\
  PyStr.is_ascii_digit c = false /\
  PyStr.mem (String c EmptyString) one_char_ops = false /\
  c <> "="%char.
Proof.
  destruct c as [[] [] [] [] [] [] [] []]; vm_compute; intros H;
    try discriminate H; repeat split; congruence.
Qed.

Lemma digit_not_space_sep (c : ascii) :
  PyStr.is_space c = true -> PyStr.is_ascii_digit c = false.
Proof. intros H. now apply space_facts in H. Qed.

(** A run of characters stops at a character outside it, whatever
    follows. *)
Lemma span_app_stop (p : ascii -> bool) (c : ascii) (b : string) :
  p c = false ->
  forall a,
    span p (a +++ String c b) =
    (fst (span p a), snd (span p a) +++ String c b).
Proof.
  intros Hc. induction a as [|x a IH]; simpl.
  - now rewrite Hc.
  - destruct (p x); [|reflexivity].
    rewrite IH. now destruct (span p a).
Qed.

(** A match in front of a whitespace character is the match in the text
    before it. *)
Lemma match_token_before_space (c : ascii) (b : string) (x : ascii)
    (a : string) :
  PyStr.is_space c = true ->
  match_token (String x a +++ String c b) =
  match match_token (String x a) with
  | Some (tok, rest) => Some (tok, rest +++ String c b)
  | None => None
  end.
Proof.
  intros Hc. destruct (space_facts c Hc) as [Hw [_ [Hd [_ Heq]]]].
  cbn [append]. unfold match_token. cbv zeta.
  destruct (PyStr.is_ident_start x).
  - rewrite (span_app_stop _ c b Hw). now destruct (span PyStr.is_word a).
  - destruct (PyStr.is_ascii_digit x).
    + rewrite (span_app_stop _ c b Hd).
      now destruct (span PyStr.is_ascii_digit a).
    + destruct a as [|d a']; cbn [append].
      * destruct (PyStr.mem (String x (String c EmptyString)) two_char_ops)
          eqn:H2.
        -- apply two_char_ops_second in H2. congruence.
        -- now destruct (PyStr.mem (String x EmptyString) one_char_ops).
      * destruct (PyStr.mem (String x (String d EmptyString)) two_char_ops);
          [reflexivity|].
        now destruct (PyStr.mem (String x EmptyString) one_char_ops).
Qed.

Lemma match_token_space (c : ascii) (b : string) :
  PyStr.is_space c = true -> match_token (String c b) = None.
Proof.
  intros Hc. destruct (space_facts c Hc) as [_ [Hid [Hd [Hop Heq]]]].
  unfold match_token. rewrite Hid, Hd, Hop.
  destruct b as [|d b']; [reflexivity|].
  destruct (PyStr.mem (String c (String d EmptyString)) two_char_ops)
    eqn:H2; [|reflexivity].
  apply mem_In in H2. simpl in H2.
  destruct H2 as [H | [H | [H | [H | []]]]]; inversion H; subst;
    discriminate Hc.
Qed.

Lemma string_length_append (a b : string) :
  String.length (a +++ b) = String.length a + String.length b.
Proof. induction a as [|x a IH]; simpl; [reflexivity | now rewrite IH]. Qed.

Lemma findall_before_space (c : ascii) (b : string) :
  PyStr.is_space c = true ->
  forall fuel a,
    String.length (a +++ String c b) <= fuel ->
    findall fuel (a +++ String c b) = findall fuel a ++ findall fuel b.
Proof.
  intros Hc. induction fuel as [|fuel IH]; intros a Hlen.
  - rewrite string_length_append in Hlen. simpl in Hlen. lia.
  - rewrite string_length_append in Hlen. simpl in Hlen.
    assert (Hb : findall (S fuel) b = findall fuel b)
      by (apply findall_fuel; lia).
    rewrite Hb. clear Hb.
    destruct a as [|x a].
    + cbn [append findall]. now rewrite (match_token_space c b Hc).
    + change (findall (S fuel) (String x a +++ String c b)) with
        (match match_token (String x a +++ String c b) with
         | Some (tok, rest) => tok :: findall fuel rest
         | None => findall fuel (a +++ String c b)
         end).
      rewrite (match_token_before_space c b x a Hc).
      cbn [findall].
      destruct (match_token (String x a)) as [[tok rest]|] eqn:Hm.
      * apply match_token_shorter in Hm. simpl in Hm, Hlen.
        now rewrite IH by (rewrite string_length_append; simpl; lia).
      * simpl in Hlen.
        now rewrite IH by (rewrite string_length_append; simpl; lia).
Qed.

Lemma tokenize_app_space (a b : string) (c : ascii) :
  PyStr.is_space c = true ->
  tokenize (a +++ String c b) = tokenize a ++ tokenize b.
Proof.
  intros Hc. unfold tokenize.
  rewrite (findall_before_space c b Hc) by lia.
  rewrite string_length_append. simpl.
  f_equal; apply findall_fuel; lia.
Qed.

(** X7. Whitespace separates: the tokens of two texts joined by a
    whitespace character are the tokens of the first followed by the
    tokens of the second. *)
Theorem tokenize_whitespace_separates (a b : string) (c : ascii) :
  PyStr.is_space c = true ->
  tokenize (a +++ String c b) = tokenize a ++ tokenize b.
Proof. exact (tokenize_app_space a b c). Qed.

Lemma tokenize_whitespace_separates_witness :
  PyStr.is_space " " = true /\
  tokenize ("let x" +++ String " " "= 1;") =
  tokenize "let x" ++ tokenize "= 1;".
Proof.
  split; [reflexivity|].
  apply (tokenize_whitespace_separates "let x" "= 1;" " "). reflexivity.
Defined.

Lemma span_all (p : ascii -> bool) (w : string) :
  PyStr.forallb_str p w = true -> span p w = (w, EmptyString).
Proof.
  induction w as [|c w IH]; simpl; [reflexivity|]. intros H.
  apply andb_prop in H as [-> Hw]. now rewrite (IH Hw).
Qed.

(** A text of one of the four kinds is the one token of itself. *)
Lemma tokenize_one_token (t : string) :
  token_class t = true -> tokenize t = [t].
Proof.
  unfold token_class. intros H.
  apply orb_prop in H as [H | H]; [apply orb_prop in H as [H | H];
    [apply orb_prop in H as [H | H]|]|].
  - destruct t as [|c w]; [discriminate|]. cbn [is_identifier] in H.
    apply andb_prop in H as [Hc Hw].
    unfold tokenize. cbn [String.length findall]. unfold match_token.
    rewrite Hc, (span_all _ w Hw). now destruct (String.length w).
  - destruct t as [|c w]; [discriminate|]. unfold PyEval.is_digits in H.
    cbn [PyStr.nonempty PyStr.forallb_str andb] in H.
    apply andb_prop in H as [Hc Hw].
    assert (Hid : PyStr.is_ident_start c = false).
    { destruct c as [[] [] [] [] [] [] [] []]; try discriminate Hc;
        reflexivity. }
    unfold tokenize. cbn [String.length findall]. unfold match_token.
    rewrite Hid, Hc, (span_all _ w Hw). now destruct (String.length w).
  - apply mem_In in H. simpl in H.
    destruct H as [<- | [<- | [<- | [<- | []]]]]; reflexivity.
  - apply mem_In in H. simpl in H.
    repeat (destruct H as [<- | H]; [reflexivity|]). destruct H.
Qed.

Lemma tokenize_join_tokens (toks : list string) :
  Forall (fun t => token_class t = true) toks ->
  tokenize (PyStr.join " " toks) = toks.
Proof.
  induction toks as [|t toks IH]; intros Hall; [reflexivity|].
  inversion Hall as [|t' toks' Ht Htoks]; subst.
  destruct toks as [|u toks].
  - simpl. now apply tokenize_one_token.
  - change (PyStr.join " " (t :: u :: toks))
      with (t +++ String " " (PyStr.join " " (u :: toks))).
    rewrite tokenize_app_space by reflexivity.
    now rewrite (tokenize_one_token t Ht), (IH Htoks).
Qed.

(** X8. Tokens written with a space between them are read back: the
    tokens of [" ".join(tokens)] are [tokens], for every list of texts of
    the four kinds, and so for every list [tokenize] returns. *)
Theorem tokenize_join_round_trip (toks : list string) :
  Forall (fun t => token_class t = true) toks ->
  tokenize (PyStr.join " " toks) = toks.
Proof. exact (tokenize_join_tokens toks). Qed.

Lemma tokenize_join_round_trip_witness :
  Forall (fun t => token_class t = true) (tokenize "let x=1+2;") /\
  tokenize (PyStr.join " " (tokenize "let x=1+2;")) = tokenize "let x=1+2;".
Proof.
  split; [apply findall_classes|].
  apply (tokenize_join_round_trip (tokenize "let x=1+2;")).
  apply findall_classes.
Defined.

(* ================================================================== *)
(** * Further properties: literals *)
(* ================================================================== *)

Ltac eval_digit_val :=
  match goal with
  | |- context [PyStr.digit_val ?c] =>
      let v := eval vm_compute in (PyStr.digit_val c) in
      change (PyStr.digit_val c) with v
  end.

Lemma int_go_of_uint_acc (d : Decimal.uint) :
  forall acc,
    PyStr.int_go (Zpos acc) (NilEmpty.string_of_uint d) =
    Zpos (Pos.of_uint_acc d acc).
Proof.
  induction d; intros acc;
    cbn [NilEmpty.string_of_uint Pos.of_uint_acc PyStr.int_go];
    try reflexivity;
    rewrite <- IHd; f_equal; eval_digit_val; lia.
Qed.

Lemma int_go_of_uint (d : Decimal.uint) :
  PyStr.int_go 0 (NilEmpty.string_of_uint d) = Z.of_N (Pos.of_uint d).
Proof.
  induction d;
    cbn [NilEmpty.string_of_uint Pos.of_uint PyStr.int_go];
    try reflexivity;
    eval_digit_val; cbn [Z.mul Z.add];
    solve [assumption | apply int_go_of_uint_acc].
Qed.

Lemma nzhead_not_zero (d u : Decimal.uint) :
  Decimal.nzhead d <> Decimal.D0 u.
Proof. induction d; simpl; try discriminate; assumption. Qed.

(** The decimal digits of a positive number do not start with a zero. *)
Lemma pos_to_uint_head (p : positive) (l : Decimal.uint) :
  Pos.to_uint p <> Decimal.D0 l.
Proof.
  intros H. pose proof (DecimalPos.Unsigned.to_of (Pos.to_uint p)) as Hn.
  rewrite DecimalPos.Unsigned.of_to in Hn. simpl in Hn.
  rewrite H in Hn. unfold Decimal.unorm in Hn. simpl in Hn.
  destruct (Decimal.nzhead l) eqn:Hl; try discriminate Hn.
  - inversion Hn; subst.
    pose proof (DecimalPos.Unsigned.of_to p) as Hp. rewrite H in Hp.
    discriminate Hp.
  - now apply nzhead_not_zero in Hl.
Qed.

Lemma str_pos (p : positive) :
  PyStr.str (Zpos p) = NilEmpty.string_of_uint (Pos.to_uint p) /\
  prefix "0" (PyStr.str (Zpos p)) = false.
Proof.
  unfold PyStr.str. simpl Z.to_int. unfold NilZero.string_of_int,
    NilZero.string_of_uint.
  pose proof (DecimalPos.Unsigned.to_uint_nonnil p) as Hnil.
  pose proof (pos_to_uint_head p) as Hhead.
  destruct (Pos.to_uint p); try (split; reflexivity).
  - congruence.
  - now specialize (Hhead u).
Qed.

Lemma int_go_str (n : Z) :
  (0 <= n)%Z -> PyStr.int_go 0 (PyStr.str n) = n.
Proof.
  intros Hn. destruct n as [|p|p]; [reflexivity | | lia].
  rewrite (proj1 (str_pos p)), int_go_of_uint.
  now rewrite DecimalPos.Unsigned.of_to.
Qed.

Lemma is_digits_isdigit (s : string) :
  PyEval.is_digits s = true -> PyStr.isdigit s = true.
Proof.
  unfold PyEval.is_digits, PyStr.isdigit. intros H.
  apply andb_prop in H as [-> H]. simpl.
  eapply forallb_str_impl; [|exact H].
  intros c Hc. unfold PyStr.is_unicode_digit. now rewrite Hc.
Qed.

(** X9. The text [str] writes for a non-negative literal is read back: it
    passes [isdigit], [int] returns the literal, and [eval] gives the
    literal as an [int] in every memory. *)
Theorem literal_round_trip (n : Z) (memory : list (string * pyval)) :
  (0 <= n)%Z ->
  PyStr.isdigit (PyStr.str n) = true /\
  PyStr.int (PyStr.str n) = Some n /\
  PyEval.eval (PyStr.str n) memory = OK (VInt n).
Proof.
  intros Hn. pose proof (str_nonneg_digits n Hn) as Hd.
  split; [now apply is_digits_isdigit|]. split.
  - unfold PyStr.int. unfold PyEval.is_digits in Hd. rewrite Hd.
    now rewrite int_go_str.
  - unfold PyEval.eval.
    rewrite split_sep_space_word by now apply is_digits_word_text.
    unfold PyEval.eval_operand. rewrite Hd. unfold PyEval.eval_literal.
    rewrite int_go_str by assumption.
    destruct n as [|p|p]; [reflexivity | | lia].
    now rewrite (proj2 (str_pos p)).
Qed.

Lemma literal_round_trip_witness :
  (0 <= 1207)%Z /\
  PyStr.isdigit (PyStr.str 1207) = true /\
  PyStr.int (PyStr.str 1207) = Some 1207%Z /\
  PyEval.eval (PyStr.str 1207) [] = OK (VInt 1207).
Proof.
  split; [lia|]. apply (literal_round_trip 1207 []). lia.
Defined.

(* ================================================================== *)
(** * Further properties: the instructions of a line *)
(* ================================================================== *)

Lemma is_token_parts (w : string) :
  is_token w = true ->
  PyStr.nonempty w = true /\
  PyStr.forallb_str (fun c => negb (PyStr.is_space c)) w = true.
Proof. unfold is_token. intros H. now apply andb_prop in H. Qed.

Lemma split_go_token_then_space (w cur rest : string) :
  is_token w = true ->
  PyStr.split_go cur (w +++ String " " rest) =
  (cur +++ w) :: PyStr.split_go EmptyString rest.
Proof.
  intros Hw. destruct (is_token_parts w Hw) as [Hne Hns].
  rewrite (split_go_token w cur _ Hns). simpl.
  rewrite flush_nonempty; [reflexivity|].
  destruct cur; [assumption | reflexivity].
Qed.

Lemma split_assign_line (name val : string) :
  is_token name = true -> is_token val = true ->
  PyStr.split (name +++ " = " +++ val) = [name; "="; val].
Proof.
  intros Hn Hv. unfold PyStr.split.
  change (name +++ " = " +++ val)
    with (name +++ String " " ("=" +++ String " " val)).
  rewrite (split_go_token_then_space name) by assumption.
  rewrite (split_go_token_then_space "=") by reflexivity.
  simpl. f_equal. f_equal. now apply split_token.
Qed.

Lemma split_compute_line (dest lhs op rhs : string) :
  is_token dest = true -> is_token lhs = true -> is_token op = true ->
  is_token rhs = true ->
  PyStr.split (dest +++ " = " +++ lhs +++ " " +++ op +++ " " +++ rhs) =
  [dest; "="; lhs; op; rhs].
Proof.
  intros Hd Hl Ho Hr. unfold PyStr.split.
  change (dest +++ " = " +++ lhs +++ " " +++ op +++ " " +++ rhs)
    with (dest +++ String " " ("=" +++ String " "
            (lhs +++ String " " (op +++ String " " rhs)))).
  rewrite (split_go_token_then_space dest) by assumption.
  rewrite (split_go_token_then_space "=") by reflexivity.
  rewrite (split_go_token_then_space lhs) by assumption.
  rewrite (split_go_token_then_space op) by assumption.
  simpl. do 4 f_equal. now apply split_token.
Qed.

Lemma mem_cons_neq (x y : string) (l : list string) :
  x <> y -> PyStr.mem x (y :: l) = PyStr.mem x l.
Proof.
  intros H. unfold PyStr.mem. simpl.
  apply String.eqb_neq in H. now rewrite H.
Qed.

(** X10. On a line none of whose pieces is the word [PRINT],
    [generate_ASM] writes what the line asks for: [dest = val] gives a Load
    of [val] and a Store to [dest], a computation gives a Load of the whole
    right-hand side and a Store to the destination; and [PRINT val] gives a
    Load of [val] and Out. *)
Theorem asm_of_line_without_PRINT_names (dest lhs op rhs : string) :
  is_token dest = true -> is_token lhs = true -> is_token op = true ->
  is_token rhs = true ->
  dest <> "PRINT" -> lhs <> "PRINT" -> op <> "PRINT" -> rhs <> "PRINT" ->
  asm_of_line (dest +++ " = " +++ rhs) =
    OK ["LOAD " +++ rhs; "STORE " +++ dest] /\
  asm_of_line (dest +++ " = " +++ lhs +++ " " +++ op +++ " " +++ rhs) =
    OK ["LOAD " +++ lhs +++ " " +++ op +++ " " +++ rhs; "STORE " +++ dest] /\
  asm_of_line ("PRINT " +++ rhs) = OK ["LOAD " +++ rhs; "OUT"].
Proof.
  intros Hd Hl Ho Hr Nd Nl No Nr. repeat split.
  - unfold asm_of_line. rewrite split_assign_line by assumption.
    assert (Hp : PyStr.mem "PRINT" [dest; "="; rhs] = false).
    { rewrite mem_cons_neq by congruence.
      rewrite mem_cons_neq by discriminate.
      rewrite mem_cons_neq by congruence. reflexivity. }
    rewrite Hp.
    assert (He : PyStr.mem "=" [dest; "="; rhs] = true).
    { apply mem_In. simpl. auto. }
    rewrite He. reflexivity.
  - unfold asm_of_line. rewrite split_compute_line by assumption.
    assert (Hp : PyStr.mem "PRINT" [dest; "="; lhs; op; rhs] = false).
    { rewrite mem_cons_neq by congruence.
      rewrite mem_cons_neq by discriminate.
      rewrite !mem_cons_neq by congruence. reflexivity. }
    rewrite Hp.
    assert (He : PyStr.mem "=" [dest; "="; lhs; op; rhs] = true).
    { apply mem_In. simpl. auto. }
    rewrite He. reflexivity.
  - unfold asm_of_line.
    rewrite split_print_line, (split_token rhs Hr).
    assert (Hp : PyStr.mem "PRINT" ["PRINT"; rhs] = true) by reflexivity.
    rewrite Hp, andb_false_r. reflexivity.
Qed.

Lemma asm_of_line_without_PRINT_names_witness :
  asm_of_line "x = 7" = OK ["LOAD 7"; "STORE x"] /\
  asm_of_line "x = t1 * 7" = OK ["LOAD t1 * 7"; "STORE x"] /\
  asm_of_line "PRINT 7" = OK ["LOAD 7"; "OUT"].
Proof.
  apply (asm_of_line_without_PRINT_names "x" "t1" "*" "7");
    solve [reflexivity | discriminate].
Defined.

(* ================================================================== *)
(** * Further properties: what the parser rejects *)
(* ================================================================== *)

Lemma eat_any p t :
  peek_at p = Some t -> PyStr.nonempty t = true ->
  eat None p = OK (t, next p).
Proof.
  intros Hp Hne. unfold eat, bind, peek. rewrite Hp. cbn [truthy].
  rewrite Hne. reflexivity.
Qed.

Lemma eat_expected p v :
  peek_at p = Some v -> PyStr.nonempty v = true ->
  eat (Some v) p = OK (v, next p).
Proof.
  intros Hp Hne. unfold eat, bind, peek. rewrite Hp. cbn [truthy].
  rewrite Hne, String.eqb_refl. reflexivity.
Qed.

Lemma eat_other p v t :
  peek_at p = Some t -> PyStr.nonempty t = true ->
  PyStr.nonempty v = true -> t <> v ->
  eat (Some v) p =
  Raise (SyntaxError ("Expected '" +++ v +++ "', got '" +++ t +++ "'")).
Proof.
  intros Hp Hne Hv Hneq. apply String.eqb_neq in Hneq.
  unfold eat, bind, peek. rewrite Hp. cbn [truthy].
  rewrite Hne, Hv, Hneq. reflexivity.
Qed.

Lemma eat_at_end p value :
  truthy (peek_at p) = false ->
  eat value p = Raise (SyntaxError "Unexpected end of input").
Proof.
  intros Hp. unfold eat, bind, peek. rewrite Hp. reflexivity.
Qed.

Lemma bind_step {A B} (m : parser A) (k : A -> parser B) p r :
  m p = r ->
  bind m k p =
  match r with
  | OK (a, p') => k a p'
  | Raise e => Raise e
  | OutOfFuel => OutOfFuel
  | Unmodelled => Unmodelled
  end.
Proof. intros <-. reflexivity. Qed.

Lemma parse_first_statement (toks : list string) (t : string) :
  nth_error toks 0 = Some t -> PyStr.nonempty t = true ->
  parse toks =
  match statement (S (List.length toks)) (mkParser toks 0) with
  | OK (s, p) =>
      match parse_loop (List.length toks) [s] p with
      | OK (ast, _) => OK ast
      | Raise e => Raise e
      | OutOfFuel => OutOfFuel
      | Unmodelled => Unmodelled
      end
  | Raise e => Raise e
  | OutOfFuel => OutOfFuel
  | Unmodelled => Unmodelled
  end.
Proof.
  intros Ht Hne. unfold parse. cbn [parse_loop].
  unfold bind at 1. unfold peek, peek_at. cbn [tokens pos].
  rewrite Ht. cbn [truthy]. rewrite Hne.
  unfold bind at 1.
  now destruct (statement (S (List.length toks)) (mkParser toks 0))
    as [[s p] | e | |].
Qed.

(** X11. A statement must start with [let] or [print]: on any other
    non-empty first token [parse] raises SyntaxError and names the token.
    After [let] and a name, any token other than [=] is reported as
    expected-versus-actual, and so is any token other than [(] after
    [print]. *)
Theorem parse_rejects_wrong_leader (t : string) (rest : list string) :
  PyStr.nonempty t = true ->
  (t <> "let" -> t <> "print" ->
   parse (t :: rest) = Raise (SyntaxError ("Unexpected token: " +++ t))) /\
  (t <> "=" ->
   forall name, PyStr.nonempty name = true ->
     parse ("let" :: name :: t :: rest) =
     Raise (SyntaxError ("Expected '=', got '" +++ t +++ "'"))) /\
  (t <> "(" ->
   parse ("print" :: t :: rest) =
   Raise (SyntaxError ("Expected '(', got '" +++ t +++ "'"))).
Proof.
  intros Hne. repeat split.
  - intros Hlet Hprint. apply String.eqb_neq in Hlet, Hprint.
    rewrite (parse_first_statement _ t) by (try reflexivity; assumption).
    unfold statement. unfold bind at 1. unfold peek, peek_at.
    cbn [tokens pos nth_error]. rewrite Hlet, Hprint. reflexivity.
  - intros Heq name Hname.
    rewrite (parse_first_statement _ "let") by reflexivity.
    set (p0 := mkParser ("let" :: name :: t :: rest) 0).
    unfold statement. unfold bind at 1. unfold peek at 1.
    cbn [p0 peek_at tokens pos nth_error String.eqb Ascii.eqb Bool.eqb].
    fold p0.
    rewrite (bind_step _ _ p0 _ (eat_expected p0 "let" eq_refl eq_refl)).
    rewrite (bind_step _ _ (next p0) _
               (eat_any (next p0) name eq_refl Hname)).
    rewrite (bind_step _ _ (next (next p0)) _
               (eat_other (next (next p0)) "=" t eq_refl Hne eq_refl Heq)).
    reflexivity.
  - intros Hpar.
    rewrite (parse_first_statement _ "print") by reflexivity.
    set (p0 := mkParser ("print" :: t :: rest) 0).
    unfold statement. unfold bind at 1. unfold peek at 1.
    cbn [p0 peek_at tokens pos nth_error String.eqb Ascii.eqb Bool.eqb].
    fold p0.
    rewrite (bind_step _ _ p0 _ (eat_expected p0 "print" eq_refl eq_refl)).
    rewrite (bind_step _ _ (next p0) _
               (eat_other (next p0) "(" t eq_refl Hne eq_refl Hpar)).
    reflexivity.
Qed.

Lemma parse_rejects_wrong_leader_witness :
  PyStr.nonempty "x" = true /\
  parse ["x"; "="; "1"; ";"] = Raise (SyntaxError "Unexpected token: x").
Proof.
  split; [reflexivity|].
  apply (proj1 (parse_rejects_wrong_leader "x" ["="; "1"; ";"] eq_refl));
    discriminate.
Defined.

(* ================================================================== *)
(** * Further properties: the parser on the tokens of a text *)
(* ================================================================== *)

Lemma peek_at_In p t : peek_at p = Some t -> In t (tokens p).
Proof. unfold peek_at. apply nth_error_In. Qed.

Lemma eat_tokens value p t p' :
  eat value p = OK (t, p') -> tokens p' = tokens p /\ In t (tokens p).
Proof.
  intros H. apply eat_OK in H as [Hpeek [_ [-> _]]].
  split; [reflexivity | now apply peek_at_In].
Qed.

Section ParserOnTokens.
Variable Q : string -> Prop.
Variable ex : parser node.
Hypothesis ex_consumes : consumes ex.
Hypothesis ex_from :
  forall p e p', Forall Q (tokens p) -> ex p = OK (e, p') -> node_from Q e.

Lemma factor_from p e p' :
  Forall Q (tokens p) -> factor ex p = OK (e, p') -> node_from Q e.
Proof.
  intros HQ H. unfold factor in H. bind_inv H.
  apply peek_OK in Hm as [-> ->].
  destruct (peek_at p) as [t|] eqn:Hpeek; [|discriminate].
  destruct (PyStr.isdigit t).
  - bind_inv H. unfold PyStr.int in H.
    destruct (PyStr.nonempty t && PyStr.forallb_str PyStr.is_ascii_digit t);
      [|discriminate].
    inversion H; subst. simpl. now apply int_go_nonneg.
  - destruct (matches_ident t) eqn:Hid.
    + bind_inv H. inversion H; subst. simpl. split; [|exact Hid].
      rewrite Forall_forall in HQ. now apply HQ, peek_at_In.
    + destruct (String.eqb t "("); [|discriminate].
      bind_inv H. bind_inv H. bind_inv H. inversion H; subst.
      apply eat_tokens in Hm as [Ht _].
      eapply ex_from; [|eassumption]. now rewrite Ht.
Qed.

Lemma binop_loop_from ops (operand : parser node) :
  (forall op, PyStr.mem op ops = true ->
              PyStr.mem op PyEval.binary_ops = true) ->
  consumes operand ->
  (forall p e p', Forall Q (tokens p) -> operand p = OK (e, p') ->
                  node_from Q e) ->
  forall fuel lhs p e p',
    Forall Q (tokens p) -> node_from Q lhs ->
    binop_loop ops operand fuel lhs p = OK (e, p') -> node_from Q e.
Proof.
  intros Hops Hcons Hoperand. induction fuel as [|fuel IH];
    intros lhs p e p' HQ Hlhs H; simpl in H; [discriminate|].
  bind_inv H. apply peek_OK in Hm as [-> ->].
  destruct (peek_at p) as [t|] eqn:Hpeek.
  - destruct (PyStr.mem t ops) eqn:Hmem.
    + bind_inv H. bind_inv H.
      pose proof (eat_tokens _ _ _ _ Hm) as [Ht1 _].
      apply eat_OK in Hm as [Hop _]. rewrite Hpeek in Hop.
      inversion Hop; subst.
      pose proof (Hcons _ _ _ Hm0) as [Ht2 _].
      eapply IH; [| |eassumption].
      * now rewrite Ht2, Ht1.
      * simpl. repeat split; [now apply Hops | assumption |].
        eapply Hoperand; [|eassumption]. now rewrite Ht1.
    + inversion H; subst. assumption.
  - inversion H; subst. assumption.
Qed.

Lemma term_from fuel p e p' :
  Forall Q (tokens p) -> term ex fuel p = OK (e, p') -> node_from Q e.
Proof.
  intros HQ H. unfold term in H. bind_inv H.
  pose proof (factor_consumes ex ex_consumes _ _ _ Hm) as [Ht _].
  eapply (binop_loop_from ["*"; "/"]); [| | | | |eassumption].
  - intros op Hop. apply mem_In in Hop. apply mem_In.
    simpl in *. intuition.
  - now apply factor_consumes.
  - apply factor_from.
  - now rewrite Ht.
  - eapply factor_from; eassumption.
Qed.

Lemma expr_body_from fuel p e p' :
  Forall Q (tokens p) -> expr_body ex fuel p = OK (e, p') -> node_from Q e.
Proof.
  intros HQ H. unfold expr_body in H. bind_inv H.
  pose proof (term_consumes ex ex_consumes fuel _ _ _ Hm) as [Ht _].
  eapply (binop_loop_from ["+"; "-"]); [| | | | |eassumption].
  - intros op Hop. apply mem_In in Hop. apply mem_In.
    simpl in *. intuition.
  - now apply term_consumes.
  - apply term_from.
  - now rewrite Ht.
  - eapply term_from; eassumption.
Qed.
End ParserOnTokens.

Lemma expr_from (Q : string -> Prop) (fuel : nat) :
  forall p e p',
    Forall Q (tokens p) -> expr fuel p = OK (e, p') -> node_from Q e.
Proof.
  induction fuel as [|fuel IH]; intros p e p' HQ H; simpl in H;
    [discriminate|].
  eapply expr_body_from; [apply expr_progress | exact IH | | ]; eassumption.
Qed.

Lemma statement_from (Q : string -> Prop) fuel p s p' :
  Forall Q (tokens p) -> statement fuel p = OK (s, p') -> stmt_from Q s.
Proof.
  intros HQ H. unfold statement in H. bind_inv H.
  apply peek_OK in Hm as [-> ->].
  destruct (match peek_at p with
            | Some t => String.eqb t "let" | None => false end).
  - do 5 bind_inv H. inversion H; subst.
    apply eat_tokens in Hm as [T1 _]. apply eat_tokens in Hm0 as [T2 Hin].
    apply eat_tokens in Hm1 as [T3 _]. simpl. split.
    + rewrite Forall_forall in HQ. apply HQ. now rewrite <- T1.
    + eapply expr_from; [|eassumption]. now rewrite T3, T2, T1.
  - destruct (match peek_at p with
              | Some t => String.eqb t "print" | None => false end);
      [|discriminate].
    do 5 bind_inv H. inversion H; subst.
    apply eat_tokens in Hm as [T1 _]. apply eat_tokens in Hm0 as [T2 _].
    simpl. eapply expr_from; [|eassumption]. now rewrite T2, T1.
Qed.

Lemma parse_loop_from (Q : string -> Prop) (fuel : nat) :
  forall ast p ast' p',
    Forall Q (tokens p) -> Forall (stmt_from Q) ast ->
    parse_loop fuel ast p = OK (ast', p') -> Forall (stmt_from Q) ast'.
Proof.
  induction fuel as [|fuel IH]; intros ast p ast' p' HQ Hast H;
    simpl in H; [discriminate|].
  bind_inv H. apply peek_OK in Hm as [-> ->].
  destruct (truthy (peek_at p)).
  - bind_inv H.
    pose proof (statement_consumes _ _ _ _ Hm) as [Ht _].
    eapply IH; [| |eassumption].
    + now rewrite Ht.
    + apply Forall_app. split; [assumption|].
      constructor; [|constructor]. eapply statement_from; eassumption.
  - inversion H; subst. assumption.
Qed.

Lemma parse_from (Q : string -> Prop) (toks : list string)
    (ast : list stmt) :
  Forall Q toks -> parse toks = OK ast -> Forall (stmt_from Q) ast.
Proof.
  intros HQ H. unfold parse in H.
  destruct (parse_loop (S (List.length toks)) [] (mkParser toks 0))
    as [[ast' p'] | e | |] eqn:Hloop; try discriminate.
  inversion H; subst.
  eapply (parse_loop_from Q); [| |eassumption]; [exact HQ | constructor].
Qed.

Lemma bind_Raise {A B} (m : parser A) (k : A -> parser B) p e :
  bind m k p = Raise e ->
  m p = Raise e \/ exists a p1, m p = OK (a, p1) /\ k a p1 = Raise e.
Proof.
  unfold bind. destruct (m p) as [[a p1] | e' | |]; try discriminate.
  - intros H. right. eauto.
  - intros H. left. inversion H. reflexivity.
Qed.

Lemma eat_raises value p e :
  eat value p = Raise e -> parser_error e.
Proof.
  unfold eat, bind, peek. destruct (truthy (peek_at p)); simpl.
  - destruct value as [v|]; [|discriminate].
    destruct (PyStr.nonempty v && negb (String.eqb _ v)); [|discriminate].
    intros H. inversion H. left. eauto.
  - intros H. inversion H. left. eauto.
Qed.

Lemma unicode_digit_not_ident_start (c : ascii) :
  PyStr.is_ident_start c = true -> PyStr.is_unicode_digit c = false.
Proof.
  destruct c as [[] [] [] [] [] [] [] []]; vm_compute; congruence.
Qed.

(** A token that passes [isdigit] is a run of ASCII digits, on which
    [int] returns. *)
Lemma token_isdigit_int (t : string) :
  token_class t = true -> PyStr.isdigit t = true ->
  exists n, PyStr.int t = Some n.
Proof.
  unfold token_class. intros H Hd.
  apply orb_prop in H as [H | H]; [apply orb_prop in H as [H | H];
    [apply orb_prop in H as [H | H]|]|].
  - destruct t as [|c w]; [discriminate|]. cbn [is_identifier] in H.
    apply andb_prop in H as [Hc _].
    unfold PyStr.isdigit in Hd. cbn [PyStr.nonempty PyStr.forallb_str] in Hd.
    rewrite (unicode_digit_not_ident_start c Hc) in Hd. discriminate Hd.
  - unfold PyStr.int. unfold PyEval.is_digits in H. rewrite H. eauto.
  - apply mem_In in H. simpl in H.
    destruct H as [<- | [<- | [<- | [<- | []]]]]; discriminate Hd.
  - apply mem_In in H. simpl in H.
    repeat (destruct H as [<- | H]; [discriminate Hd|]). destruct H.
Qed.

Ltac raise_inv H :=
  let a := fresh "a" in
  let p1 := fresh "p" in
  let H1 := fresh "Hm" in
  apply bind_Raise in H; destruct H as [H | [a [p1 [H1 H]]]].

Section ParserRaises.
Variable ex : parser node.
Hypothesis ex_consumes : consumes ex.
Hypothesis ex_raises :
  forall p e, Forall (fun t => token_class t = true) (tokens p) ->
              ex p = Raise e -> parser_error e.

Lemma factor_raises p e :
  Forall (fun t => token_class t = true) (tokens p) ->
  factor ex p = Raise e -> parser_error e.
Proof.
  intros HQ H. unfold factor in H. raise_inv H; [discriminate H|].
  apply peek_OK in Hm as [-> ->].
  destruct (peek_at p) as [t|] eqn:Hpeek.
  - destruct (PyStr.isdigit t) eqn:Hd.
    + raise_inv H; [now apply eat_raises in H|].
      rewrite Forall_forall in HQ.
      destruct (token_isdigit_int t (HQ t (peek_at_In _ _ Hpeek)) Hd)
        as [n Hn].
      rewrite Hn in H. discriminate H.
    + destruct (matches_ident t).
      * raise_inv H; [now apply eat_raises in H | discriminate H].
      * destruct (String.eqb t "(").
        -- raise_inv H; [now apply eat_raises in H|].
           apply eat_tokens in Hm as [T1 _].
           raise_inv H; [apply ex_raises in H; [assumption|];
                         now rewrite T1|].
           raise_inv H; [now apply eat_raises in H | discriminate H].
        -- inversion H. left. eauto.
  - inversion H. now right.
Qed.

Lemma binop_loop_raises ops (operand : parser node) :
  consumes operand ->
  (forall p e, Forall (fun t => token_class t = true) (tokens p) ->
               operand p = Raise e -> parser_error e) ->
  forall fuel lhs p e,
    Forall (fun t => token_class t = true) (tokens p) ->
    binop_loop ops operand fuel lhs p = Raise e -> parser_error e.
Proof.
  intros Hcons Hop. induction fuel as [|fuel IH]; intros lhs p e HQ H;
    simpl in H; [discriminate|].
  raise_inv H; [discriminate H|]. apply peek_OK in Hm as [-> ->].
  destruct (peek_at p) as [t|]; [|discriminate H].
  destruct (PyStr.mem t ops); [|discriminate H].
  raise_inv H; [now apply eat_raises in H|].
  apply eat_tokens in Hm as [T1 _].
  raise_inv H; [apply Hop in H; [assumption | now rewrite T1]|].
  apply Hcons in Hm as [T2 _].
  eapply IH; [|eassumption]. now rewrite T2, T1.
Qed.

Lemma term_raises fuel p e :
  Forall (fun t => token_class t = true) (tokens p) ->
  term ex fuel p = Raise e -> parser_error e.
Proof.
  intros HQ H. unfold term in H.
  raise_inv H; [now apply factor_raises in H|].
  apply (factor_consumes ex ex_consumes) in Hm as [T1 _].
  eapply binop_loop_raises; [| | |eassumption].
  - now apply factor_consumes.
  - apply factor_raises.
  - now rewrite T1.
Qed.

Lemma expr_body_raises fuel p e :
  Forall (fun t => token_class t = true) (tokens p) ->
  expr_body ex fuel p = Raise e -> parser_error e.
Proof.
  intros HQ H. unfold expr_body in H.
  raise_inv H; [now apply term_raises in H|].
  apply (term_consumes ex ex_consumes) in Hm as [T1 _].
  eapply binop_loop_raises; [| | |eassumption].
  - now apply term_consumes.
  - apply term_raises.
  - now rewrite T1.
Qed.
End ParserRaises.

Lemma expr_raises (fuel : nat) :
  forall p e, Forall (fun t => token_class t = true) (tokens p) ->
              expr fuel p = Raise e -> parser_error e.
Proof.
  induction fuel as [|fuel IH]; intros p e HQ H; simpl in H;
    [discriminate|].
  eapply expr_body_raises; [apply expr_progress | exact IH | | ];
    eassumption.
Qed.

Lemma statement_raises fuel p e :
  Forall (fun t => token_class t = true) (tokens p) ->
  statement fuel p = Raise e -> parser_error e.
Proof.
  intros HQ H. unfold statement in H. raise_inv H; [discriminate H|].
  apply peek_OK in Hm as [-> ->].
  destruct (match peek_at p with
            | Some t => String.eqb t "let" | None => false end).
  - raise_inv H; [now apply eat_raises in H|].
    apply eat_tokens in Hm as [T1 _].
    raise_inv H; [now apply eat_raises in H|].
    apply eat_tokens in Hm as [T2 _].
    raise_inv H; [now apply eat_raises in H|].
    apply eat_tokens in Hm as [T3 _].
    raise_inv H; [apply expr_raises in H; [assumption|];
                  now rewrite T3, T2, T1|].
    raise_inv H; [now apply eat_raises in H | discriminate H].
  - destruct (match peek_at p with
              | Some t => String.eqb t "print" | None => false end).
    + raise_inv H; [now apply eat_raises in H|].
      apply eat_tokens in Hm as [T1 _].
      raise_inv H; [now apply eat_raises in H|].
      apply eat_tokens in Hm as [T2 _].
      raise_inv H; [apply expr_raises in H; [assumption|];
                    now rewrite T2, T1|].
      raise_inv H; [now apply eat_raises in H|].
      raise_inv H; [now apply eat_raises in H | discriminate H].
    + inversion H. left. eauto.
Qed.

Lemma parse_loop_raises (fuel : nat) :
  forall ast p e,
    Forall (fun t => token_class t = true) (tokens p) ->
    parse_loop fuel ast p = Raise e -> parser_error e.
Proof.
  induction fuel as [|fuel IH]; intros ast p e HQ H; simpl in H;
    [discriminate|].
  raise_inv H; [discriminate H|]. apply peek_OK in Hm as [-> ->].
  destruct (truthy (peek_at p)); [|discriminate H].
  raise_inv H; [now apply statement_raises in H|].
  apply statement_consumes in Hm as [T1 _].
  eapply IH; [|eassumption]. now rewrite T1.
Qed.

Lemma parse_tokenize_cases (code : string) :
  match parse (tokenize code) with
  | OK _ => True
  | Raise e => parser_error e
  | OutOfFuel | Unmodelled => False
  end.
Proof.
  pose proof (parse_total (tokenize code)) as Htot. unfold parse in *.
  destruct (parse_loop (S (List.length (tokenize code))) []
              (mkParser (tokenize code) 0)) as [[ast p] | e | |] eqn:H;
    try exact Htot.
  eapply parse_loop_raises; [|exact H]. apply findall_classes.
Qed.

(** X12. On the tokens of any text, [parse] returns a program or raises
    SyntaxError or the AttributeError of [factor] at the end of the
    tokens: no ValueError comes from [int], since a token that passes
    [isdigit] is a run of ASCII digits. *)
Theorem parse_tokenize_outcomes (code : string) :
  match parse (tokenize code) with
  | OK _ => True
  | Raise e => parser_error e
  | OutOfFuel | Unmodelled => False
  end.
Proof. exact (parse_tokenize_cases code). Qed.

(* ================================================================== *)
(** * Further properties: after the parser nothing raises *)
(* ================================================================== *)

Lemma is_token_no_space (s : string) :
  is_token s = true -> no_space s = true.
Proof.
  intros H. destruct (is_token_parts s H) as [_ Hs]. unfold no_space.
  eapply forallb_str_impl; [|exact Hs].
  intros c Hc. apply negb_true_iff in Hc. apply negb_true_iff.
  destruct (Ascii.eqb c " ") eqn:E; [|reflexivity].
  apply Ascii.eqb_eq in E. subst c. discriminate Hc.
Qed.

Lemma prefix_sep_no_space (r : string) :
  no_space r = true -> prefix "= " r = false.
Proof.
  destruct r as [|c [|d r]]; [reflexivity | |].
  - intros _. rewrite prefix_cons. apply andb_false_r.
  - unfold no_space. cbn [PyStr.forallb_str]. intros H.
    apply andb_prop in H as [_ H]. apply andb_prop in H as [Hd _].
    apply negb_true_iff in Hd.
    rewrite !prefix_cons, (Ascii.eqb_sym " " d), Hd.
    now rewrite andb_false_r.
Qed.

Lemma split_sep_eq_operand (dest val : string) :
  no_space dest = true -> no_space val = true ->
  PyStr.split_sep " = " (dest +++ " = " +++ val) = [dest; val].
Proof.
  intros Hn Hv. unfold PyStr.split_sep.
  rewrite split_sep_go_word by assumption.
  sep_simpl. now rewrite split_sep_go_last_word.
Qed.

Lemma split_sep_eq_operation (dest lhs op rhs : string) :
  no_space dest = true -> no_space lhs = true -> binary_op op ->
  no_space rhs = true ->
  PyStr.split_sep " = " (dest +++ " = " +++ lhs +++ " " +++ op +++ " " +++ rhs)
  = [dest; lhs +++ " " +++ op +++ " " +++ rhs].
Proof.
  intros Hn Hl Hop Hr. unfold PyStr.split_sep.
  rewrite split_sep_go_word by assumption.
  pose proof (prefix_sep_no_space rhs Hr) as Hpre.
  apply mem_In in Hop.
  destruct Hop as [<- | [<- | [<- | [<- | []]]]]; sep_simpl;
    rewrite split_sep_go_word by assumption; sep_simpl;
    rewrite Hpre, split_sep_go_last_word by assumption;
    now rewrite !append_assoc.
Qed.

Lemma binary_op_is_token (op : string) : binary_op op -> is_token op = true.
Proof.
  intros H. apply mem_In in H.
  destruct H as [<- | [<- | [<- | [<- | []]]]]; reflexivity.
Qed.

Lemma node_from_sat (e : node) :
  node_from token_text e -> node_sat token_text binary_op e.
Proof.
  induction e as [n | x | op l IHl r IHr]; simpl.
  - intros Hn. apply word_text_is_token, is_digits_word_text.
    now apply str_nonneg_digits.
  - now intros [H _].
  - intros [Hop [Hl Hr]]. repeat split; auto.
Qed.



(* ================================================================== *)
(** * Further properties: the generated code computes the program *)
(* ================================================================== *)

(** A text without a space cannot start before a space and end after
    it. *)
Lemma prefix_before_space (sub : string) :
  forall a b,
    PyStr.nonempty sub = true -> no_space sub = true ->
    prefix sub (a +++ String " " b) = prefix sub a.
Proof.
  induction sub as [|s0 sub IH]; intros a b Hne Hns; [discriminate|].
  unfold no_space in Hns. cbn [PyStr.forallb_str] in Hns.
  apply andb_prop in Hns as [Hs0 Hsub]. apply negb_true_iff in Hs0.
  destruct a as [|x a]; cbn [append].
  - rewrite prefix_cons, Hs0. reflexivity.
  - rewrite !prefix_cons. destruct sub as [|s1 sub'].
    + now rewrite !prefix_empty.
    + now rewrite (IH a b eq_refl Hsub).
Qed.

Lemma contains_around_space (sub a b : string) :
  PyStr.nonempty sub = true -> no_space sub = true ->
  PyStr.contains sub (a +++ String " " b) =
  PyStr.contains sub a || PyStr.contains sub b.
Proof.
  intros Hne Hns. induction a as [|x a IH].
  - cbn [append PyStr.contains].
    change (String " " b) with (EmptyString +++ String " " b).
    rewrite (prefix_before_space sub EmptyString b Hne Hns).
    destruct sub; [discriminate | reflexivity].
  - cbn [append PyStr.contains].
    change (String x (a +++ String " " b))
      with (String x a +++ String " " b).
    rewrite (prefix_before_space sub (String x a) b Hne Hns), IH.
    now rewrite orb_assoc.
Qed.

(** A text in which the first character of [sub] does not occur does not
    contain [sub]. *)
Lemma contains_without_head (c : ascii) (sub s : string) :
  PyStr.forallb_str (fun x => negb (Ascii.eqb c x)) s = true ->
  PyStr.contains (String c sub) s = false.
Proof.
  induction s as [|x s IH]; [reflexivity|].
  cbn [PyStr.forallb_str PyStr.contains]. intros H.
  apply andb_prop in H as [Hx Hs]. apply negb_true_iff in Hx.
  now rewrite prefix_cons, Hx, (IH Hs).
Qed.

Lemma digit_not_P (c : ascii) :
  PyStr.is_ascii_digit c = true -> negb (Ascii.eqb "P" c) = true.
Proof.
  destruct c as [[] [] [] [] [] [] [] []]; vm_compute; congruence.
Qed.

Lemma digits_no_PRINT (s : string) :
  PyEval.is_digits s = true -> PyStr.contains "PRINT" s = false.
Proof.
  unfold PyEval.is_digits. intros H. apply andb_prop in H as [_ H].
  apply contains_without_head.
  eapply forallb_str_impl; [apply digit_not_P | exact H].
Qed.

Lemma temp_no_PRINT (n : nat) : PyStr.contains "PRINT" (temp n) = false.
Proof.
  unfold temp. apply contains_without_head.
  cbn [append PyStr.forallb_str]. cbn [Ascii.eqb Bool.eqb negb andb].
  pose proof (str_nat_digits n) as H. unfold PyEval.is_digits in H.
  apply andb_prop in H as [_ H].
  eapply forallb_str_impl; [apply digit_not_P | exact H].
Qed.

Lemma temp_is_temp_name (n : nat) : is_temp_name (temp n) = true.
Proof. unfold temp. simpl. apply str_nat_digits. Qed.

Lemma temp_inj (n m : nat) : temp n = temp m -> n = m.
Proof.
  unfold temp. simpl. intros H. inversion H. now apply str_nat_inj.
Qed.

Lemma user_name_parts (x : string) :
  user_name x = true ->
  PyEval.plain_name x = true /\ is_temp_name x = false /\
  PyStr.contains "PRINT" x = false.
Proof.
  unfold user_name. intros H. apply andb_prop in H as [H Hp].
  apply andb_prop in H as [H Ht]. apply negb_true_iff in Hp, Ht. auto.
Qed.

Lemma user_name_not_temp (x : string) (n : nat) :
  user_name x = true -> x <> temp n.
Proof.
  intros H ->. apply user_name_parts in H as [_ [H _]].
  rewrite temp_is_temp_name in H. discriminate H.
Qed.

Lemma ident_start_not_digit (c : ascii) :
  PyStr.is_ident_start c = true -> PyStr.is_ascii_digit c = false.
Proof.
  destruct c as [[] [] [] [] [] [] [] []]; vm_compute; congruence.
Qed.

Lemma ascii_ident_not_digits (x : string) :
  PyEval.ascii_ident x = true -> PyEval.is_digits x = false.
Proof.
  destruct x as [|c x]; [discriminate|]. cbn [PyEval.ascii_ident].
  intros H. apply andb_prop in H as [Hc _].
  unfold PyEval.is_digits. cbn [PyStr.nonempty PyStr.forallb_str].
  now rewrite (ident_start_not_digit c Hc).
Qed.

Lemma digits_not_temp (k : string) (n : nat) :
  PyEval.is_digits k = true -> k <> temp n.
Proof.
  intros H ->.
  rewrite (ascii_ident_not_digits (temp n)) in H; [discriminate H|].
  apply plain_name_ascii_ident, temp_plain_name.
Qed.

Lemma run_from_app (l1 l2 : list string) :
  forall st,
    run_from st (l1 ++ l2) =
    lift (run_from st l1) (fun st' => run_from st' l2).
Proof.
  induction l1 as [|line l1 IH]; intros st; simpl; [reflexivity|].
  destruct (exec_line line st); try reflexivity. apply IH.
Qed.

Lemma expr_code_binop (op : string) (l r : node) (tc : nat) :
  expr_operand (BinOp op l r) tc =
    temp (tc + count_binops l + count_binops r + 1) /\
  expr_lines (BinOp op l r) tc =
    expr_lines l tc ++ expr_lines r (tc + count_binops l) ++
    [temp (tc + count_binops l + count_binops r + 1) +++ " = " +++
     expr_operand l tc +++ " " +++ op +++ " " +++
     expr_operand r (tc + count_binops l)].
Proof.
  unfold expr_operand at 1, expr_lines at 1. simpl.
  rewrite (generate_TAC_expr_appends l [] tc). simpl.
  rewrite (generate_TAC_expr_appends r (expr_lines l tc)). simpl.
  split; [reflexivity|]. now rewrite <- List.app_assoc.
Qed.

Lemma eval_operand_literal memory (n : Z) :
  (0 <= n)%Z -> PyEval.eval_operand memory (PyStr.str n) = OK (VInt n).
Proof.
  intros Hn. unfold PyEval.eval_operand.
  rewrite (str_nonneg_digits n Hn). unfold PyEval.eval_literal.
  rewrite int_go_str by assumption.
  destruct n as [|p|p]; [reflexivity | | lia].
  now rewrite (proj2 (str_pos p)).
Qed.

Lemma eval_name_plain_lookup memory x :
  PyEval.plain_name x = true ->
  PyEval.eval_name memory x =
  match dict_get memory x with
  | Some v => OK v
  | None => Raise (NameError ("name '" +++ x +++ "' is not defined"))
  end.
Proof.
  unfold PyEval.plain_name, PyEval.eval_name. intros Hp.
  apply andb_prop in Hp as [Hp Hvar]. apply andb_prop in Hp as [Hp Hbi].
  apply andb_prop in Hp as [Hp Hdu]. apply andb_prop in Hp as [Hid Hkw].
  apply negb_true_iff in Hvar, Hbi, Hdu, Hkw.
  rewrite Hid, Hkw, Hdu. cbn [negb orb].
  destruct (dict_get memory x); [reflexivity|]. now rewrite Hbi, Hvar.
Qed.

Lemma eval_operand_plain_lookup memory x :
  PyEval.plain_name x = true ->
  PyEval.eval_operand memory x =
  match dict_get memory x with
  | Some v => OK v
  | None => Raise (NameError ("name '" +++ x +++ "' is not defined"))
  end.
Proof.
  intros Hp. unfold PyEval.eval_operand.
  rewrite (ascii_ident_not_digits x (plain_name_ascii_ident x Hp)).
  now apply eval_name_plain_lookup.
Qed.

Lemma eval_operand_user env memory x :
  user_name x = true -> represents env memory ->
  agrees (PyEval.eval_operand memory x) (dict_get env x).
Proof.
  intros Hx [Hrep _]. destruct (user_name_parts x Hx) as [Hp _].
  rewrite (eval_operand_plain_lookup memory x Hp), (Hrep x Hx).
  destruct (dict_get env x); simpl; eauto.
Qed.

Lemma no_PRINT_space (a b : string) :
  PyStr.contains "PRINT" (a +++ String " " b) =
  PyStr.contains "PRINT" a || PyStr.contains "PRINT" b.
Proof. now apply contains_around_space. Qed.

Lemma no_PRINT_assign (dest val : string) :
  PyStr.contains "PRINT" dest = false ->
  PyStr.contains "PRINT" val = false ->
  PyStr.contains "PRINT" (dest +++ " = " +++ val) = false.
Proof.
  intros Hd Hv.
  change (dest +++ " = " +++ val)
    with (dest +++ String " " ("=" +++ String " " val)).
  rewrite !no_PRINT_space, Hd, Hv. reflexivity.
Qed.

Lemma no_PRINT_compute (dest lhs op rhs : string) :
  PyStr.contains "PRINT" dest = false ->
  PyStr.contains "PRINT" lhs = false ->
  plain_op op ->
  PyStr.contains "PRINT" rhs = false ->
  PyStr.contains "PRINT"
    (dest +++ " = " +++ lhs +++ " " +++ op +++ " " +++ rhs) = false.
Proof.
  intros Hd Hl Hop Hr.
  change (dest +++ " = " +++ lhs +++ " " +++ op +++ " " +++ rhs)
    with (dest +++ String " " ("=" +++ String " "
            (lhs +++ String " " (op +++ String " " rhs)))).
  rewrite !no_PRINT_space, Hd, Hl, Hr.
  apply mem_In in Hop.
  destruct Hop as [<- | [<- | [<- | []]]]; reflexivity.
Qed.

(** A line [dest = rhs] without [PRINT] in it that [split(" = ")] cuts in
    two stores the value of [rhs], zero where [eval] raises. *)
Lemma exec_store_value dest rhs memory printed (v : option Z) :
  PyStr.contains "PRINT" (dest +++ " = " +++ rhs) = false ->
  PyStr.split_sep " = " (dest +++ " = " +++ rhs) = [dest; rhs] ->
  agrees (PyEval.eval rhs memory) v ->
  exec_line (dest +++ " = " +++ rhs) (memory, printed) =
  OK (dict_set memory dest (VInt (value_or_zero v)), printed).
Proof.
  intros Hp Hsep Hv. unfold exec_line.
  rewrite contains_eq_sign, Hp, Hsep. cbn [negb andb].
  destruct v as [z|]; simpl in Hv.
  - now rewrite Hv.
  - destruct Hv as [err ->]. reflexivity.
Qed.

Lemma int_arith_apply (op : string) (a b : Z) :
  plain_op op -> PyEval.int_arith op a b = OK (VInt (apply_op op a b)).
Proof.
  intros Hop. apply mem_In in Hop.
  destruct Hop as [<- | [<- | [<- | []]]]; reflexivity.
Qed.

(** The value [eval] gives to an operation on two operands whose
    evaluations agree with [va] and [vb]. *)
Lemma eval_operation memory lhs op rhs (va vb : option Z) :
  word_text lhs = true -> plain_op op -> word_text rhs = true ->
  agrees (PyEval.eval_operand memory lhs) va ->
  agrees (PyEval.eval_operand memory rhs) vb ->
  agrees (PyEval.eval (lhs +++ " " +++ op +++ " " +++ rhs) memory)
    (match va, vb with
     | Some a, Some b => Some (apply_op op a b)
     | _, _ => None
     end).
Proof.
  intros Hl Hop Hr Ha Hb. unfold PyEval.eval.
  rewrite split_sep_space_binary by assumption.
  rewrite (plain_op_binary op Hop). cbn [negb].
  destruct va as [a|]; simpl in Ha; destruct vb as [b|]; simpl in Hb.
  - rewrite Ha, Hb. unfold PyEval.arith.
    rewrite (plain_op_binary op Hop). cbn [negb].
    now rewrite int_arith_apply.
  - destruct Hb as [e ->]. rewrite Ha. simpl. destruct e; eauto.
  - destruct Ha as [e ->]. rewrite Hb. simpl. destruct e; eauto.
  - destruct Ha as [e ->]. destruct Hb as [e' ->]. simpl.
    destruct e; destruct e'; eauto.
Qed.

Lemma eval_operand_ext memory1 memory2 s :
  dict_get memory2 s = dict_get memory1 s ->
  PyEval.eval_operand memory2 s = PyEval.eval_operand memory1 s.
Proof.
  intros H. unfold PyEval.eval_operand, PyEval.eval_name. now rewrite H.
Qed.

Lemma represents_outside env m1 m2 lo hi :
  represents env m1 -> same_outside lo hi m1 m2 -> represents env m2.
Proof.
  intros [H1 H2] Hout. split.
  - intros x Hx. rewrite Hout; [now apply H1|].
    intros i _. now apply user_name_not_temp.
  - intros k Hk. rewrite Hout; [now apply H2|].
    intros i _. now apply digits_not_temp.
Qed.

(** The operand of a simple expression: a word without [PRINT], which no
    temporary numbered above those of the expression can be. *)
Lemma operand_text (e : node) (tc : nat) :
  simple_node e = true ->
  word_text (expr_operand e tc) = true /\
  PyStr.contains "PRINT" (expr_operand e tc) = false /\
  (forall i, tc + count_binops e < i -> expr_operand e tc <> temp i).
Proof.
  destruct e as [n | x | op l r]; intros H.
  - simpl in H. apply Z.leb_le in H.
    pose proof (str_nonneg_digits n H) as Hd.
    change (expr_operand (Num n) tc) with (PyStr.str n).
    repeat split.
    + now apply is_digits_word_text.
    + now apply digits_no_PRINT.
    + intros i _. now apply digits_not_temp.
  - simpl in H. change (expr_operand (Var x) tc) with x.
    destruct (user_name_parts x H) as [Hp [_ Hnp]]. repeat split.
    + now apply ascii_ident_word_text, plain_name_ascii_ident.
    + assumption.
    + intros i _. now apply user_name_not_temp.
  - rewrite (proj1 (expr_code_binop op l r tc)). repeat split.
    + apply ascii_ident_word_text, plain_name_ascii_ident, temp_plain_name.
    + apply temp_no_PRINT.
    + intros i Hi Heq. apply temp_inj in Heq. simpl in Hi. lia.
Qed.

(** The evaluation of the operand of an expression agrees with the value
    of the expression, in a memory that represents the variables and where
    the temporary of an operation holds its value. *)
Lemma operand_agrees env memory (e : node) (tc : nat) :
  simple_node e = true -> represents env memory ->
  operand_holds env memory e tc ->
  agrees (PyEval.eval_operand memory (expr_operand e tc))
    (operand_value env e).
Proof.
  destruct e as [n | x | op l r]; intros H Hrep Hholds.
  - simpl in H. apply Z.leb_le in H. simpl.
    now apply eval_operand_literal.
  - now apply eval_operand_user.
  - unfold operand_holds in Hholds.
    rewrite (proj1 (expr_code_binop op l r tc)) in *.
    set (k := tc + count_binops l + count_binops r + 1) in *.
    rewrite (eval_operand_plain_lookup memory (temp k) (temp_plain_name k)).
    rewrite Hholds. reflexivity.
Qed.

Lemma same_outside_refl lo hi m : same_outside lo hi m m.
Proof. intros k _. reflexivity. Qed.

Lemma same_outside_trans lo mid hi m1 m2 m3 :
  lo <= mid <= hi ->
  same_outside lo mid m1 m2 -> same_outside mid hi m2 m3 ->
  same_outside lo hi m1 m3.
Proof.
  intros Hm H12 H23 k Hk. rewrite H23, H12; [reflexivity | |];
    intros i Hi; apply Hk; lia.
Qed.

Lemma same_outside_set lo hi m k v :
  lo < k <= hi -> same_outside lo hi m (dict_set m (temp k) v).
Proof.
  intros Hk x Hx. rewrite dict_get_set.
  destruct (String.eqb x (temp k)) eqn:E; [|reflexivity].
  apply String.eqb_eq in E. now apply Hx in E.
Qed.

(** The lines of an expression run without an exception, write only the
    temporaries of the expression, and leave the temporary of an operation
    holding the value of the operation. *)
Lemma expr_lines_run (e : node) :
  forall env memory printed tc,
    simple_node e = true -> represents env memory ->
    exists memory',
      run_from (memory, printed) (expr_lines e tc) = OK (memory', printed) /\
      same_outside tc (tc + count_binops e) memory memory' /\
      operand_holds env memory' e tc.
Proof.
  induction e as [n | x | op l IHl r IHr];
    intros env memory printed tc He Hrep.
  - exists memory.
    split; [reflexivity | split; [apply same_outside_refl | exact I]].
  - exists memory.
    split; [reflexivity | split; [apply same_outside_refl | exact I]].
  - cbn [simple_node] in He. apply andb_prop in He as [He Hr].
    apply andb_prop in He as [Hop Hl].
    destruct (IHl env memory printed tc Hl Hrep) as [m1 [Run1 [Out1 Hold1]]].
    pose proof (represents_outside _ _ _ _ _ Hrep Out1) as Rep1.
    destruct (IHr env m1 printed (tc + count_binops l) Hr Rep1)
      as [m2 [Run2 [Out2 Hold2]]].
    pose proof (represents_outside _ _ _ _ _ Rep1 Out2) as Rep2.
    destruct (operand_text l tc Hl) as [Wl [Pl Tl]].
    destruct (operand_text r (tc + count_binops l) Hr) as [Wr [Pr _]].
    set (k := tc + count_binops l + count_binops r + 1).
    assert (Ha : agrees (PyEval.eval_operand m2 (expr_operand l tc))
                   (operand_value env l)).
    { rewrite (eval_operand_ext m1 m2).
      - now apply operand_agrees.
      - apply Out2. intros i Hi. apply Tl. lia. }
    assert (Hb : agrees (PyEval.eval_operand m2
                           (expr_operand r (tc + count_binops l)))
                   (operand_value env r))
      by now apply operand_agrees.
    pose proof (eval_operation m2 _ op _ _ _ Wl Hop Wr Ha Hb) as Hev.
    set (v := match operand_value env l, operand_value env r with
              | Some a, Some b => Some (apply_op op a b)
              | _, _ => None
              end) in Hev.
    assert (Hv : value_or_zero v = stored_value env (BinOp op l r)).
    { unfold v, stored_value. simpl.
      now destruct (operand_value env l), (operand_value env r). }
    destruct (expr_code_binop op l r tc) as [Eop Elines].
    fold k in Eop, Elines.
    set (rhs := expr_operand l tc +++ " " +++ op +++ " " +++
                expr_operand r (tc + count_binops l)) in *.
    assert (Hnp : PyStr.contains "PRINT" (temp k +++ " = " +++ rhs) = false).
    { apply no_PRINT_compute; try assumption. apply temp_no_PRINT. }
    assert (Hsep : PyStr.split_sep " = " (temp k +++ " = " +++ rhs) =
                   [temp k; rhs]).
    { apply split_sep_eq_binary; try assumption.
      apply ascii_ident_word_text, plain_name_ascii_ident,
        temp_plain_name. }
    exists (dict_set m2 (temp k)
              (VInt (stored_value env (BinOp op l r)))).
    split; [|split].
    + rewrite Elines, run_from_app, Run1. cbn [lift].
      rewrite run_from_app, Run2. cbn [lift run_from].
      rewrite (exec_store_value (temp k) rhs m2 printed v Hnp Hsep Hev).
      now rewrite Hv.
    + simpl count_binops.
      apply (same_outside_trans tc (tc + count_binops l + count_binops r)
               _ memory m2); [lia | |].
      * apply (same_outside_trans tc (tc + count_binops l) _ memory m1);
          [lia | exact Out1 | exact Out2].
      * replace (tc + (count_binops l + count_binops r + 1)) with k
          by (unfold k; lia).
        apply same_outside_set. unfold k. lia.
    + unfold operand_holds. rewrite Eop, dict_get_set.
      now rewrite String.eqb_refl.
Qed.

Lemma generate_TAC_cons (s : stmt) (rest : list stmt) (tc : nat) :
  fst (generate_TAC (s :: rest) tc) =
  expr_lines (stmt_expr s) tc ++
  [match s with
   | Assign name _ => name +++ " = " +++ expr_operand (stmt_expr s) tc
   | Print _ => "PRINT " +++ expr_operand (stmt_expr s) tc
   end] ++
  fst (generate_TAC rest (tc + count_binops (stmt_expr s))).
Proof.
  unfold generate_TAC.
  destruct s as [name e | e]; simpl;
    rewrite (generate_TAC_expr_appends e [] tc); simpl;
    rewrite generate_TAC_from_appends; simpl;
    now rewrite <- List.app_assoc.
Qed.

Lemma eval_word memory s :
  word_text s = true -> PyEval.eval s memory = PyEval.eval_operand memory s.
Proof.
  intros H. unfold PyEval.eval. now rewrite split_sep_space_word.
Qed.

Lemma user_name_word (x : string) :
  user_name x = true -> word_text x = true.
Proof.
  intros H. apply user_name_parts in H as [H _].
  now apply ascii_ident_word_text, plain_name_ascii_ident.
Qed.

Lemma represents_set env memory x (v : Z) :
  user_name x = true -> represents env memory ->
  represents (dict_set env x v) (dict_set memory x (VInt v)).
Proof.
  intros Hx [H1 H2]. split.
  - intros y Hy. rewrite !dict_get_set.
    destruct (String.eqb y x); [reflexivity | now apply H1].
  - intros k Hk. rewrite dict_get_set.
    destruct (String.eqb k x) eqn:E; [|now apply H2].
    apply String.eqb_eq in E. subst k.
    apply user_name_parts in Hx as [Hx _].
    rewrite (ascii_ident_not_digits x (plain_name_ascii_ident x Hx)) in Hk.
    discriminate Hk.
Qed.

(** What a print line appends for the operand of an expression. *)
Lemma printed_operand env memory (e : node) (tc : nat) :
  simple_node e = true -> represents env memory ->
  operand_holds env memory e tc ->
  memory_get memory (expr_operand e tc) = VInt (printed_value env e).
Proof.
  destruct e as [n | x | op l r]; intros H [H1 H2] Hholds;
    unfold memory_get.
  - simpl in H. apply Z.leb_le in H.
    change (expr_operand (Num n) tc) with (PyStr.str n).
    now rewrite (H2 _ (str_nonneg_digits n H)).
  - change (expr_operand (Var x) tc) with x. simpl in H.
    rewrite (H1 x H). unfold printed_value, stored_value. simpl.
    now destruct (dict_get env x).
  - unfold operand_holds in Hholds. now rewrite Hholds.
Qed.

Lemma generated_code_runs (ast : list stmt) :
  forall env memory out tc,
    simple_program ast = true -> represents env memory ->
    exists memory',
      run_from (memory, map VInt out) (fst (generate_TAC ast tc)) =
        OK (memory', map VInt (snd (direct_run env out ast))) /\
      represents (fst (direct_run env out ast)) memory'.
Proof.
  induction ast as [|s ast IH]; intros env memory out tc Hast Hrep.
  - exists memory. split; [reflexivity | exact Hrep].
  - cbn [simple_program forallb] in Hast.
    apply andb_prop in Hast as [Hs Hast].
    rewrite generate_TAC_cons, run_from_app.
    destruct s as [x e | e]; cbn [simple_stmt stmt_expr] in *.
    + apply andb_prop in Hs as [Hx He].
      destruct (expr_lines_run e env memory (map VInt out) tc He Hrep)
        as [m1 [Run1 [Out1 Hold1]]].
      pose proof (represents_outside _ _ _ _ _ Hrep Out1) as Rep1.
      destruct (operand_text e tc He) as [We [Pe _]].
      rewrite Run1. cbn [lift]. rewrite run_from_app. cbn [run_from].
      rewrite (exec_store_value x (expr_operand e tc) m1 (map VInt out)
                 (operand_value env e)).
      * cbn [lift direct_run].
        apply (IH (dict_set env x (stored_value env e))); [exact Hast|].
        now apply represents_set.
      * apply no_PRINT_assign; [|exact Pe].
        now apply user_name_parts in Hx.
      * apply split_sep_eq_word; [now apply user_name_word | exact We].
      * rewrite (eval_word _ _ We). now apply operand_agrees.
    + destruct (expr_lines_run e env memory (map VInt out) tc Hs Hrep)
        as [m1 [Run1 [Out1 Hold1]]].
      pose proof (represents_outside _ _ _ _ _ Hrep Out1) as Rep1.
      destruct (operand_text e tc Hs) as [We _].
      rewrite Run1. cbn [lift]. rewrite run_from_app. cbn [run_from].
      rewrite exec_print_line by now apply word_text_is_token.
      rewrite (printed_operand env m1 e tc Hs Rep1 Hold1).
      cbn [lift direct_run].
      replace (map VInt out ++ [VInt (printed_value env e)])
        with (map VInt (out ++ [printed_value env e]))
        by now rewrite map_app.
      now apply IH.
Qed.

(** X14. The code generated for a program over [+ - *] whose identifiers
    are user names computes the program: the output loop returns, prints
    the values the statements print when they are run on the syntax tree,
    and leaves each variable with the value the statements give it. *)
Theorem generated_code_computes_program (ast : list stmt) (tc : nat) :
  simple_program ast = true ->
  exists memory,
    run (fst (generate_TAC ast tc)) =
      OK (memory, map VInt (snd (direct_run [] [] ast))) /\
    (forall x, user_name x = true ->
       dict_get memory x =
       option_map VInt (dict_get (fst (direct_run [] [] ast)) x)).
Proof.
  intros Hast.
  destruct (generated_code_runs ast [] [] [] tc Hast) as [m [Hrun [H1 _]]].
  - split; intros; reflexivity.
  - exists m. split; assumption.
Qed.

Lemma generated_code_computes_program_witness :
  simple_program
    [Assign "a" (BinOp "+" (Num 2) (BinOp "*" (Num 3) (Num 4)));
     Assign "b" (BinOp "-" (Var "a") (Var "c"));
     Print (BinOp "*" (Var "a") (Var "a")); Print (Var "b"); Print (Num 7)]
    = true /\
  exists memory,
    run (fst (generate_TAC
           [Assign "a" (BinOp "+" (Num 2) (BinOp "*" (Num 3) (Num 4)));
            Assign "b" (BinOp "-" (Var "a") (Var "c"));
            Print (BinOp "*" (Var "a") (Var "a")); Print (Var "b");
            Print (Num 7)] 0)) =
      OK (memory, [VInt 196; VInt 0; VInt 0]) /\
    (forall x, user_name x = true ->
       dict_get memory x =
       option_map VInt (dict_get [("a", 14%Z); ("b", 0%Z)] x)).
Proof.
  split; [vm_compute; reflexivity|].
  apply (generated_code_computes_program
           [Assign "a" (BinOp "+" (Num 2) (BinOp "*" (Num 3) (Num 4)));
            Assign "b" (BinOp "-" (Var "a") (Var "c"));
            Print (BinOp "*" (Var "a") (Var "a")); Print (Var "b");
            Print (Num 7)] 0).
  vm_compute. reflexivity.
Defined.

(* ================================================================== *)
(** * Further properties: what the parser reads *)
(* ================================================================== *)

Lemma move_0 (q : Parser) : move q 0 = q.
Proof. destruct q as [t n]. unfold move. simpl. now rewrite Nat.add_0_r. Qed.

Lemma move_move (q : Parser) (a b : nat) : move (move q a) b = move q (a + b).
Proof. unfold move. simpl. now rewrite Nat.add_assoc. Qed.

Lemma same_window_move (n m d : nat) (p p1 q : Parser) :
  same_window n p q -> tokens p1 = tokens p -> pos p1 = pos p + d ->
  d + m <= n -> same_window m p1 (move q d).
Proof.
  intros H Ht Hp Hle i Hi. unfold move. simpl. rewrite Ht, Hp.
  rewrite <- !Nat.add_assoc. apply H. lia.
Qed.

Lemma same_window_le (n m : nat) (p q : Parser) :
  same_window n p q -> m <= n -> same_window m p q.
Proof. intros H Hle i Hi. apply H. lia. Qed.

Lemma reads_weaken {A} (s c s' c' : nat) (m m' : parser A) :
  reads s c m m' -> s <= s' -> c' <= c -> reads s' c' m m'.
Proof.
  intros H Hs Hc p a p' Hm.
  destruct (H p a p' Hm) as [Ht [Hp [Hb Hq]]].
  split; [exact Ht|]. split; [lia|]. split; [exact Hb|].
  intros q Hw. apply Hq. eapply same_window_le; [exact Hw | lia].
Qed.

Lemma reads_ret {A} (a : A) : reads 0 0 (ret a) (ret a).
Proof.
  intros p b p' H. inversion H; subst.
  split; [reflexivity|]. split; [lia|]. split; [auto|].
  intros q _. rewrite Nat.sub_diag, move_0. reflexivity.
Qed.

Lemma reads_raise {A} (s c : nat) (e : exn) (m' : parser A) :
  reads s c (raise e) m'.
Proof. intros p b p' H. discriminate H. Qed.

Lemma reads_bind {A B} (s1 c1 s2 c2 : nat)
    (m m' : parser A) (k k' : A -> parser B) :
  reads s1 c1 m m' -> (forall a, reads s2 c2 (k a) (k' a)) ->
  s1 <= s2 + c2 ->
  reads s2 (c1 + c2) (bind m k) (bind m' k').
Proof.
  intros Hm Hk Hs p b p2 H.
  apply bind_OK in H as [a [p1 [H1 H]]].
  destruct (Hm _ _ _ H1) as [Ht1 [Hp1 [Hb1 Hq1]]].
  destruct (Hk _ _ _ _ H) as [Ht2 [Hp2 [Hb2 Hq2]]].
  split; [congruence|]. split; [lia|].
  split; [intros Hle; rewrite <- Ht1; apply Hb2; rewrite Ht1; auto|].
  intros q Hw. unfold bind.
  rewrite (Hq1 q) by (eapply same_window_le; [exact Hw | lia]).
  rewrite (Hq2 (move q (pos p1 - pos p))).
  - rewrite move_move. do 3 f_equal. lia.
  - eapply same_window_move; [exact Hw | exact Ht1 | lia | lia].
Qed.

(** [peek] reads the next token. *)
Lemma reads_peek_bind {A} (s c : nat) (k k' : option string -> parser A) :
  (forall tok, reads s c (k tok) (k' tok)) -> 1 <= s + c ->
  reads s c (bind peek k) (bind peek k').
Proof.
  intros Hk Hs p b p2 H. unfold bind, peek in H.
  destruct (Hk _ _ _ _ H) as [Ht [Hp [Hb Hq]]].
  split; [exact Ht|]. split; [exact Hp|]. split; [exact Hb|].
  intros q Hw. unfold bind, peek.
  assert (Hpeek : peek_at q = peek_at p).
  { unfold peek_at. specialize (Hw 0). rewrite !Nat.add_0_r in Hw.
    apply Hw. lia. }
  rewrite Hpeek. now apply Hq.
Qed.

Lemma reads_eat value : reads 0 1 (eat value) (eat value).
Proof.
  intros p t p' H. pose proof H as H0.
  apply eat_OK in H as [Hpeek [_ [-> _]]]. simpl.
  assert (Hlt : pos p < List.length (tokens p))
    by (apply nth_error_Some; unfold peek_at in Hpeek; congruence).
  split; [reflexivity|]. split; [lia|]. split; [lia|].
  intros q Hw. replace (pos p + 1 - pos p) with 1 in * by lia.
  assert (Hq : peek_at q = peek_at p).
  { unfold peek_at. specialize (Hw 0). rewrite !Nat.add_0_r in Hw.
    apply Hw. lia. }
  revert H0. unfold eat, bind, peek. rewrite Hq.
  destruct (negb (truthy (peek_at p))); [discriminate|].
  destruct value as [v|].
  - destruct (PyStr.nonempty v && negb (String.eqb _ v)); [discriminate|].
    unfold advance, ret. intros H0. inversion H0. reflexivity.
  - unfold advance, ret. intros H0. inversion H0. reflexivity.
Qed.

Lemma reads_eat_then {A} (s c : nat) value (k k' : string -> parser A) :
  (forall t, reads s c (k t) (k' t)) ->
  reads s 1 (bind (eat value) k) (bind (eat value) k').
Proof.
  intros Hk.
  apply (reads_weaken s (1 + c)); [|lia|lia].
  apply (reads_bind 0 1 s c); [apply reads_eat | exact Hk | lia].
Qed.

Section ParserReads.
Variables ex ex' : parser node.
Hypothesis ex_reads : reads 1 1 ex ex'.

Lemma factor_reads : reads 0 1 (factor ex) (factor ex').
Proof.
  unfold factor. apply reads_peek_bind; [|lia]. intros [t|].
  - destruct (PyStr.isdigit t).
    + apply reads_eat_then with (c := 0). intros _.
      destruct (PyStr.int t); [apply reads_ret | apply reads_raise].
    + destruct (matches_ident t).
      * apply reads_eat_then with (c := 0). intros _. apply reads_ret.
      * destruct (String.eqb t "("); [|apply reads_raise].
        apply reads_eat_then with (c := 2). intros _.
        apply (reads_bind 1 1 0 1); [exact ex_reads | | lia].
        intros n. apply reads_eat_then with (c := 0). intros _.
        apply reads_ret.
  - apply reads_raise.
Qed.

Lemma binop_loop_reads ops (operand operand' : parser node) :
  reads 1 1 operand operand' ->
  forall fuel fuel' lhs,
    fuel <= fuel' ->
    reads 1 0 (binop_loop ops operand fuel lhs)
              (binop_loop ops operand' fuel' lhs).
Proof.
  intros Hop. induction fuel as [|fuel IH]; intros fuel' lhs Hle.
  - intros p a p' H. discriminate H.
  - destruct fuel' as [|fuel']; [lia|]. cbn [binop_loop].
    apply reads_peek_bind; [|lia]. intros [t|].
    + destruct (PyStr.mem t ops).
      * apply (reads_weaken 1 (1 + 1)); [|lia|lia].
        apply (reads_bind 0 1 1 1); [apply reads_eat | | lia].
        intros op.
        apply (reads_bind 1 1 1 0); [exact Hop | | lia].
        intros rhs. apply IH. lia.
      * apply (reads_weaken 0 0); [apply reads_ret | lia | lia].
    + apply (reads_weaken 0 0); [apply reads_ret | lia | lia].
Qed.

Lemma term_reads fuel fuel' :
  fuel <= fuel' -> reads 1 1 (term ex fuel) (term ex' fuel').
Proof.
  intros Hle. unfold term.
  apply (reads_bind 0 1 1 0); [apply factor_reads | | lia].
  intros n. apply binop_loop_reads; [|exact Hle].
  apply (reads_weaken 0 1); [apply factor_reads | lia | lia].
Qed.

Lemma expr_body_reads fuel fuel' :
  fuel <= fuel' -> reads 1 1 (expr_body ex fuel) (expr_body ex' fuel').
Proof.
  intros Hle. unfold expr_body.
  apply (reads_bind 1 1 1 0); [now apply term_reads | | lia].
  intros n. apply binop_loop_reads; [|exact Hle]. now apply term_reads.
Qed.
End ParserReads.

(** [expr] reads up to the token after the expression; more depth of
    recursion does not change what it returns. *)
Lemma expr_reads (fuel : nat) :
  forall fuel', fuel <= fuel' -> reads 1 1 (expr fuel) (expr fuel').
Proof.
  induction fuel as [|fuel IH]; intros fuel' Hle.
  - intros p a p' H. discriminate H.
  - destruct fuel' as [|fuel']; [lia|]. cbn [expr].
    apply expr_body_reads; [apply IH; lia | exact Hle].
Qed.

(** [statement] reads up to its [;] and no further. *)
Lemma statement_reads (fuel fuel' : nat) :
  fuel <= fuel' -> reads 0 1 (statement fuel) (statement fuel').
Proof.
  intros Hle. unfold statement. apply reads_peek_bind; [|lia]. intros tok.
  destruct (match tok with
            | Some t => String.eqb t "let" | None => false end).
  - apply reads_eat_then with (c := 1). intros _.
    apply reads_eat_then with (c := 1). intros name.
    apply reads_eat_then with (c := 2). intros _.
    apply (reads_bind 1 1 0 1); [now apply expr_reads | | lia].
    intros e. apply reads_eat_then with (c := 0). intros _.
    apply reads_ret.
  - destruct (match tok with
              | Some t => String.eqb t "print" | None => false end);
      [|apply reads_raise].
    apply reads_eat_then with (c := 1). intros _.
    apply reads_eat_then with (c := 2). intros _.
    apply (reads_bind 1 1 0 1); [now apply expr_reads | | lia].
    intros e. apply reads_eat_then with (c := 1). intros _.
    apply reads_eat_then with (c := 0). intros _.
    apply reads_ret.
Qed.

Lemma parse_loop_reads (fuel : nat) :
  forall fuel' ast,
    fuel <= fuel' ->
    reads 1 0 (parse_loop fuel ast) (parse_loop fuel' ast).
Proof.
  induction fuel as [|fuel IH]; intros fuel' ast Hle.
  - intros p a p' H. discriminate H.
  - destruct fuel' as [|fuel']; [lia|]. cbn [parse_loop].
    apply reads_peek_bind; [|lia]. intros tok.
    destruct (truthy tok).
    + apply (reads_weaken 1 (1 + 0)); [|lia|lia].
      apply (reads_bind 0 1 1 0); [now apply statement_reads | | lia].
      intros s. apply IH. lia.
    + apply (reads_weaken 0 0); [apply reads_ret | lia | lia].
Qed.

Lemma parse_loop_acc (pre : list stmt) (fuel : nat) :
  forall ast p ast' p',
    parse_loop fuel ast p = OK (ast', p') ->
    parse_loop fuel (pre ++ ast) p = OK (pre ++ ast', p').
Proof.
  induction fuel as [|fuel IH]; intros ast p ast' p' H;
    simpl in H; [discriminate|].
  bind_inv H. apply peek_OK in Hm as [-> ->].
  cbn [parse_loop]. unfold bind at 1, peek at 1.
  destruct (truthy (peek_at p)).
  - bind_inv H. unfold bind. rewrite Hm.
    rewrite <- List.app_assoc. now apply IH.
  - inversion H; subst. reflexivity.
Qed.

(** The statements of [toks1] are parsed the same when more tokens
    follow, and the loop goes on at the first of these. *)
Lemma parse_loop_through (toks1 toks2 : list string)
    (r : result (list stmt * Parser)) :
  Forall (fun t => PyStr.nonempty t = true) toks1 ->
  forall fuel fuel' ast n ast' p',
    parse_loop fuel ast (mkParser toks1 n) = OK (ast', p') ->
    n <= List.length toks1 -> fuel <= fuel' ->
    (forall f2, fuel' - fuel < f2 ->
       parse_loop f2 ast' (mkParser (toks1 ++ toks2) (List.length toks1))
       = r) ->
    parse_loop fuel' ast (mkParser (toks1 ++ toks2) n) = r.
Proof.
  intros Hne. induction fuel as [|fuel IH];
    intros fuel' ast n ast' p' H Hn Hle Hr; simpl in H; [discriminate|].
  destruct fuel' as [|fuel']; [lia|].
  bind_inv H. apply peek_OK in Hm as [-> ->].
  unfold peek_at in H. simpl in H.
  destruct (nth_error toks1 n) as [t|] eqn:Hnth.
  - assert (Ht : PyStr.nonempty t = true).
    { rewrite Forall_forall in Hne. apply Hne.
      eapply nth_error_In. exact Hnth. }
    cbn [truthy] in H. rewrite Ht in H.
    bind_inv H. rename Hm into Hs.
    assert (Hlt : n < List.length toks1)
      by (apply nth_error_Some; congruence).
    destruct (statement_reads (S fuel) (S fuel') Hle _ _ _ Hs)
      as [Htok [Hpos [Hb Hq]]].
    simpl in Htok, Hpos, Hb. specialize (Hb Hn).
    destruct p as [tp np]. simpl in *. subst tp.
    cbn [parse_loop]. unfold bind at 1, peek at 1, peek_at. simpl.
    rewrite nth_error_app1 by exact Hlt. rewrite Hnth. cbn [truthy].
    rewrite Ht. unfold bind.
    rewrite (Hq (mkParser (toks1 ++ toks2) n)).
    + unfold move. simpl. replace (n + (np - n)) with np by lia.
      apply (IH fuel' _ np ast' p' H); [exact Hb | lia |].
      intros f2 Hf2. apply Hr. lia.
    + intros i Hi. simpl. apply nth_error_app1. lia.
  - cbn [truthy] in H. inversion H; subst.
    assert (n = List.length toks1)
      by (apply nth_error_None in Hnth; lia).
    subst n. apply Hr. lia.
Qed.

Lemma parse_app_OK (toks1 toks2 : list string) (ast1 ast2 : list stmt) :
  Forall (fun t => PyStr.nonempty t = true) toks1 ->
  parse toks1 = OK ast1 -> parse toks2 = OK ast2 ->
  parse (toks1 ++ toks2) = OK (ast1 ++ ast2).
Proof.
  intros Hne H1 H2. unfold parse in *.
  destruct (parse_loop (S (List.length toks1)) [] (mkParser toks1 0))
    as [[a1 p1] | | |] eqn:L1; try discriminate H1.
  destruct (parse_loop (S (List.length toks2)) [] (mkParser toks2 0))
    as [[a2 p2] | | |] eqn:L2; try discriminate H2.
  inversion H1; inversion H2; subst.
  rewrite (parse_loop_through toks1 toks2
             (OK (ast1 ++ ast2,
                  move (mkParser (toks1 ++ toks2) (List.length toks1))
                       (pos p2 - 0)))
             Hne _ (S (List.length (toks1 ++ toks2))) _ _ _ _ L1);
    [reflexivity | lia | rewrite List.length_app; lia |].
  intros f2 Hf2.
  destruct (parse_loop_reads (S (List.length toks2)) f2 [] ltac:(rewrite List.length_app in Hf2; lia) _ _ _ L2)
    as [_ [_ [_ Hq]]].
  rewrite <- (List.app_nil_r ast1) at 1.
  apply parse_loop_acc. apply Hq.
  intros i _. simpl. rewrite nth_error_app2 by lia. f_equal. lia.
Qed.

(** X15. Statements are parsed one after the other: when two lists of
    tokens each parse to a program, the first without an empty token,
    their concatenation parses to the two programs one after the
    other. *)
Theorem parse_app (toks1 toks2 : list string) (ast1 ast2 : list stmt) :
  Forall (fun t => PyStr.nonempty t = true) toks1 ->
  parse toks1 = OK ast1 -> parse toks2 = OK ast2 ->
  parse (toks1 ++ toks2) = OK (ast1 ++ ast2).
Proof. exact (parse_app_OK toks1 toks2 ast1 ast2). Qed.

Lemma parse_app_witness :
  Forall (fun t => PyStr.nonempty t = true) (tokenize "let x = 2 * (3 + y);") /\
  parse (tokenize "let x = 2 * (3 + y);") =
    OK [Assign "x" (BinOp "*" (Num 2) (BinOp "+" (Num 3) (Var "y")))] /\
  parse (tokenize "print(x - 1);") =
    OK [Print (BinOp "-" (Var "x") (Num 1))] /\
  parse (tokenize "let x = 2 * (3 + y);" ++ tokenize "print(x - 1);") =
    OK ([Assign "x" (BinOp "*" (Num 2) (BinOp "+" (Num 3) (Var "y")))] ++
        [Print (BinOp "-" (Var "x") (Num 1))]).
Proof.
  split; [vm_compute; repeat constructor|].
  split; [vm_compute; reflexivity|].
  split; [vm_compute; reflexivity|].
  apply (parse_app (tokenize "let x = 2 * (3 + y);")
           (tokenize "print(x - 1);")).
  - vm_compute. repeat constructor.
  - vm_compute. reflexivity.
  - vm_compute. reflexivity.
Defined.

(* ================================================================== *)
(** * Further properties: the parser reads back what is written *)
(* ================================================================== *)

Lemma segment_app toks n (a b : list string) :
  segment toks n (a ++ b) ->
  segment toks n a /\ segment toks (n + List.length a) b.
Proof.
  intros H. split; intros i t Hi.
  - apply H. rewrite nth_error_app1; [exact Hi|].
    apply nth_error_Some. congruence.
  - rewrite <- Nat.add_assoc. apply H.
    rewrite nth_error_app2 by lia.
    now replace (List.length a + i - List.length a) with i by lia.
Qed.

Lemma segment_cons toks n t (s : list string) :
  segment toks n (t :: s) ->
  nth_error toks n = Some t /\ segment toks (n + 1) s.
Proof.
  intros H. split.
  - rewrite <- (Nat.add_0_r n). now apply H.
  - intros i u Hi. rewrite <- Nat.add_assoc. now apply H.
Qed.

Lemma bind_OK_step {A B} (m : parser A) (k : A -> parser B) p a p' :
  m p = OK (a, p') -> bind m k p = k a p'.
Proof. unfold bind. now intros ->. Qed.

Lemma binop_loop_step ops (operand : parser node) k lhs toks n op rhs p2 :
  nth_error toks n = Some op -> PyStr.nonempty op = true ->
  PyStr.mem op ops = true ->
  operand (mkParser toks (n + 1)) = OK (rhs, p2) ->
  binop_loop ops operand (S k) lhs (mkParser toks n) =
  binop_loop ops operand k (BinOp op lhs rhs) p2.
Proof.
  intros Hn Hne Hop Hrhs. cbn [binop_loop].
  unfold bind at 1, peek at 1, peek_at. cbn [tokens pos].
  rewrite Hn, Hop.
  rewrite (bind_OK_step _ _ _ op (mkParser toks (n + 1)))
    by now apply eat_any.
  now rewrite (bind_OK_step _ _ _ rhs p2).
Qed.

Lemma binop_loop_stop ops (operand : parser node) k lhs toks n :
  stops ops toks n ->
  binop_loop ops operand (S k) lhs (mkParser toks n) =
  OK (lhs, mkParser toks n).
Proof.
  unfold stops. intros H. cbn [binop_loop].
  unfold bind, peek, peek_at. cbn [tokens pos].
  destruct (nth_error toks n) as [t|]; [now rewrite H | reflexivity].
Qed.

Lemma binary_op_levels (op : string) :
  PyStr.mem op PyEval.binary_ops = true ->
  PyStr.nonempty op = true /\
  (level op = 0 /\ PyStr.mem op ["+"; "-"] = true /\
   PyStr.mem op ["*"; "/"] = false \/
   level op = 1 /\ PyStr.mem op ["+"; "-"] = false /\
   PyStr.mem op ["*"; "/"] = true).
Proof.
  intros H. apply mem_In in H. simpl in H.
  destruct H as [<- | [<- | [<- | [<- | []]]]];
    (split; [reflexivity|]); vm_compute; tauto.
Qed.

Lemma matches_ident_not_digit (x : string) :
  matches_ident x = true ->
  PyStr.isdigit x = false /\ PyStr.nonempty x = true.
Proof.
  destruct x as [|c w]; [discriminate|]. simpl. intros H.
  split; [|reflexivity].
  unfold PyStr.isdigit. cbn [PyStr.nonempty PyStr.forallb_str andb].
  now rewrite (unicode_digit_not_ident_start c H).
Qed.

Lemma spine_le ops (e : node) : spine ops e <= count_binops e.
Proof.
  induction e as [n | x | op l IHl r IHr]; simpl; try lia.
  destruct (PyStr.mem op ops); lia.
Qed.

Lemma write_length (e : node) :
  forall lvl, depth lvl e + count_binops e <= List.length (write lvl e).
Proof.
  induction e as [n | x | op l IHl r IHr]; intros lvl; simpl; try lia.
  specialize (IHl (level op)). specialize (IHr (S (level op))).
  destruct (lvl <=? level op); simpl;
    rewrite ?List.length_app; simpl; rewrite ?List.length_app; simpl; lia.
Qed.

(** [term] returns the operand that its factor and its loop build, once
    the loop finds no operator of its own. *)
Lemma term_from_loop (ex : parser node) g e toks n n' s :
  s < g ->
  (forall k,
     (x <- factor ex ;; binop_loop ["*"; "/"] (factor ex) (k + s) x)
       (mkParser toks n) =
     binop_loop ["*"; "/"] (factor ex) k e (mkParser toks n')) ->
  stops ["*"; "/"] toks n' ->
  term ex g (mkParser toks n) = OK (e, mkParser toks n').
Proof.
  intros Hs H Hstop. unfold term.
  transitivity
    ((x <- factor ex ;;
      binop_loop ["*"; "/"] (factor ex) (S (g - s - 1) + s) x)
       (mkParser toks n)).
  - replace (S (g - s - 1) + s) with g by lia. reflexivity.
  - rewrite H. now apply binop_loop_stop.
Qed.

(** A parenthesised expression as a factor. *)
Lemma factor_paren e (body : list string) toks f n s :
  segment toks n (["("] ++ body ++ [")"]) -> s <= f ->
  (forall k,
     (x <- term (expr f) (S f) ;;
      binop_loop ["+"; "-"] (term (expr f) (S f)) (k + s) x)
       (mkParser toks (n + 1)) =
     binop_loop ["+"; "-"] (term (expr f) (S f)) k e
       (mkParser toks (n + 1 + List.length body))) ->
  factor (expr (S f)) (mkParser toks n) =
  OK (e, mkParser toks (n + List.length (["("] ++ body ++ [")"]))).
Proof.
  intros Hseg Hs H.
  apply segment_cons in Hseg as [Hopen Hseg].
  apply segment_app in Hseg as [_ Hclose].
  apply segment_cons in Hclose as [Hclose _].
  unfold factor. unfold bind at 1, peek at 1, peek_at. cbn [tokens pos].
  rewrite Hopen.
  change (PyStr.isdigit "(") with false.
  change (matches_ident "(") with false.
  change (String.eqb "(" "(") with true. cbv iota.
  rewrite (bind_OK_step _ _ _ "(" (mkParser toks (n + 1)))
    by now apply eat_expected.
  assert (He : expr (S f) (mkParser toks (n + 1)) =
               OK (e, mkParser toks (n + 1 + List.length body))).
  { cbn [expr]. unfold expr_body.
    transitivity
      ((x <- term (expr f) (S f) ;;
        binop_loop ["+"; "-"] (term (expr f) (S f)) (S (f - s) + s) x)
         (mkParser toks (n + 1))).
    - replace (S (f - s) + s) with (S f) by lia. reflexivity.
    - rewrite H. apply binop_loop_stop. unfold stops. now rewrite Hclose. }
  rewrite (bind_OK_step _ _ _ _ _ He).
  rewrite (bind_OK_step _ _ _ ")"
             (mkParser toks (n + 1 + List.length body + 1)))
    by now apply eat_expected.
  unfold ret. do 3 f_equal. simpl. rewrite List.length_app. simpl. lia.
Qed.

Lemma factor_number toks n (z : Z) :
  (0 <= z)%Z -> nth_error toks n = Some (PyStr.str z) ->
  forall ex, factor ex (mkParser toks n) = OK (Num z, mkParser toks (n + 1)).
Proof.
  intros Hz Hn ex. pose proof (str_nonneg_digits z Hz) as Hd.
  unfold factor. unfold bind at 1, peek at 1, peek_at. cbn [tokens pos].
  rewrite Hn, (is_digits_isdigit _ Hd).
  rewrite (bind_OK_step _ _ _ (PyStr.str z) (mkParser toks (n + 1))).
  - unfold PyStr.int. unfold PyEval.is_digits in Hd. rewrite Hd.
    now rewrite int_go_str.
  - apply eat_any; [exact Hn|]. unfold PyEval.is_digits in Hd.
    now apply andb_prop in Hd as [Hd _].
Qed.

Lemma factor_name toks n (x : string) :
  matches_ident x = true -> nth_error toks n = Some x ->
  forall ex, factor ex (mkParser toks n) = OK (Var x, mkParser toks (n + 1)).
Proof.
  intros Hx Hn ex. destruct (matches_ident_not_digit x Hx) as [Hd Hne].
  unfold factor. unfold bind at 1, peek at 1, peek_at. cbn [tokens pos].
  rewrite Hn, Hd, Hx.
  now rewrite (bind_OK_step _ _ _ x (mkParser toks (n + 1)))
    by now apply eat_any.
Qed.

(** The three levels of the parser on the writing of an expression:
    [factor] returns the expression from its writing as a factor; after
    the writing as a term the loop of [term] stands with the expression as
    its left operand, and after the writing as an expression the loop of
    [expr] does. *)
Lemma write_parsed (e : node) :
  parsed_node e ->
  forall toks f,
    (forall n,
       segment toks n (write 2 e) -> depth 2 e + count_binops e <= f ->
       factor (expr f) (mkParser toks n) =
       OK (e, mkParser toks (n + List.length (write 2 e)))) /\
    (forall n k,
       segment toks n (write 1 e) -> depth 1 e + count_binops e <= f ->
       (x <- factor (expr f) ;;
        binop_loop ["*"; "/"] (factor (expr f))
          (k + spine ["*"; "/"] e) x) (mkParser toks n) =
       binop_loop ["*"; "/"] (factor (expr f)) k e
         (mkParser toks (n + List.length (write 1 e)))) /\
    (forall n k g,
       segment toks n (write 0 e) ->
       stops ["*"; "/"] toks (n + List.length (write 0 e)) ->
       depth 0 e + count_binops e <= f -> count_binops e < g ->
       (x <- term (expr f) g ;;
        binop_loop ["+"; "-"] (term (expr f) g)
          (k + spine ["+"; "-"] e) x) (mkParser toks n) =
       binop_loop ["+"; "-"] (term (expr f) g) k e
         (mkParser toks (n + List.length (write 0 e)))).
Proof.
  induction e as [z | x | op l IHl r IHr]; intros Hwf toks f.
  - (* a literal *)
    simpl in Hwf.
    assert (F : forall n, segment toks n [PyStr.str z] ->
                factor (expr f) (mkParser toks n) =
                OK (Num z, mkParser toks (n + 1))).
    { intros n Hseg. apply segment_cons in Hseg as [Hn _].
      now apply factor_number. }
    split; [|split].
    + intros n Hseg _. now apply F.
    + intros n k Hseg _. cbn [spine write List.length].
      rewrite Nat.add_0_r. now rewrite (bind_OK_step _ _ _ _ _ (F n Hseg)).
    + intros n k g Hseg Hstop _ Hg. cbn [spine write List.length] in *.
      rewrite Nat.add_0_r.
      rewrite (bind_OK_step _ _ _ (Num z) (mkParser toks (n + 1)));
        [reflexivity|].
      apply (term_from_loop _ g _ toks n (n + 1) 0); [lia | | exact Hstop].
      intros k'. rewrite Nat.add_0_r.
      now rewrite (bind_OK_step _ _ _ _ _ (F n Hseg)).
  - (* a name *)
    simpl in Hwf.
    assert (F : forall n, segment toks n [x] ->
                factor (expr f) (mkParser toks n) =
                OK (Var x, mkParser toks (n + 1))).
    { intros n Hseg. apply segment_cons in Hseg as [Hn _].
      now apply factor_name. }
    split; [|split].
    + intros n Hseg _. now apply F.
    + intros n k Hseg _. cbn [spine write List.length].
      rewrite Nat.add_0_r. now rewrite (bind_OK_step _ _ _ _ _ (F n Hseg)).
    + intros n k g Hseg Hstop _ Hg. cbn [spine write List.length] in *.
      rewrite Nat.add_0_r.
      rewrite (bind_OK_step _ _ _ (Var x) (mkParser toks (n + 1)));
        [reflexivity|].
      apply (term_from_loop _ g _ toks n (n + 1) 0); [lia | | exact Hstop].
      intros k'. rewrite Nat.add_0_r.
      now rewrite (bind_OK_step _ _ _ _ _ (F n Hseg)).
  - (* an operation *)
    destruct Hwf as [Hop [Hl Hr]].
    specialize (IHl Hl). specialize (IHr Hr).
    destruct (binary_op_levels op Hop)
      as [Hne [[Hlev [Hadd Hmul]] | [Hlev [Hadd Hmul]]]].
    + (* [+] or [-] *)
      assert (A0 : forall toks f n k g,
        segment toks n (write 0 l ++ [op] ++ write 1 r) ->
        stops ["*"; "/"] toks
          (n + List.length (write 0 l ++ [op] ++ write 1 r)) ->
        Nat.max (depth 0 l) (depth 1 r) + count_binops (BinOp op l r) <= f ->
        count_binops (BinOp op l r) < g ->
        (x <- term (expr f) g ;;
         binop_loop ["+"; "-"] (term (expr f) g)
           (k + S (spine ["+"; "-"] l)) x) (mkParser toks n) =
        binop_loop ["+"; "-"] (term (expr f) g) k (BinOp op l r)
          (mkParser toks
             (n + List.length (write 0 l ++ [op] ++ write 1 r)))).
      { clear toks f. intros toks f n k g Hseg Hstop Hf Hg.
        cbn [count_binops] in Hf, Hg.
        apply segment_app in Hseg as [Sl Hseg].
        apply segment_cons in Hseg as [Sop Sr].
        destruct (IHl toks f) as [_ [_ P0l]].
        destruct (IHr toks f) as [_ [P1r _]].
        replace (k + S (spine ["+"; "-"] l))
          with (S k + spine ["+"; "-"] l) by lia.
        rewrite (P0l n (S k) g Sl);
          [| unfold stops; now rewrite Sop | lia | lia].
        rewrite !List.length_app in *. cbn [List.length] in *.
        rewrite (binop_loop_step _ _ k l toks _ op r
                   (mkParser toks
                      (n + List.length (write 0 l) + 1 +
                       List.length (write 1 r))) Sop Hne Hadd).
        - do 2 f_equal. lia.
        - apply (term_from_loop _ g r toks _ _ (spine ["*"; "/"] r)).
          + pose proof (spine_le ["*"; "/"] r). lia.
          + intros k'. apply P1r; [exact Sr | lia].
          + replace (n + List.length (write 0 l) + 1 +
                     List.length (write 1 r))
              with (n + (List.length (write 0 l) +
                         S (List.length (write 1 r)))) by lia.
            exact Hstop. }
      assert (A2 : forall toks f n,
        segment toks n (["("] ++ (write 0 l ++ [op] ++ write 1 r) ++ [")"]) ->
        S (Nat.max (depth 0 l) (depth 1 r)) + count_binops (BinOp op l r)
          <= f ->
        factor (expr f) (mkParser toks n) =
        OK (BinOp op l r,
            mkParser toks
              (n + List.length
                     (["("] ++ (write 0 l ++ [op] ++ write 1 r) ++ [")"])))).
      { clear toks f. intros toks f n Hseg Hf.
        destruct f as [|f]; [lia|].
        apply (factor_paren _ _ toks f n (S (spine ["+"; "-"] l)));
          [exact Hseg | |].
        - pose proof (spine_le ["+"; "-"] l). cbn [count_binops] in Hf. lia.
        - intros k. pose proof Hseg as Hseg'.
          apply segment_cons in Hseg' as [_ Hseg'].
          apply segment_app in Hseg' as [Sb Sc].
          apply segment_cons in Sc as [Sc _].
          apply A0; [exact Sb | | lia | lia].
          unfold stops. now rewrite Sc. }
      cbn [write depth spine]. rewrite Hlev, Hadd, Hmul.
      cbn [Nat.leb]. split; [|split].
      * intros n Hseg Hf. now apply A2.
      * intros n k Hseg Hf. rewrite Nat.add_0_r.
        now rewrite (bind_OK_step _ _ _ _ _ (A2 toks f n Hseg Hf)).
      * intros n k g Hseg Hstop Hf Hg. now apply A0.
    + (* [*] or [/] *)
      assert (A1 : forall toks f n k,
        segment toks n (write 1 l ++ [op] ++ write 2 r) ->
        Nat.max (depth 1 l) (depth 2 r) + count_binops (BinOp op l r) <= f ->
        (x <- factor (expr f) ;;
         binop_loop ["*"; "/"] (factor (expr f))
           (k + S (spine ["*"; "/"] l)) x) (mkParser toks n) =
        binop_loop ["*"; "/"] (factor (expr f)) k (BinOp op l r)
          (mkParser toks
             (n + List.length (write 1 l ++ [op] ++ write 2 r)))).
      { clear toks f. intros toks f n k Hseg Hf.
        cbn [count_binops] in Hf.
        apply segment_app in Hseg as [Sl Hseg].
        apply segment_cons in Hseg as [Sop Sr].
        destruct (IHl toks f) as [_ [P1l _]].
        destruct (IHr toks f) as [P2r _].
        replace (k + S (spine ["*"; "/"] l))
          with (S k + spine ["*"; "/"] l) by lia.
        rewrite (P1l n (S k) Sl) by lia.
        rewrite !List.length_app. cbn [List.length].
        rewrite (binop_loop_step _ _ k l toks _ op r
                   (mkParser toks
                      (n + List.length (write 1 l) + 1 +
                       List.length (write 2 r))) Sop Hne Hmul).
        - do 2 f_equal. lia.
        - apply P2r; [exact Sr | lia]. }
      assert (A0 : forall toks f n k g,
        segment toks n (write 1 l ++ [op] ++ write 2 r) ->
        stops ["*"; "/"] toks
          (n + List.length (write 1 l ++ [op] ++ write 2 r)) ->
        Nat.max (depth 1 l) (depth 2 r) + count_binops (BinOp op l r) <= f ->
        count_binops (BinOp op l r) < g ->
        (x <- term (expr f) g ;;
         binop_loop ["+"; "-"] (term (expr f) g) (k + 0) x)
           (mkParser toks n) =
        binop_loop ["+"; "-"] (term (expr f) g) k (BinOp op l r)
          (mkParser toks
             (n + List.length (write 1 l ++ [op] ++ write 2 r)))).
      { clear toks f. intros toks f n k g Hseg Hstop Hf Hg.
        rewrite Nat.add_0_r.
        rewrite (bind_OK_step _ _ _ (BinOp op l r)
                   (mkParser toks
                      (n + List.length (write 1 l ++ [op] ++ write 2 r))));
          [reflexivity|].
        apply (term_from_loop _ g _ toks n _ (S (spine ["*"; "/"] l)));
          [| | exact Hstop].
        - pose proof (spine_le ["*"; "/"] l). cbn [count_binops] in Hg. lia.
        - intros k'. now apply A1. }
      assert (A2 : forall toks f n,
        segment toks n (["("] ++ (write 1 l ++ [op] ++ write 2 r) ++ [")"]) ->
        S (Nat.max (depth 1 l) (depth 2 r)) + count_binops (BinOp op l r)
          <= f ->
        factor (expr f) (mkParser toks n) =
        OK (BinOp op l r,
            mkParser toks
              (n + List.length
                     (["("] ++ (write 1 l ++ [op] ++ write 2 r) ++ [")"])))).
      { clear toks f. intros toks f n Hseg Hf.
        destruct f as [|f]; [lia|].
        apply (factor_paren _ _ toks f n 0); [exact Hseg | lia |].
        intros k. pose proof Hseg as Hseg'.
        apply segment_cons in Hseg' as [_ Hseg'].
        apply segment_app in Hseg' as [Sb Sc].
        apply segment_cons in Sc as [Sc _].
        apply A0; [exact Sb | | lia | cbn [count_binops] in *; lia].
        unfold stops. now rewrite Sc. }
      cbn [write depth spine]. rewrite Hlev, Hadd, Hmul.
      cbn [Nat.leb]. split; [|split].
      * intros n Hseg Hf. now apply A2.
      * intros n k Hseg Hf. now apply A1.
      * intros n k g Hseg Hstop Hf Hg. now apply A0.
Qed.

Lemma expr_written (e : node) toks f n :
  parsed_node e -> segment toks n (write 0 e) ->
  stops ["*"; "/"] toks (n + List.length (write 0 e)) ->
  stops ["+"; "-"] toks (n + List.length (write 0 e)) ->
  depth 0 e + count_binops e <= f ->
  expr (S f) (mkParser toks n) =
  OK (e, mkParser toks (n + List.length (write 0 e))).
Proof.
  intros Hwf Hseg Hmul Hadd Hf.
  destruct (write_parsed e Hwf toks f) as [_ [_ P0]].
  pose proof (spine_le ["+"; "-"] e) as Hs.
  cbn [expr]. unfold expr_body.
  transitivity
    ((x <- term (expr f) (S f) ;;
      binop_loop ["+"; "-"] (term (expr f) (S f))
        (S (f - spine ["+"; "-"] e) + spine ["+"; "-"] e) x)
       (mkParser toks n)).
  - replace (S (f - spine ["+"; "-"] e) + spine ["+"; "-"] e)
      with (S f) by lia.
    reflexivity.
  - rewrite P0 by (try assumption; lia). now apply binop_loop_stop.
Qed.

Lemma statement_written (s : stmt) toks f n :
  writable_stmt s -> segment toks n (write_stmt s) ->
  List.length (write_stmt s) <= f ->
  statement (S f) (mkParser toks n) =
  OK (s, mkParser toks (n + List.length (write_stmt s))).
Proof.
  intros Hwf Hseg Hf. destruct s as [name e | e]; cbn [write_stmt] in *.
  - destruct Hwf as [Hname He].
    apply segment_cons in Hseg as [S1 Hseg].
    apply segment_cons in Hseg as [S2 Hseg].
    apply segment_cons in Hseg as [S3 Hseg].
    apply segment_app in Hseg as [Se Hseg].
    apply segment_cons in Hseg as [S4 _].
    pose proof (write_length e 0) as Hlen.
    cbn [List.app List.length] in Hf. rewrite List.length_app in Hf.
    cbn [List.length] in Hf.
    unfold statement. unfold bind at 1, peek at 1, peek_at.
    cbn [tokens pos]. rewrite S1.
    change (String.eqb "let" "let") with true. cbv iota.
    rewrite (bind_OK_step _ _ _ "let" (mkParser toks (n + 1)))
      by now apply eat_expected.
    rewrite (bind_OK_step _ _ _ name (mkParser toks (n + 1 + 1)))
      by now apply eat_any.
    rewrite (bind_OK_step _ _ _ "=" (mkParser toks (n + 1 + 1 + 1)))
      by now apply eat_expected.
    rewrite (bind_OK_step _ _ _ e
               (mkParser toks (n + 1 + 1 + 1 + List.length (write 0 e)))).
    + rewrite (bind_OK_step _ _ _ ";"
                 (mkParser toks
                    (n + 1 + 1 + 1 + List.length (write 0 e) + 1)))
        by now apply eat_expected.
      unfold ret. do 3 f_equal. cbn [List.app List.length].
      rewrite List.length_app. cbn [List.length]. lia.
    + apply expr_written; try assumption; try lia;
        unfold stops; now rewrite S4.
  - apply segment_cons in Hseg as [S1 Hseg].
    apply segment_cons in Hseg as [S2 Hseg].
    apply segment_app in Hseg as [Se Hseg].
    apply segment_cons in Hseg as [S3 Hseg].
    apply segment_cons in Hseg as [S4 _].
    pose proof (write_length e 0) as Hlen.
    cbn [List.app List.length] in Hf. rewrite List.length_app in Hf.
    cbn [List.length] in Hf.
    unfold statement. unfold bind at 1, peek at 1, peek_at.
    cbn [tokens pos]. rewrite S1.
    change (String.eqb "print" "let") with false.
    change (String.eqb "print" "print") with true. cbv iota.
    rewrite (bind_OK_step _ _ _ "print" (mkParser toks (n + 1)))
      by now apply eat_expected.
    rewrite (bind_OK_step _ _ _ "(" (mkParser toks (n + 1 + 1)))
      by now apply eat_expected.
    rewrite (bind_OK_step _ _ _ e
               (mkParser toks (n + 1 + 1 + List.length (write 0 e)))).
    + rewrite (bind_OK_step _ _ _ ")"
                 (mkParser toks (n + 1 + 1 + List.length (write 0 e) + 1)))
        by now apply eat_expected.
      rewrite (bind_OK_step _ _ _ ";"
                 (mkParser toks
                    (n + 1 + 1 + List.length (write 0 e) + 1 + 1)))
        by now apply eat_expected.
      unfold ret. do 3 f_equal. cbn [List.app List.length].
      rewrite List.length_app. cbn [List.length]. lia.
    + apply expr_written; try assumption; try lia;
        unfold stops; now rewrite S3.
Qed.

Lemma segment_whole (toks : list string) : segment toks 0 toks.
Proof. intros i t H. exact H. Qed.

Lemma parse_one_statement (t : string) (rest : list string) (s : stmt) :
  PyStr.nonempty t = true ->
  statement (S (List.length (t :: rest))) (mkParser (t :: rest) 0) =
    OK (s, mkParser (t :: rest) (0 + List.length (t :: rest))) ->
  parse (t :: rest) = OK [s].
Proof.
  intros Ht Hs. unfold parse.
  set (toks := t :: rest) in *.
  assert (Hend : nth_error toks (List.length toks) = None)
    by (apply nth_error_None; lia).
  change (parse_loop (S (List.length toks)) [] (mkParser toks 0))
    with (bind peek (fun tok =>
            if truthy tok
            then bind (statement (S (List.length toks)))
                   (fun s => parse_loop (List.length toks) ([] ++ [s]))
            else ret []) (mkParser toks 0)).
  unfold bind at 1, peek at 1, peek_at. cbn [tokens pos].
  change (nth_error toks 0) with (Some t). cbn [truthy]. rewrite Ht.
  rewrite (bind_OK_step _ _ _ _ _ Hs). cbn [Nat.add List.app].
  change (List.length toks) with (S (List.length rest)) at 1.
  cbn [parse_loop]. unfold bind, peek, peek_at. cbn [tokens pos].
  rewrite Hend. reflexivity.
Qed.

Lemma write_stmt_parsed (s : stmt) :
  writable_stmt s -> parse (write_stmt s) = OK [s].
Proof.
  intros Hwf.
  pose proof (statement_written s (write_stmt s)
                (List.length (write_stmt s)) 0 Hwf
                (segment_whole _) (le_n _)) as Hs.
  destruct s as [name e | e]; cbn [write_stmt List.app] in *;
    now apply parse_one_statement.
Qed.

Lemma write_nonempty (e : node) :
  parsed_node e ->
  forall lvl, Forall (fun t => PyStr.nonempty t = true) (write lvl e).
Proof.
  induction e as [z | x | op l IHl r IHr]; intros Hwf lvl; simpl in *.
  - constructor; [|constructor].
    pose proof (str_nonneg_digits z Hwf) as Hd.
    unfold PyEval.is_digits in Hd. now apply andb_prop in Hd as [Hd _].
  - constructor; [|constructor]. now apply matches_ident_not_digit.
  - destruct Hwf as [Hop [Hl Hr]].
    destruct (binary_op_levels op Hop) as [Hne _].
    assert (Hbody : Forall (fun t => PyStr.nonempty t = true)
                      (write (level op) l ++ op :: write (S (level op)) r)).
    { apply Forall_app. split; [now apply IHl|].
      constructor; [exact Hne | now apply IHr]. }
    destruct (lvl <=? level op); [exact Hbody|].
    constructor; [reflexivity|]. apply Forall_app. split; [exact Hbody|].
    constructor; [reflexivity | constructor].
Qed.

Lemma write_stmt_nonempty (s : stmt) :
  writable_stmt s ->
  Forall (fun t => PyStr.nonempty t = true) (write_stmt s).
Proof.
  destruct s as [name e | e]; simpl.
  - intros [Hname He]. repeat (constructor; [first [reflexivity | assumption]|]).
    apply Forall_app. split; [now apply write_nonempty|].
    constructor; [reflexivity | constructor].
  - intros He. repeat (constructor; [reflexivity|]).
    apply Forall_app. split; [now apply write_nonempty|].
    repeat (constructor; [reflexivity|]). constructor.
Qed.

Lemma write_program_parsed (ast : list stmt) :
  Forall writable_stmt ast -> parse (write_program ast) = OK ast.
Proof.
  induction ast as [|s ast IH]; intros Hall; [reflexivity|].
  inversion Hall as [|s' ast' Hs Hast]; subst.
  change (write_program (s :: ast))
    with (write_stmt s ++ write_program ast).
  change (s :: ast) with ([s] ++ ast).
  apply parse_app_OK;
    [now apply write_stmt_nonempty | now apply write_stmt_parsed | now apply IH].
Qed.

(** X16. The parser reads back what is written: every program of
    expressions over non-negative literals, names that start as an
    identifier does and the four operators is what [parse] returns on its
    tokens, written with the parentheses the levels of [* /] and [+ -] and
    the grouping to the left ask for and no other. *)
Theorem parse_write_round_trip (ast : list stmt) :
  Forall writable_stmt ast -> parse (write_program ast) = OK ast.
Proof. exact (write_program_parsed ast). Qed.

Lemma parse_write_round_trip_witness :
  Forall writable_stmt
    [Assign "x" (BinOp "*" (BinOp "+" (Num 1) (Var "y"))
                   (BinOp "-" (BinOp "-" (Num 2) (Num 3))
                      (BinOp "-" (Num 4) (BinOp "/" (Num 5) (Num 6)))));
     Print (Var "x")] /\
  write_program
    [Assign "x" (BinOp "*" (BinOp "+" (Num 1) (Var "y"))
                   (BinOp "-" (BinOp "-" (Num 2) (Num 3))
                      (BinOp "-" (Num 4) (BinOp "/" (Num 5) (Num 6)))));
     Print (Var "x")] =
  tokenize "let x = (1 + y) * (2 - 3 - (4 - 5 / 6)); print(x);" /\
  parse
    (write_program
       [Assign "x" (BinOp "*" (BinOp "+" (Num 1) (Var "y"))
                      (BinOp "-" (BinOp "-" (Num 2) (Num 3))
                         (BinOp "-" (Num 4) (BinOp "/" (Num 5) (Num 6)))));
        Print (Var "x")]) =
  OK [Assign "x" (BinOp "*" (BinOp "+" (Num 1) (Var "y"))
                    (BinOp "-" (BinOp "-" (Num 2) (Num 3))
                       (BinOp "-" (Num 4) (BinOp "/" (Num 5) (Num 6)))));
      Print (Var "x")].
Proof.
  assert (H : Forall writable_stmt
    [Assign "x" (BinOp "*" (BinOp "+" (Num 1) (Var "y"))
                   (BinOp "-" (BinOp "-" (Num 2) (Num 3))
                      (BinOp "-" (Num 4) (BinOp "/" (Num 5) (Num 6)))));
     Print (Var "x")]).
  { repeat constructor; simpl; lia. }
  split; [exact H|]. split; [vm_compute; reflexivity|].
  apply (parse_write_round_trip _ H).
Defined.

Lemma source_node_parsed (e : node) : source_node e -> parsed_node e.
Proof.
  induction e as [z | x | op l IHl r IHr]; simpl; [auto | | tauto].
  destruct x as [|c w]; [discriminate|]. simpl. intros H.
  now apply andb_prop in H as [H _].
Qed.

Lemma source_stmt_writable (s : stmt) : source_stmt s -> writable_stmt s.
Proof.
  destruct s as [name e | e]; simpl.
  - intros [Hname He]. split; [|now apply source_node_parsed].
    now destruct name.
  - apply source_node_parsed.
Qed.

Lemma identifier_class (x : string) :
  is_identifier x = true -> token_class x = true.
Proof. unfold token_class. now intros ->. Qed.

Lemma write_classes (e : node) :
  source_node e ->
  forall lvl, Forall (fun t => token_class t = true) (write lvl e).
Proof.
  induction e as [z | x | op l IHl r IHr]; intros Hwf lvl; simpl in *.
  - constructor; [|constructor]. unfold token_class.
    rewrite (str_nonneg_digits z Hwf). now rewrite orb_true_r.
  - constructor; [|constructor]. now apply identifier_class.
  - destruct Hwf as [Hop [Hl Hr]].
    assert (Hc : token_class op = true).
    { pose proof (proj1 (mem_In op PyEval.binary_ops) Hop) as Hin.
      simpl in Hin.
      destruct Hin as [<- | [<- | [<- | [<- | []]]]]; reflexivity. }
    assert (Hbody : Forall (fun t => token_class t = true)
                      (write (level op) l ++ op :: write (S (level op)) r)).
    { apply Forall_app. split; [now apply IHl|].
      constructor; [exact Hc | now apply IHr]. }
    destruct (lvl <=? level op); [exact Hbody|].
    constructor; [reflexivity|]. apply Forall_app. split; [exact Hbody|].
    constructor; [reflexivity | constructor].
Qed.

Lemma write_program_classes (ast : list stmt) :
  Forall source_stmt ast ->
  Forall (fun t => token_class t = true) (write_program ast).
Proof.
  induction ast as [|s ast IH]; intros Hall; [constructor|].
  inversion Hall as [|s' ast' Hs Hast]; subst.
  change (write_program (s :: ast))
    with (write_stmt s ++ write_program ast).
  apply Forall_app. split; [|now apply IH].
  destruct s as [name e | e]; simpl in *.
  - destruct Hs as [Hname He].
    constructor; [reflexivity|].
    constructor; [now apply identifier_class|].
    constructor; [reflexivity|].
    apply Forall_app. split; [now apply write_classes|].
    constructor; [reflexivity | constructor].
  - constructor; [reflexivity|]. constructor; [reflexivity|].
    apply Forall_app. split; [now apply write_classes|].
    constructor; [reflexivity|]. constructor; [reflexivity | constructor].
Qed.

(** X17. Every program of identifiers, non-negative literals and the four
    operators has a source text: the tokens of its writing joined by
    spaces, which [tokenize] and [parse] bring back to the program. *)
Theorem source_text_round_trip (ast : list stmt) :
  Forall source_stmt ast ->
  parse (tokenize (PyStr.join " " (write_program ast))) = OK ast.
Proof.
  intros Hall.
  rewrite tokenize_join_tokens by now apply write_program_classes.
  apply write_program_parsed.
  eapply Forall_impl; [|exact Hall]. exact source_stmt_writable.
Qed.

Lemma source_text_round_trip_witness :
  Forall source_stmt
    [Assign "total" (BinOp "-" (Var "a") (BinOp "+" (Var "b") (Num 10)));
     Print (BinOp "/" (Var "total") (Num 2))] /\
  PyStr.join " "
    (write_program
       [Assign "total" (BinOp "-" (Var "a") (BinOp "+" (Var "b") (Num 10)));
        Print (BinOp "/" (Var "total") (Num 2))]) =
    "let total = a - ( b + 10 ) ; print ( total / 2 ) ;" /\
  parse (tokenize (PyStr.join " "
    (write_program
       [Assign "total" (BinOp "-" (Var "a") (BinOp "+" (Var "b") (Num 10)));
        Print (BinOp "/" (Var "total") (Num 2))]))) =
  OK [Assign "total" (BinOp "-" (Var "a") (BinOp "+" (Var "b") (Num 10)));
      Print (BinOp "/" (Var "total") (Num 2))].
Proof.
  assert (H : Forall source_stmt
    [Assign "total" (BinOp "-" (Var "a") (BinOp "+" (Var "b") (Num 10)));
     Print (BinOp "/" (Var "total") (Num 2))]).
  { repeat constructor; simpl; lia. }
  split; [exact H|]. split; [vm_compute; reflexivity|].
  apply (source_text_round_trip _ H).
Defined.

(* ================================================================== *)
(** * Further properties: the whole of [main] *)
(* ================================================================== *)

(** X18. [main] computes a program it accepts: when the text parses to a
    program over [+ - *] whose identifiers are user names, [main] returns,
    prints the values the statements print when they are run on the
    syntax tree and leaves each variable with the value they give it. *)
Theorem main_computes_simple_program (code : string) (ast : list stmt) :
  parse (tokenize code) = OK ast -> simple_program ast = true ->
  exists c,
    main code = OK c /\ c_ast c = ast /\
    c_printed c = map VInt (snd (direct_run [] [] ast)) /\
    (forall x, user_name x = true ->
       dict_get (c_memory c) x =
       option_map VInt (dict_get (fst (direct_run [] [] ast)) x)).
Proof.
  intros Hparse Hast. unfold main, main_from. rewrite Hparse. cbn [lift].
  destruct (generate_ASM_doubles _ _ 0 Hparse) as [asm [Hasm _]].
  rewrite Hasm. cbn [lift].
  destruct (generated_code_runs ast [] [] [] 0 Hast) as [m [Hrun [H1 _]]];
    [split; intros; reflexivity|].
  unfold run. cbn [map] in Hrun. rewrite Hrun. cbn [lift].
  eexists. split; [reflexivity|]. cbn [c_ast c_printed c_memory fst snd].
  split; [reflexivity|]. split; [reflexivity | exact H1].
Qed.

Lemma main_computes_simple_program_witness :
  parse (tokenize "let a = 2 + 3 * 4; let b = (a - c) * 2; print(a * a); print(b);") =
    OK [Assign "a" (BinOp "+" (Num 2) (BinOp "*" (Num 3) (Num 4)));
        Assign "b" (BinOp "*" (BinOp "-" (Var "a") (Var "c")) (Num 2));
        Print (BinOp "*" (Var "a") (Var "a")); Print (Var "b")] /\
  exists c,
    main "let a = 2 + 3 * 4; let b = (a - c) * 2; print(a * a); print(b);" =
      OK c /\
    c_ast c =
      [Assign "a" (BinOp "+" (Num 2) (BinOp "*" (Num 3) (Num 4)));
       Assign "b" (BinOp "*" (BinOp "-" (Var "a") (Var "c")) (Num 2));
       Print (BinOp "*" (Var "a") (Var "a")); Print (Var "b")] /\
    c_printed c = [VInt 196; VInt 0] /\
    (forall x, user_name x = true ->
       dict_get (c_memory c) x =
       option_map VInt (dict_get [("a", 14%Z); ("b", 0%Z)] x)).
Proof.
  split; [vm_compute; reflexivity|].
  apply (main_computes_simple_program
           "let a = 2 + 3 * 4; let b = (a - c) * 2; print(a * a); print(b);");
    vm_compute; reflexivity.
Defined.

(** X19. The assembly of a text [main] accepts has two instructions for
    each line of the TAC, that is for each binary operation and each
    statement of the program. *)
Theorem main_assembly_size (code : string) (c : Compiled) :
  main code = OK c ->
  List.length (c_asm c) = 2 * List.length (c_tac c) /\
  List.length (c_tac c) =
    count_binops_ast (c_ast c) + List.length (c_ast c).
Proof.
  unfold main, main_from. intros H.
  destruct (parse (tokenize code)) as [ast | | |] eqn:Hparse;
    cbn [lift] in H; try discriminate H.
  destruct (generate_ASM_doubles _ _ 0 Hparse) as [asm [Hasm Hlen]].
  rewrite Hasm in H. cbn [lift] in H.
  destruct (run (fst (generate_TAC ast 0))) as [st | | |];
    cbn [lift] in H; try discriminate H.
  inversion H; subst. cbn [c_asm c_tac c_ast]. split; [exact Hlen|].
  unfold generate_TAC. rewrite generate_TAC_from_length. simpl. lia.
Qed.

Lemma main_assembly_size_witness :
  exists c,
    main "let x = 2 + 3 * 4; print(x);" = OK c /\
    List.length (c_asm c) = 2 * List.length (c_tac c) /\
    List.length (c_tac c) =
      count_binops_ast (c_ast c) + List.length (c_ast c).
Proof.
  eexists. split; [vm_compute; reflexivity|].
  apply (main_assembly_size "let x = 2 + 3 * 4; print(x);").
  vm_compute. reflexivity.
Defined.

(* ================================================================== *)
(** * Further properties: division by zero in the output loop *)
(* ================================================================== *)




(* ================================================================== *)
(** * Further properties: a statement without its semicolon *)
(* ================================================================== *)

Lemma not_binary_op_stops (t : string) (toks : list string) (n : nat) :
  nth_error toks n = Some t -> PyStr.mem t PyEval.binary_ops = false ->
  stops ["+"; "-"] toks n /\ stops ["*"; "/"] toks n.
Proof.
  intros Hn H. unfold stops. rewrite Hn.
  unfold PyEval.binary_ops, PyStr.mem in *. cbn [existsb] in *.
  destruct (String.eqb t "+"), (String.eqb t "-"), (String.eqb t "*"),
    (String.eqb t "/"); try discriminate H; split; reflexivity.
Qed.

Lemma end_stops (ops toks : list string) (n : nat) :
  nth_error toks n = None -> stops ops toks n.
Proof. unfold stops. now intros ->. Qed.

(** A [let] up to the end of its expression: what is left is to eat the
    semicolon. *)
Lemma let_up_to_semicolon (toks : list string) (name : string) (e : node) :
  PyStr.nonempty name = true -> parsed_node e ->
  segment toks 0 (["let"; name; "="] ++ write 0 e) ->
  stops ["+"; "-"] toks (3 + List.length (write 0 e)) ->
  stops ["*"; "/"] toks (3 + List.length (write 0 e)) ->
  List.length (write 0 e) <= List.length toks ->
  parse toks =
  match eat (Some ";") (mkParser toks (3 + List.length (write 0 e))) with
  | OK (_, p) =>
      match parse_loop (List.length toks) [Assign name e] p with
      | OK (ast, _) => OK ast
      | Raise err => Raise err
      | OutOfFuel => OutOfFuel
      | Unmodelled => Unmodelled
      end
  | Raise err => Raise err
  | OutOfFuel => OutOfFuel
  | Unmodelled => Unmodelled
  end.
Proof.
  intros Hname He Hseg Hadd Hmul Hlen.
  apply segment_cons in Hseg as [S1 Hseg].
  apply segment_cons in Hseg as [S2 Hseg].
  apply segment_cons in Hseg as [S3 Se].
  cbn [Nat.add] in S2, S3, Se.
  rewrite (parse_first_statement toks "let" S1 eq_refl).
  pose proof (write_length e 0) as Hw.
  assert (Hexpr : expr (S (List.length toks)) (mkParser toks 3) =
                  OK (e, mkParser toks (3 + List.length (write 0 e))))
    by (apply expr_written; try assumption; lia).
  unfold statement. unfold bind at 1, peek at 1, peek_at.
  cbn [tokens pos]. rewrite S1.
  change (String.eqb "let" "let") with true. cbv iota.
  rewrite (bind_OK_step _ _ _ "let" (mkParser toks 1))
    by now apply eat_expected.
  rewrite (bind_OK_step _ _ _ name (mkParser toks 2))
    by now apply eat_any.
  rewrite (bind_OK_step _ _ _ "=" (mkParser toks 3))
    by now apply eat_expected.
  rewrite (bind_OK_step _ _ _ _ _ Hexpr).
  unfold bind, ret.
  destruct (eat (Some ";") (mkParser toks (3 + List.length (write 0 e))))
    as [[t p] | err | |]; reflexivity.
Qed.

(** X21. A [let] without its semicolon is a SyntaxError: when the tokens
    end after the expression, [eat] raises [Unexpected end of input]; when
    a token that is neither [;] nor an operator follows, [eat] raises
    [Expected ';', got] that token. *)
Theorem let_without_semicolon (name : string) (e : node) :
  PyStr.nonempty name = true -> parsed_node e ->
  parse (["let"; name; "="] ++ write 0 e) =
    Raise (SyntaxError "Unexpected end of input") /\
  (forall t rest,
     PyStr.nonempty t = true -> t <> ";" ->
     PyStr.mem t PyEval.binary_ops = false ->
     parse (["let"; name; "="] ++ write 0 e ++ t :: rest) =
       Raise (SyntaxError ("Expected ';', got '" +++ t +++ "'"))).
Proof.
  intros Hname He. split.
  - assert (Hend : nth_error (["let"; name; "="] ++ write 0 e)
                     (3 + List.length (write 0 e)) = None)
      by (apply nth_error_None; simpl; lia).
    rewrite (let_up_to_semicolon _ name e Hname He);
      [| apply segment_whole | now apply end_stops | now apply end_stops
       | simpl; lia].
    rewrite eat_at_end; [reflexivity|].
    unfold peek_at. cbn [tokens pos]. now rewrite Hend.
  - intros t rest Ht Hsemi Hop.
    assert (Hnext : nth_error (["let"; name; "="] ++ write 0 e ++ t :: rest)
                      (3 + List.length (write 0 e)) = Some t).
    { cbn [List.app Nat.add nth_error].
      rewrite nth_error_app2 by lia. now rewrite Nat.sub_diag. }
    destruct (not_binary_op_stops t _ _ Hnext Hop) as [Hadd Hmul].
    rewrite (let_up_to_semicolon _ name e Hname He);
      [| | exact Hadd | exact Hmul
       | simpl; rewrite List.length_app; simpl; lia].
    + now rewrite (eat_other (mkParser _ _) ";" t Hnext Ht eq_refl Hsemi).
    + intros i u Hi. cbn [Nat.add].
      rewrite List.app_assoc.
      rewrite nth_error_app1; [exact Hi|].
      apply nth_error_Some. congruence.
Qed.

Lemma let_without_semicolon_witness :
  parse (["let"; "x"; "="] ++ write 0 (BinOp "+" (Num 1) (Var "y"))) =
    Raise (SyntaxError "Unexpected end of input") /\
  parse (["let"; "x"; "="] ++ write 0 (BinOp "+" (Num 1) (Var "y")) ++
         "print" :: ["("; "x"; ")"; ";"]) =
    Raise (SyntaxError "Expected ';', got 'print'").
Proof.
  assert (H : PyStr.nonempty "x" = true /\
              parsed_node (BinOp "+" (Num 1) (Var "y"))).
  { split; [reflexivity|]. simpl. repeat split; lia. }
  destruct H as [Hn He]. split.
  - apply (proj1 (let_without_semicolon "x" _ Hn He)).
  - apply (proj2 (let_without_semicolon "x" _ Hn He) "print");
      [reflexivity | discriminate | reflexivity].
Defined.

(* ================================================================== *)
(** * The output loop on the lines of a parsed program *)
(* ================================================================== *)



Lemma run_from_with_app ev (l1 l2 : list string) :
  forall st,
    run_from_with ev st (l1 ++ l2) =
    lift (run_from_with ev st l1) (fun st' => run_from_with ev st' l2).
Proof.
  induction l1 as [|line l1 IH]; intros st; simpl; [reflexivity|].
  destruct (exec_line_with ev line st); try reflexivity. apply IH.
Qed.

(** What a line [dest = rhs] does when [split] gives it a second piece and
    [split(" = ")] cuts it in two: it prints, if the text PRINT occurs in
    it, and otherwise stores under [dest] what [eval] gives, or zero. *)
Lemma exec_store_cases ev dest rhs memory printed a b rest :
  PyStr.split (dest +++ " = " +++ rhs) = a :: b :: rest ->
  PyStr.split_sep " = " (dest +++ " = " +++ rhs) = [dest; rhs] ->
  exec_line_with ev (dest +++ " = " +++ rhs) (memory, printed) =
    OK (memory, printed ++ [memory_get memory b]) \/
  exec_line_with ev (dest +++ " = " +++ rhs) (memory, printed) =
    match ev rhs memory with
    | OK v => OK (dict_set memory dest v, printed)
    | Raise _ => OK (dict_set memory dest (VInt 0), printed)
    | OutOfFuel => OutOfFuel
    | Unmodelled => Unmodelled
    end.
Proof.
  intros Hpieces Hsep. unfold exec_line_with. rewrite contains_eq_sign.
  destruct (PyStr.contains "PRINT" (dest +++ " = " +++ rhs)); cbn [negb andb].
  - left. now rewrite Hpieces.
  - right. now rewrite Hsep.
Qed.

Lemma exec_with_print_line ev memory printed operand :
  is_token operand = true ->
  exec_line_with ev ("PRINT " +++ operand) (memory, printed) =
  OK (memory, printed ++ [memory_get memory operand]).
Proof.
  intros Htok. unfold exec_line_with.
  assert (Hp : PyStr.contains "PRINT" ("PRINT " +++ operand) = true)
    by reflexivity.
  rewrite Hp, andb_false_r, split_print_line, (split_token _ Htok).
  reflexivity.
Qed.

(** The three kinds of line of a tokenized program in the loop: a print
    line appends a value; the other two append a value or store under
    their destination. *)
Lemma exec_shaped_line ev (Pt : string -> Prop) line memory printed :
  tac_shape (fun s => token_text s /\ Pt s) token_text binary_op line ->
  (exists v, exec_line_with ev line (memory, printed) =
             OK (memory, printed ++ [v])) \/
  (exists dest rhs,
     (Pt dest \/ exists n, dest = temp n) /\
     exec_line_with ev line (memory, printed) =
       match ev rhs memory with
       | OK v => OK (dict_set memory dest v, printed)
       | Raise _ => OK (dict_set memory dest (VInt 0), printed)
       | OutOfFuel => OutOfFuel
       | Unmodelled => Unmodelled
       end).
Proof.
  intros [name val [Hn Hp] Hv | n lhs op rhs Hl Hop Hr | val Hv].
  - destruct (exec_store_cases ev name val memory printed name "=" [val])
      as [H | H].
    + now apply split_assign_line.
    + apply split_sep_eq_operand; now apply is_token_no_space.
    + left. eauto.
    + right. exists name, val. split; [now left | exact H].
  - assert (Ht : is_token ("t" +++ PyStr.str_nat n) = true)
      by apply word_text_is_token, ascii_ident_word_text,
           plain_name_ascii_ident, temp_plain_name.
    destruct (exec_store_cases ev ("t" +++ PyStr.str_nat n)
                (lhs +++ " " +++ op +++ " " +++ rhs) memory printed
                ("t" +++ PyStr.str_nat n) "=" [lhs; op; rhs]) as [H | H].
    + apply split_compute_line;
        try assumption. now apply binary_op_is_token.
    + apply split_sep_eq_operation;
        try assumption; now apply is_token_no_space.
    + left. eauto.
    + right. exists ("t" +++ PyStr.str_nat n),
        (lhs +++ " " +++ op +++ " " +++ rhs).
      split; [right; now exists n | exact H].
  - left. exists (memory_get memory val). now apply exec_with_print_line.
Qed.

(** On the lines of a tokenized program the loop reaches its end,
    whatever [eval] returns or raises. *)
Lemma run_shaped_lines ev (tac : list string) :
  (forall e m, settled (ev e m)) ->
  forall st,
    Forall (tac_shape (fun s => token_text s /\ True) token_text binary_op)
      tac ->
    exists st', run_from_with ev st tac = OK st'.
Proof.
  intros Hev. induction tac as [|line tac IH]; intros st Hall;
    cbn [run_from_with]; [eauto|].
  inversion Hall as [|l t Hline Htac]; subst. destruct st as [memory printed].
  destruct (exec_shaped_line ev _ line memory printed Hline)
    as [[v H] | [dest [rhs [_ H]]]]; rewrite H.
  - now apply IH.
  - specialize (Hev rhs memory).
    destruct (ev rhs memory); try destruct Hev; now apply IH.
Qed.


(** The lines of a program [parse] returns on the tokens of a text, when no
    [let] has a name written in digits. *)
Lemma tokenized_TAC_shape (code : string) (ast : list stmt) (tc : nat)
    (Pt : string -> Prop) :
  parse (tokenize code) = OK ast ->
  (forall name e, In (Assign name e) ast -> Pt name) ->
  Forall (tac_shape (fun s => token_text s /\ Pt s) token_text binary_op)
    (fst (generate_TAC ast tc)).
Proof.
  intros Hparse Hnames. apply generate_TAC_shape.
  - intros n. apply word_text_is_token, ascii_ident_word_text,
      plain_name_ascii_ident, temp_plain_name.
  - apply (parse_from token_text) in Hparse.
    + apply Forall_forall. intros s Hs.
      rewrite Forall_forall in Hparse. specialize (Hparse s Hs).
      destruct s as [name e | e]; simpl in *.
      * destruct Hparse as [Hn He].
        split; [split; [exact Hn | now apply (Hnames name e)]
               | now apply node_from_sat].
      * now apply node_from_sat.
    + eapply Forall_impl; [|apply findall_classes].
      intros t Ht. now apply token_class_is_token.
Qed.






(* ================================================================== *)
(** * What a print line prints *)
(* ================================================================== *)




(* ================================================================== *)
(** * Further properties: the pieces of a generated line *)
(* ================================================================== *)

(** X13. On the lines generated for a text that [parse] accepts,
    [generate_ASM] returns, and the output loop never fails to unpack
    [split(" = ")] into two pieces nor to index [split()[1]], whatever
    [eval] returns or raises on the right-hand sides: with the printing of
    a value taken as the recording of it, the loop reaches the end of the
    lines.  (The limits of the interpreter on recursion and on the digits
    of a printed [int] are not part of the embedding.) *)
Theorem output_loop_never_fails_to_split
    (ev : string -> list (string * pyval) -> result pyval)
    (code : string) (ast : list stmt) (tc : nat) (st : machine) :
  (forall e m, settled (ev e m)) ->
  parse (tokenize code) = OK ast ->
  (exists asm, generate_ASM (fst (generate_TAC ast tc)) = OK asm) /\
  (exists st', run_from_with ev st (fst (generate_TAC ast tc)) = OK st').
Proof.
  intros Hev Hparse. split.
  - destruct (generate_ASM_doubles _ _ tc Hparse) as [asm [Hasm _]]. eauto.
  - apply run_shaped_lines; [exact Hev|].
    apply tokenized_TAC_shape with (code := code); [exact Hparse|].
    intros; exact I.
Qed.

Lemma output_loop_never_fails_to_split_witness :
  (forall (e : string) (m : list (string * pyval)),
     settled (Raise (ZeroDivisionError "division by zero") : result pyval)) /\
  parse (tokenize "let PRINT = 1 / 0; print(PRINT); let y = PRINT;") =
    OK [Assign "PRINT" (BinOp "/" (Num 1) (Num 0)); Print (Var "PRINT");
        Assign "y" (Var "PRINT")] /\
  (exists asm,
     generate_ASM
       (fst (generate_TAC
               [Assign "PRINT" (BinOp "/" (Num 1) (Num 0));
                Print (Var "PRINT"); Assign "y" (Var "PRINT")] 0)) = OK asm) /\
  (exists st',
     run_from_with
       (fun _ _ => Raise (ZeroDivisionError "division by zero")) ([], [])
       (fst (generate_TAC
               [Assign "PRINT" (BinOp "/" (Num 1) (Num 0));
                Print (Var "PRINT"); Assign "y" (Var "PRINT")] 0)) = OK st').
Proof.
  split; [intros; exact I|]. split; [vm_compute; reflexivity|].
  apply (output_loop_never_fails_to_split
           (fun _ _ => Raise (ZeroDivisionError "division by zero"))
           "let PRINT = 1 / 0; print(PRINT); let y = PRINT;").
  - intros; exact I.
  - vm_compute. reflexivity.
Defined.
